(** * Leads dashboard: the data-access layer and the dashboard query logic

    A shallow embedding of

    - [services/firestore.ts]: [docToLead], [leadsService]
      ([getAll], [getStats], [getById], [update], [delete]) and
      [notesService.create];
    - the Firestore-backed [services/api.ts]: [toAPILead],
      [toFirestoreLead], [leadsAPI], [notesAPI.create];
    - [components/LeadsDashboard.tsx]: [isContacted], the category
      snapshot and [fetchLeads];
    - [components/ContactStatusModal.tsx]: [handleSubmit].

    JavaScript numbers that the code uses as counters, page numbers and
    page sizes are integers of [Z].  Strings are sequences of one-byte
    code units.  Asynchronous calls run to completion one after the other
    (a single logical thread), so an [async] function is a computation in
    a state-and-exception monad over the store. *)

From Stdlib Require Import ZArith List String Ascii Bool Lia.
From Stdlib Require Import Sorted DecimalString.
Import ListNotations.

Local Open Scope string_scope.
Local Open Scope Z_scope.

(* ================================================================== *)
(** * JavaScript values and built-ins used by the code *)
(* ================================================================== *)

Module Js.

(** A field value as it can sit in a stored document or in an object. *)
Inductive JsVal : Type :=
  | JUndefined
  | JNull
  | JBool (b : bool)
  | JNum (z : Z)
  | JStr (s : string).

Definition JsVal_eqb (a b : JsVal) : bool :=
  match a, b with
  | JUndefined, JUndefined => true
  | JNull, JNull => true
  | JBool x, JBool y => Bool.eqb x y
  | JNum x, JNum y => Z.eqb x y
  | JStr x, JStr y => String.eqb x y
  | _, _ => false
  end.

(** [ToBoolean]. *)
Definition truthy (v : JsVal) : bool :=
  match v with
  | JUndefined | JNull => false
  | JBool b => b
  | JNum z => negb (z =? 0)
  | JStr s => negb (s =? "")%string
  end.

(** [a || b] *)
Definition or_else (a b : JsVal) : JsVal := if truthy a then a else b.

(** [v === 'text'] *)
Definition is_str (v : JsVal) (s : string) : bool := JsVal_eqb v (JStr s).

(** Truthiness of a string and of an optional string. *)
Definition str_truthy (s : string) : bool := negb (s =? "")%string.


(** The result of a floating-point division followed by [Math.ceil]. *)
Inductive JsNumber : Type :=
  | Finite (z : Z)
  | PosInfinity
  | NegInfinity
  | NaN.

(** [Math.ceil(a / b)] on integer operands. *)
Definition Math_ceil_div (a b : Z) : JsNumber :=
  if b =? 0 then
    if a =? 0 then NaN
    else if 0 <? a then PosInfinity else NegInfinity
  else Finite (- ((- a) / b)).

(** [n || 1] on a number. *)
Definition or_one (n : JsNumber) : JsNumber :=
  match n with
  | Finite z => if z =? 0 then Finite 1 else Finite z
  | NaN => Finite 1
  | other => other
  end.

(** [Array.prototype.slice(start, end)]: negative indices count from the
    end, both are clamped to the array. *)
Definition rel_index (len i : Z) : Z :=
  if i <? 0 then Z.max (len + i) 0 else Z.min i len.

Definition slice {A : Type} (start stop : Z) (l : list A) : list A :=
  let len := Z.of_nat (List.length l) in
  let k := rel_index len start in
  let final := rel_index len stop in
  firstn (Z.to_nat (final - k)) (skipn (Z.to_nat k) l).

(** [String.prototype.toLowerCase] on a one-byte character: the letters
    A-Z and the capital letters of Latin-1 (U+00C0 to U+00DE, but for the
    multiplication sign U+00D7) move 32 places up. *)
Definition lower_ascii (c : ascii) : ascii :=
  let n := nat_of_ascii c in
  if ((Nat.leb 65 n && Nat.leb n 90)
      || (Nat.leb 192 n && Nat.leb n 222 && negb (Nat.eqb n 215)))%bool
  then ascii_of_nat (n + 32) else c.

Fixpoint toLowerCase (s : string) : string :=
  match s with
  | EmptyString => EmptyString
  | String c rest => String (lower_ascii c) (toLowerCase rest)
  end.

(** [s.includes(sub)] *)
Fixpoint includes (s sub : string) : bool :=
  (String.prefix sub s ||
   match s with
   | EmptyString => false
   | String _ rest => includes rest sub
   end)%bool.

(** White space removed by [trim]: TAB, LF, VT, FF, CR, SPACE, NBSP. *)
Definition is_space (c : ascii) : bool :=
  let n := nat_of_ascii c in
  ((Nat.leb 9 n && Nat.leb n 13) || Nat.eqb n 32 || Nat.eqb n 160)%bool.

Fixpoint trimStart (s : string) : string :=
  match s with
  | EmptyString => EmptyString
  | String c rest => if is_space c then trimStart rest else s
  end.

Fixpoint trimEnd (s : string) : string :=
  match s with
  | EmptyString => EmptyString
  | String c rest =>
      let t := trimEnd rest in
      if (is_space c && (t =? "")%string)%bool then EmptyString
      else String c t
  end.

Definition trim (s : string) : string := trimEnd (trimStart s).

(** [s.split(',')[0]]: the text before the first comma. *)
Fixpoint split_comma_first (s : string) : string :=
  match s with
  | EmptyString => EmptyString
  | String c rest =>
      if Ascii.eqb c ","%char then EmptyString
      else String c (split_comma_first rest)
  end.

(** [s.length] *)
Definition str_length (s : string) : Z := Z.of_nat (String.length s).

End Js.

Import Js.

(* ================================================================== *)
(** * The document store as the code uses it (firebase/firestore) *)
(* ================================================================== *)

Module Firestore.

(** Error codes of a [FirebaseError]. *)
Inductive FirestoreCode : Type :=
  | not_found
  | invalid_argument
  | unavailable
  | permission_denied.

(** What an [async] function can throw. *)
Inductive Exn : Type :=
  | FirebaseError (code : FirestoreCode)
  | Error (message : string)
  | TypeError.

(** The data of a document of the [leads] collection.  The optional
    scalar fields that [docToLead] copies one by one and that no
    operation below reads (address, phone, email, website, rating, ...)
    are left out.  [created_at] is a stored [Timestamp], kept as its
    epoch value; [docToLead] renders it as ISO text, which that value
    determines. *)
Record LeadData : Type := mkLeadData {
  d_business_name : string;
  d_category : option string;
  d_status : JsVal;
  d_created_at : Z;
  d_updated_at : option Z
}.

Record LeadDoc : Type := mkLeadDoc {
  doc_id : string;
  doc_data : LeadData
}.

(** Documents of [contacts], [social_profiles] and [enrichment_log]. *)
Record ChildDoc : Type := mkChildDoc {
  child_id : string;
  child_lead_id : string;
  child_created_at : Z
}.

(** Documents of [notes]. *)
Record NoteData : Type := mkNoteData {
  n_lead_id : string;
  n_content : string;
  n_created_by : string;
  n_contact_method : string;
  n_contact_date : string;
  n_created_at : Z
}.

Record NoteDoc : Type := mkNoteDoc {
  note_id : string;
  note_data : NoteData
}.

Inductive CollectionName : Type :=
  | leadsCollection
  | contactsCollection
  | socialProfilesCollection
  | enrichmentLogCollection
  | notesCollection.

(** Query constraints: [where(f, 'in', vs)], [where(f, '==', v)],
    [orderBy(f, 'desc')], [limit(n)]. *)
Inductive Constraint : Type :=
  | where_in (field : string) (values : list string)
  | where_eq (field : string) (value : string)
  | orderBy_desc (field : string)
  | limit_to (n : Z).

(** Field access by name. *)
Definition lead_field (d : LeadDoc) (f : string) : JsVal :=
  if (f =? "status")%string then d_status (doc_data d)
  else if (f =? "business_name")%string
       then JStr (d_business_name (doc_data d))
  else if (f =? "category")%string
       then match d_category (doc_data d) with
            | Some c => JStr c
            | None => JUndefined
            end
  else if (f =? "created_at")%string then JNum (d_created_at (doc_data d))
  else JUndefined.

Definition child_field (d : ChildDoc) (f : string) : JsVal :=
  if (f =? "lead_id")%string then JStr (child_lead_id d)
  else if (f =? "created_at")%string then JNum (child_created_at d)
  else JUndefined.

Section Query.

Context {D : Type}.
Variable field : D -> string -> JsVal.

Definition sort_key (f : string) (d : D) : Z :=
  match field d f with
  | JNum z => z
  | _ => 0
  end.

(** Descending, stable insertion sort on a key. *)
Fixpoint insert_desc (key : D -> Z) (x : D) (l : list D) : list D :=
  match l with
  | [] => [x]
  | y :: rest =>
      if key x <? key y then y :: insert_desc key x rest
      else x :: y :: rest
  end.

Definition sort_desc (key : D -> Z) (l : list D) : list D :=
  fold_right (insert_desc key) [] l.

Definition satisfies (c : Constraint) (d : D) : bool :=
  match c with
  | where_in f vs => existsb (fun v => is_str (field d f) v) vs
  | where_eq f v => is_str (field d f) v
  | _ => true
  end.

Definition matches (cs : list Constraint) (d : D) : bool :=
  forallb (fun c => satisfies c d) cs.

Fixpoint order_by (cs : list Constraint) (l : list D) : list D :=
  match cs with
  | [] => l
  | orderBy_desc f :: _ => sort_desc (sort_key f) l
  | _ :: rest => order_by rest l
  end.

Fixpoint take_limit (cs : list Constraint) (l : list D) : list D :=
  match cs with
  | [] => l
  | limit_to n :: _ => firstn (Z.to_nat n) l
  | _ :: rest => take_limit rest l
  end.

(** The documents a query returns: those that satisfy every [where],
    in the requested order, cut at the limit. *)
Definition runQuery (cs : list Constraint) (docs : list D) : list D :=
  take_limit cs (order_by cs (filter (matches cs) docs)).

(** [getCountFromServer]. *)
Definition countQuery (cs : list Constraint) (docs : list D) : Z :=
  Z.of_nat (List.length (runQuery cs docs)).

End Query.

(** A field map handed to [updateDoc] for a lead: the fields present
    and their new values. *)
Record LeadUpdate : Type := mkLeadUpdate {
  u_business_name : option string;
  u_category : option string;
  u_status : option JsVal;
  u_updated_at : option Z
}.

(** A round-trip to the store, as recorded in the trace. *)
Inductive Call : Type :=
  | call_getDocs (c : CollectionName) (cs : list Constraint)
  | call_getCount (c : CollectionName) (cs : list Constraint)
  | call_getDoc (c : CollectionName) (id : string)
  | call_updateDoc (c : CollectionName) (id : string) (u : LeadUpdate)
  | call_deleteDoc (c : CollectionName) (id : string)
  | call_addDoc (c : CollectionName) (content : string).

Inductive LogLevel : Type := log_warn | log_error.

(** The world an operation runs in: the collections, the clock, the
    generator of document ids, the transport (a script saying, for each
    coming round-trip, whether it goes through or fails with a code),
    the trace of round-trips issued and the console. *)
Record World : Type := mkWorld {
  leads : list LeadDoc;
  contacts : list ChildDoc;
  social_profiles : list ChildDoc;
  enrichment_log : list ChildDoc;
  notes : list NoteDoc;
  now : Z;
  next_id : nat;
  transport : list (option FirestoreCode);
  trace : list Call;
  console : list (LogLevel * string)
}.

Definition set_leads (w : World) (l : list LeadDoc) : World :=
  mkWorld l (contacts w) (social_profiles w) (enrichment_log w) (notes w)
          (now w) (next_id w) (transport w) (trace w) (console w).

Definition set_notes (w : World) (l : list NoteDoc) (n : nat) : World :=
  mkWorld (leads w) (contacts w) (social_profiles w) (enrichment_log w) l
          (now w) n (transport w) (trace w) (console w).

Definition set_transport (w : World) (t : list (option FirestoreCode))
  : World :=
  mkWorld (leads w) (contacts w) (social_profiles w) (enrichment_log w)
          (notes w) (now w) (next_id w) t (trace w) (console w).

Definition add_trace (w : World) (c : Call) : World :=
  mkWorld (leads w) (contacts w) (social_profiles w) (enrichment_log w)
          (notes w) (now w) (next_id w) (transport w) (trace w ++ [c])%list
          (console w).

Definition add_console (w : World) (lv : LogLevel) (s : string) : World :=
  mkWorld (leads w) (contacts w) (social_profiles w) (enrichment_log w)
          (notes w) (now w) (next_id w) (transport w) (trace w)
          (console w ++ [(lv, s)])%list.

(** ** The monad of [async] functions *)

Inductive Result (A : Type) : Type :=
  | Ok (a : A)
  | Throw (e : Exn).

Arguments Ok {A} a.
Arguments Throw {A} e.

Definition M (A : Type) : Type := World -> Result A * World.

Definition ret {A : Type} (a : A) : M A := fun w => (Ok a, w).

Definition throw {A : Type} (e : Exn) : M A := fun w => (Throw e, w).

Definition bind {A B : Type} (m : M A) (k : A -> M B) : M B :=
  fun w =>
    match m w with
    | (Ok a, w') => k a w'
    | (Throw e, w') => (Throw e, w')
    end.

(** [try { m } catch (e) { h e }] *)
Definition try_catch {A : Type} (m : M A) (h : Exn -> M A) : M A :=
  fun w =>
    match m w with
    | (Ok a, w') => (Ok a, w')
    | (Throw e, w') => h e w'
    end.

Definition console_log (lv : LogLevel) (s : string) : M unit :=
  fun w => (Ok tt, add_console w lv s).

(** [new Date()], read from the clock. *)
Definition Date_now : M Z := fun w => (Ok (now w), w).

(** One round-trip: record it, then let the transport decide. *)
Definition round_trip (c : Call) : M unit :=
  fun w =>
    let w1 := add_trace w c in
    match transport w1 with
    | Some code :: rest => (Throw (FirebaseError code), set_transport w1 rest)
    | None :: rest => (Ok tt, set_transport w1 rest)
    | [] => (Ok tt, w1)
    end.

Notation "x <- m ;; k" := (bind m (fun x => k))
  (at level 61, m at next level, right associativity).

(** ** The SDK calls *)

(** [limit(n)] refuses a number that is not positive. *)
Definition firestoreLimit (n : Z) : M Constraint :=
  if 0 <? n then ret (limit_to n)
  else throw (FirebaseError invalid_argument).

Definition getDocs_leads (cs : list Constraint) : M (list LeadDoc) :=
  _ <- round_trip (call_getDocs leadsCollection cs) ;;
  fun w => (Ok (runQuery lead_field cs (leads w)), w).

Definition child_docs (c : CollectionName) (w : World) : list ChildDoc :=
  match c with
  | contactsCollection => contacts w
  | socialProfilesCollection => social_profiles w
  | enrichmentLogCollection => enrichment_log w
  | _ => []
  end.

Definition getDocs_child (c : CollectionName) (cs : list Constraint)
  : M (list ChildDoc) :=
  _ <- round_trip (call_getDocs c cs) ;;
  fun w => (Ok (runQuery child_field cs (child_docs c w)), w).

Definition getCountFromServer_leads (cs : list Constraint) : M Z :=
  _ <- round_trip (call_getCount leadsCollection cs) ;;
  fun w => (Ok (countQuery lead_field cs (leads w)), w).

Definition find_lead (id : string) (l : list LeadDoc) : option LeadDoc :=
  find (fun d => (doc_id d =? id)%string) l.

(** [getDoc]: a snapshot; [None] is a snapshot whose [exists()] is
    false. *)
Definition getDoc_lead (id : string) : M (option LeadDoc) :=
  _ <- round_trip (call_getDoc leadsCollection id) ;;
  fun w => (Ok (find_lead id (leads w)), w).

Definition apply_update (u : LeadUpdate) (d : LeadData) : LeadData :=
  mkLeadData
    (match u_business_name u with Some b => b | None => d_business_name d end)
    (match u_category u with Some c => Some c | None => d_category d end)
    (match u_status u with Some s => s | None => d_status d end)
    (d_created_at d)
    (match u_updated_at u with Some t => Some t | None => d_updated_at d end).

Definition update_in (id : string) (u : LeadUpdate) (l : list LeadDoc)
  : list LeadDoc :=
  map (fun d => if (doc_id d =? id)%string
                then mkLeadDoc (doc_id d) (apply_update u (doc_data d))
                else d) l.

(** A field whose value is [undefined] is refused before anything is
    sent. *)
Definition update_well_formed (u : LeadUpdate) : bool :=
  match u_status u with
  | Some JUndefined => false
  | _ => true
  end.

(** [updateDoc] fails with [not-found] when the document is absent. *)
Definition updateDoc_lead (id : string) (u : LeadUpdate) : M unit :=
  if update_well_formed u then
    _ <- round_trip (call_updateDoc leadsCollection id u) ;;
    fun w =>
      match find_lead id (leads w) with
      | Some _ => (Ok tt, set_leads w (update_in id u (leads w)))
      | None => (Throw (FirebaseError not_found), w)
      end
  else throw (FirebaseError invalid_argument).

(** [deleteDoc] succeeds whether or not the document exists. *)
Definition deleteDoc_lead (id : string) : M unit :=
  _ <- round_trip (call_deleteDoc leadsCollection id) ;;
  fun w =>
    (Ok tt,
     set_leads w (filter (fun d => negb (doc_id d =? id)%string) (leads w))).

Definition auto_id (n : nat) : string :=
  "auto" ++ NilZero.string_of_uint (Nat.to_uint n).

(** The field map of a new note, as [notesService.create] builds it;
    an absent argument leaves an [undefined] value in it. *)
Record NoteFields : Type := mkNoteFields {
  nf_lead_id : string;
  nf_content : string;
  nf_created_by : string;
  nf_contact_method : option string;
  nf_contact_date : option string;
  nf_created_at : Z
}.

(** [addDoc] on [notes]; it returns the id of the new document. *)
Definition addDoc_note (f : NoteFields) : M string :=
  match nf_contact_method f, nf_contact_date f with
  | Some method, Some date =>
      _ <- round_trip (call_addDoc notesCollection (nf_content f)) ;;
      fun w =>
        let nid := auto_id (next_id w) in
        let d := mkNoteDoc nid
                   (mkNoteData (nf_lead_id f) (nf_content f)
                      (nf_created_by f) method date (nf_created_at f)) in
        (Ok nid, set_notes w (notes w ++ [d])%list (S (next_id w)))
  | _, _ => throw (FirebaseError invalid_argument)
  end.

End Firestore.

Import Firestore.

(* ================================================================== *)
(** * services/firestore.ts *)
(* ================================================================== *)

Module Adapter.

Record Lead : Type := mkLead {
  id : string;
  business_name : string;
  category : option string;
  status : JsVal;
  created_at : Z;
  updated_at : option Z
}.

Record LeadsStats : Type := mkStats {
  all : Z;
  notContacted : Z;
  contacted : Z
}.

Inductive StatusFilter : Type :=
  | status_all
  | status_not_contacted
  | status_contacted.

Definition StatusFilter_eqb (a b : StatusFilter) : bool :=
  match a, b with
  | status_all, status_all => true
  | status_not_contacted, status_not_contacted => true
  | status_contacted, status_contacted => true
  | _, _ => false
  end.

Record LeadsQueryParams : Type := mkParams {
  q_status : option StatusFilter;
  q_category : option string;
  q_search : option string;
  q_page : option Z;
  q_limit : option Z
}.

Definition no_params : LeadsQueryParams := mkParams None None None None None.

Definition default {A : Type} (o : option A) (d : A) : A :=
  match o with
  | Some a => a
  | None => d
  end.

(** Helper to convert Firestore doc to Lead *)
Definition docToLead (doc : LeadDoc) : Lead :=
  let data := doc_data doc in
  mkLead (doc_id doc)
         (d_business_name data)
         (d_category data)
         (or_else (d_status data) (JStr "new"))
         (d_created_at data)
         (d_updated_at data).

Definition contacted_values : list string :=
  ["contacted"; "qualified"; "converted"].

(** [lead.status === 'new' || !lead.status] *)
Definition not_contacted_pred (lead : Lead) : bool :=
  (is_str (status lead) "new" || negb (truthy (status lead)))%bool.

(** [lead.business_name.toLowerCase().includes(searchLower)] *)
Definition search_pred (searchLower : string) (lead : Lead) : bool :=
  includes (toLowerCase (business_name lead)) searchLower.

Record LeadsPage : Type := mkPage {
  success : bool;
  data : list Lead;
  total : Z;
  page : Z;
  limit : Z;
  totalPages : JsNumber;
  stats : LeadsStats
}.

(** [leadsService.getStats] *)
Definition getStats : M LeadsStats :=
  all_ <- getCountFromServer_leads [] ;;
  contacted_ <- getCountFromServer_leads [where_in "status" contacted_values] ;;
  ret (mkStats all_ (all_ - contacted_) contacted_).

(** The constraints pushed so far when the limit is added. *)
Definition constraints_before_limit (st : StatusFilter) : list Constraint :=
  ((if StatusFilter_eqb st status_contacted
    then [where_in "status" contacted_values] else [])
   ++ [orderBy_desc "created_at"])%list.

Definition fetchLimit (st : StatusFilter) (lim : Z) : Z :=
  if StatusFilter_eqb st status_not_contacted then lim * 3 else lim.

(** The client-side search step: [if (search) { ... filter ... }]. *)
Definition search_step (search : option string) (l : list Lead) : list Lead :=
  match search with
  | Some s =>
      if str_truthy s then filter (search_pred (toLowerCase s)) l else l
  | None => l
  end.

(** The array [leads] after the client-side status and search filters. *)
Definition filtered (st : StatusFilter) (search : option string)
    (docs : list LeadDoc) : list Lead :=
  let leads0 := map docToLead docs in
  let leads1 :=
    if StatusFilter_eqb st status_not_contacted
    then filter not_contacted_pred leads0 else leads0 in
  search_step search leads1.

(** The client-side steps of [getAll], from the fetched documents to the
    returned records: the filters, then [leads.slice(0, limit)]. *)
Definition client_side (st : StatusFilter) (search : option string)
    (lim : Z) (docs : list LeadDoc) : list Lead :=
  slice 0 lim (filtered st search docs).

(** [leadsService.getAll] *)
Definition getAll (params : LeadsQueryParams) : M LeadsPage :=
  let st := default (q_status params) status_all in
  let search := q_search params in
  let pg := default (q_page params) 1 in
  let lim := default (q_limit params) 15 in
  c <- firestoreLimit (fetchLimit st lim) ;;
  let constraints := (constraints_before_limit st ++ [c])%list in
  snapshot <- getDocs_leads constraints ;;
  let leads_ := client_side st search lim snapshot in
  stats_ <- getStats ;;
  let total_ := all stats_ in
  let totalPages_ := Math_ceil_div total_ lim in
  ret (mkPage true leads_ total_ pg lim totalPages_ stats_).

Record LeadDetails : Type := mkDetails {
  lead : Lead;
  det_contacts : list ChildDoc;
  det_socialProfiles : list ChildDoc;
  det_enrichmentLog : list ChildDoc
}.

(** [leadsService.getById].  Here and in [update] and [delete], the id
    is one [doc(leadsCollection, id)] accepts as the name of a document
    of the collection. *)
Definition getById (i : string) : M LeadDetails :=
  docSnap <- getDoc_lead i ;;
  match docSnap with
  | None => throw (Error "Lead not found")
  | Some d =>
      let lead_ := docToLead d in
      cs <- getDocs_child contactsCollection [where_eq "lead_id" i] ;;
      ss <- getDocs_child socialProfilesCollection [where_eq "lead_id" i] ;;
      es <- getDocs_child enrichmentLogCollection
              [where_eq "lead_id" i; orderBy_desc "created_at"] ;;
      ret (mkDetails lead_ cs ss es)
  end.

(** [Partial<Lead>], for the fields the callers of [update] send. *)
Record PartialLead : Type := mkPartial {
  p_id : option string;
  p_business_name : option string;
  p_category : option string;
  p_status : option JsVal
}.

(** [leadsService.update]: the id is removed from the field map, the
    update time is added. *)
Definition update (i : string) (patch : PartialLead) : M Lead :=
  t <- Date_now ;;
  let updateData :=
    mkLeadUpdate (p_business_name patch) (p_category patch)
                 (p_status patch) (Some t) in
  _ <- updateDoc_lead i updateData ;;
  updatedDoc <- getDoc_lead i ;;
  match updatedDoc with
  | Some d => ret (docToLead d)
  | None => throw TypeError
  end.

(** [leadsService.delete] *)
Definition delete (i : string) : M bool :=
  _ <- deleteDoc_lead i ;;
  ret true.

Record Note : Type := mkNote {
  note_ident : string;
  note_fields : NoteFields
}.

(** [notesService.create] *)
Definition create (leadId content createdBy : string)
    (contactMethod contactDate : option string) : M Note :=
  t <- Date_now ;;
  let noteData :=
    mkNoteFields leadId content createdBy contactMethod contactDate t in
  nid <- addDoc_note noteData ;;
  ret (mkNote nid noteData).

End Adapter.

(* ================================================================== *)
(** * services/api.ts (the Firestore-backed facade) *)
(* ================================================================== *)

Module Api.

(** A lead as the components see it: every field of the adapter's lead
    (the object spread) and the public key [_id]. *)
Record Lead : Type := mkLead {
  _id : string;
  fields : Adapter.Lead
}.

(** Helper to convert Firestore Lead to API Lead (id -> _id) *)
Definition toAPILead (lead : Adapter.Lead) : Lead :=
  mkLead (Adapter.id lead) lead.

(** [Partial<Lead>] of the facade. *)
Record PartialLead : Type := mkPartial {
  p__id : option string;
  p_business_name : option string;
  p_category : option string;
  p_status : option JsVal
}.

(** Helper to convert API Lead to Firestore Lead (_id -> id) *)
Definition toFirestoreLead (lead : PartialLead) : Adapter.PartialLead :=
  Adapter.mkPartial (p__id lead) (p_business_name lead) (p_category lead)
                    (p_status lead).

Record PaginatedResponse : Type := mkResponse {
  success : bool;
  data : list Lead;
  total : Z;
  page : Z;
  limit : Z;
  totalPages : JsNumber;
  stats : Adapter.LeadsStats
}.

(** [leadsAPI.getAll] *)
Definition getAll (params : Adapter.LeadsQueryParams) : M PaginatedResponse :=
  result <- Adapter.getAll params ;;
  ret (mkResponse (Adapter.success result)
                  (map toAPILead (Adapter.data result))
                  (Adapter.total result) (Adapter.page result)
                  (Adapter.limit result) (Adapter.totalPages result)
                  (Adapter.stats result)).

Record LeadDetailsResponse : Type := mkDetailsResponse {
  det_success : bool;
  det_lead : Lead;
  det_contacts : list ChildDoc;
  det_socialProfiles : list ChildDoc;
  det_enrichmentLog : list ChildDoc
}.

(** [leadsAPI.getById] *)
Definition getById (i : string) : M LeadDetailsResponse :=
  result <- Adapter.getById i ;;
  ret (mkDetailsResponse true (toAPILead (Adapter.lead result))
         (Adapter.det_contacts result) (Adapter.det_socialProfiles result)
         (Adapter.det_enrichmentLog result)).

Record UpdateResponse : Type := mkUpdateResponse {
  upd_success : bool;
  upd_data : Lead
}.

(** [leadsAPI.update] *)
Definition update (i : string) (patch : PartialLead) : M UpdateResponse :=
  let firestoreData := toFirestoreLead patch in
  result <- Adapter.update i firestoreData ;;
  ret (mkUpdateResponse true (toAPILead result)).

(** [leadsAPI.delete] *)
Definition delete (i : string) : M bool := Adapter.delete i.

(** [notesAPI.create] *)
Definition create (leadId content createdBy : string)
    (contactMethod contactDate : option string) : M (bool * Adapter.Note) :=
  result <- Adapter.create leadId content createdBy contactMethod contactDate ;;
  ret (true, result).

End Api.

(* ================================================================== *)
(** * components/LeadsDashboard.tsx *)
(* ================================================================== *)

Module Dashboard.

Import Adapter.

Record State : Type := mkState {
  leads : list Api.Lead;
  allLeadsForCategories : list Api.Lead;
  loading : bool;
  searchQuery : string;
  statusFilter : StatusFilter;
  categoryFilter : string;
  itemsPerPage : Z;
  currentPage : Z;
  totalPages : JsNumber;
  total : Z;
  stats : LeadsStats
}.

Definition setLoading (s : State) (b : bool) : State :=
  mkState (leads s) (allLeadsForCategories s) b (searchQuery s)
          (statusFilter s) (categoryFilter s) (itemsPerPage s)
          (currentPage s) (totalPages s) (total s) (stats s).

Definition setAllLeadsForCategories (s : State) (l : list Api.Lead) : State :=
  mkState (leads s) l (loading s) (searchQuery s)
          (statusFilter s) (categoryFilter s) (itemsPerPage s)
          (currentPage s) (totalPages s) (total s) (stats s).

Definition setCategoryFilter (s : State) (c : string) : State :=
  mkState (leads s) (allLeadsForCategories s) (loading s) (searchQuery s)
          (statusFilter s) c (itemsPerPage s)
          (currentPage s) (totalPages s) (total s) (stats s).

(** [setLeads], [setTotalPages], [setTotal] and [setStats] together. *)
Definition setResults (s : State) (l : list Api.Lead) (tp : JsNumber)
    (t : Z) (st : LeadsStats) : State :=
  mkState l (allLeadsForCategories s) (loading s) (searchQuery s)
          (statusFilter s) (categoryFilter s) (itemsPerPage s)
          (currentPage s) tp t st.

(** The state a freshly mounted dashboard starts from. *)
Definition initial (search : string) (st : StatusFilter) (cat : string)
    (perPage pg : Z) : State :=
  mkState [] [] true search st cat perPage pg (Finite 1) 0 (mkStats 0 0 0).

(** [isContacted] *)
Definition isContacted (lead : Api.Lead) : bool :=
  (is_str (status (Api.fields lead)) "contacted" || is_str (status (Api.fields lead)) "qualified"
   || is_str (status (Api.fields lead)) "converted")%bool.

(** The fetch of the category snapshot, run once on mount. *)
Definition fetchCategories (s : State) : M State :=
  try_catch
    (response <- Api.getAll (mkParams None None None None (Some 1000)) ;;
     if Api.success response
     then ret (setAllLeadsForCategories s (Api.data response))
     else ret s)
    (fun _ => _ <- console_log log_error "Error fetching categories:" ;;
              ret s).

(** The category test of the in-memory path. *)
Definition category_pred (categoryFilter_ : string) (lead : Api.Lead) : bool :=
  match category (Api.fields lead) with
  | Some c =>
      if str_truthy c then
        (toLowerCase (trim (split_comma_first c))
         =? toLowerCase categoryFilter_)%string
      else false
  | None => false
  end.

(** The status test of the in-memory path for "contacted". *)
Definition thick_contacted_pred (lead : Api.Lead) : bool :=
  (is_str (status (Api.fields lead)) "contacted" || is_str (status (Api.fields lead)) "qualified"
   || is_str (status (Api.fields lead)) "converted")%bool.

(** The status test of the in-memory path for "not_contacted". *)
Definition thick_not_contacted_pred (lead : Api.Lead) : bool :=
  (is_str (status (Api.fields lead)) "new" || negb (truthy (status (Api.fields lead))))%bool.

(** The leads left after the category, status and search steps. *)
Definition filteredLeads (s : State) : list Api.Lead :=
  let l0 := filter (category_pred (categoryFilter s))
                   (allLeadsForCategories s) in
  let l1 :=
    match statusFilter s with
    | status_contacted => filter thick_contacted_pred l0
    | status_not_contacted => filter thick_not_contacted_pred l0
    | status_all => l0
    end in
  if str_truthy (searchQuery s)
  then filter (fun lead =>
              search_pred (toLowerCase (searchQuery s)) (Api.fields lead)) l1
  else l1.

(** The in-memory branch of [fetchLeads]. *)
Definition thick_path (s : State) : State :=
  let fl := filteredLeads s in
  let n := Z.of_nat (List.length fl) in
  let startIndex := (currentPage s - 1) * itemsPerPage s in
  let paginatedLeads := slice startIndex (startIndex + itemsPerPage s) fl in
  let contactedCount :=
    Z.of_nat (List.length (filter thick_contacted_pred fl)) in
  setResults s paginatedLeads
             (or_one (Math_ceil_div n (itemsPerPage s)))
             n
             (mkStats n (n - contactedCount) contactedCount).

(** The delegating branch of [fetchLeads]. *)
Definition thin_path (s : State) : M State :=
  response <- Api.getAll
    (mkParams (Some (statusFilter s)) None
              (if str_truthy (searchQuery s) then Some (searchQuery s)
               else None)
              (Some (currentPage s)) (Some (itemsPerPage s))) ;;
  if Api.success response
  then ret (setResults s (Api.data response) (Api.totalPages response)
                       (Api.total response) (Api.stats response))
  else ret s.

Definition use_thick_path (s : State) : bool :=
  (negb (categoryFilter s =? "all")%string
   && (0 <? Z.of_nat (List.length (allLeadsForCategories s))))%bool.

(** [fetchLeads] *)
Definition fetchLeads (s : State) : M State :=
  let s1 := setLoading s true in
  s2 <- try_catch
          (if use_thick_path s1 then ret (thick_path s1) else thin_path s1)
          (fun _ => _ <- console_log log_error "Error fetching leads:" ;;
                    ret s1) ;;
  ret (setLoading s2 false).

(** The dashboard once the category snapshot has arrived and
    [fetchLeads] has run against it, for the page [pg] it is on (a fresh
    mount is on page 1: see [resetPage]). *)
Definition mount (search : string) (st : StatusFilter) (cat : string)
    (perPage pg : Z) : M State :=
  s1 <- fetchCategories (initial search st cat perPage pg) ;;
  fetchLeads s1.

End Dashboard.

(* ================================================================== *)
(** * components/ContactStatusModal.tsx *)
(* ================================================================== *)

Module Modal.

Record User : Type := mkUser {
  firstName : string
}.

Record State : Type := mkState {
  lead : Api.Lead;
  user : option User;
  contactMethod : string;
  contactDate : string;
  notes : string;
  loading : bool;
  error : option string;
  onSuccess_called : option Api.Lead;
  onClose_called : bool
}.

Definition setLoading (s : State) (b : bool) : State :=
  mkState (lead s) (user s) (contactMethod s) (contactDate s) (notes s)
          b (error s) (onSuccess_called s) (onClose_called s).

Definition setError (s : State) (e : option string) : State :=
  mkState (lead s) (user s) (contactMethod s) (contactDate s) (notes s)
          (loading s) e (onSuccess_called s) (onClose_called s).

Definition onSuccess (s : State) (l : Api.Lead) : State :=
  mkState (lead s) (user s) (contactMethod s) (contactDate s) (notes s)
          (loading s) (error s) (Some l) (onClose_called s).

Definition onClose (s : State) : State :=
  mkState (lead s) (user s) (contactMethod s) (contactDate s) (notes s)
          (loading s) (error s) (onSuccess_called s) true.

(** The modal as it opens on a lead. *)
Definition opened (l : Api.Lead) (u : option User) (date text : string)
  : State :=
  mkState l u "phone" date text false None None false.

Definition isContacted (s : State) : bool :=
  (is_str (Adapter.status (Api.fields (lead s))) "contacted"
   || is_str (Adapter.status (Api.fields (lead s))) "qualified"
   || is_str (Adapter.status (Api.fields (lead s))) "converted")%bool.

Definition newStatus (s : State) : string :=
  if isContacted s then "new" else "contacted".

Definition requiresNotes (s : State) : bool := negb (isContacted s).

Definition too_short_message : string :=
  "Please add notes about the contact (minimum 10 characters)".

Definition update_failed_message : string :=
  "Failed to update status. Please try again.".

(** The note write, whose failure is caught and logged. *)
Definition save_notes (s : State) : M unit :=
  match user s with
  | Some u =>
      if (requiresNotes s && str_truthy (trim (notes s)))%bool then
        try_catch
          (_ <- Api.create (Api._id (lead s)) (trim (notes s)) (firstName u)
                           (Some (contactMethod s)) (Some (contactDate s)) ;;
           ret tt)
          (fun _ => console_log log_warn "Could not save notes:")
      else ret tt
  | None => ret tt
  end.

(** [handleSubmit] *)
Definition handleSubmit (s : State) : M State :=
  if (requiresNotes s && (str_length (trim (notes s)) <? 10))%bool then
    ret (setError s (Some too_short_message))
  else
    let s1 := setError (setLoading s true) None in
    s2 <- try_catch
            (updateResponse <-
               Api.update (Api._id (lead s1))
                 (Api.mkPartial None None None (Some (JStr (newStatus s1)))) ;;
             if negb (Api.upd_success updateResponse)
             then throw (Error "Failed to update status")
             else
               _ <- save_notes s1 ;;
               ret (onClose (onSuccess s1 (Api.upd_data updateResponse))))
            (fun _ =>
               _ <- console_log log_error update_failed_message ;;
               ret (setError s1 (Some update_failed_message))) ;;
    ret (setLoading s2 false).

(** The submit button is disabled under the same test. *)
Definition submit_disabled (s : State) : bool :=
  (loading s || (requiresNotes s && (str_length (trim (notes s)) <? 10)))%bool.

End Modal.

(* ================================================================== *)
(** * Facts about the built-ins *)
(* ================================================================== *)

Module JsFacts.

Lemma slice_from_0 {A : Type} (n : Z) (l : list A) :
  0 <= n -> slice 0 n l = firstn (Z.to_nat n) l.
Proof.
  intros Hn. unfold slice, rel_index. cbv zeta.
  assert (Hlen : 0 <= Z.of_nat (List.length l)) by lia.
  replace (0 <? 0) with false by reflexivity.
  replace (n <? 0) with false by (symmetry; apply Z.ltb_ge; lia).
  rewrite (Z.min_l 0) by lia. simpl skipn. rewrite Z.sub_0_r.
  destruct (Z.le_ge_cases n (Z.of_nat (List.length l))) as [Hle | Hge].
  - rewrite Z.min_l by lia. reflexivity.
  - rewrite Z.min_r by lia. rewrite Nat2Z.id.
    rewrite firstn_all. symmetry. apply firstn_all2. lia.
Qed.

Lemma length_slice_le {A : Type} (a b : Z) (l : list A) :
  0 <= a -> 0 <= b ->
  (List.length (slice a b l) <= Z.to_nat (b - a))%nat.
Proof.
  intros Ha Hb0. unfold slice. cbv zeta.
  rewrite length_firstn.
  apply Nat.le_trans with
    (Z.to_nat (rel_index (Z.of_nat (List.length l)) b
               - rel_index (Z.of_nat (List.length l)) a)).
  - apply Nat.le_min_l.
  - unfold rel_index.
    replace (a <? 0) with false by (symmetry; apply Z.ltb_ge; lia).
    replace (b <? 0) with false by (symmetry; apply Z.ltb_ge; lia).
    lia.
Qed.

Lemma slice_past_end {A : Type} (a b : Z) (l : list A) :
  Z.of_nat (List.length l) <= a -> slice a b l = [].
Proof.
  intros Ha. unfold slice, rel_index. cbv zeta.
  replace (a <? 0) with false by (symmetry; apply Z.ltb_ge; lia).
  rewrite (Z.min_r a) by lia. rewrite Nat2Z.id.
  rewrite skipn_all. apply firstn_nil.
Qed.

Lemma Forall_firstn_ {A : Type} (P : A -> Prop) (n : nat) (l : list A) :
  Forall P l -> Forall P (firstn n l).
Proof.
  intros H. revert n. induction H as [|x l Hx Hl IH]; intros [|n]; simpl;
    constructor; auto.
Qed.



Lemma Forall_filter_ {A : Type} (P : A -> Prop) (f : A -> bool) (l : list A) :
  Forall P l -> Forall P (filter f l).
Proof.
  induction 1 as [|x l Hx Hl IH]; simpl; [constructor|].
  destruct (f x); [constructor|]; assumption.
Qed.

Lemma filter_of_map {A B : Type} (f : B -> bool) (g : A -> B) (l : list A) :
  filter f (map g l) = map g (filter (fun x => f (g x)) l).
Proof.
  induction l as [|x l IH]; simpl; [reflexivity|].
  destruct (f (g x)); simpl; rewrite IH; reflexivity.
Qed.

Lemma Forall_filter_true {A : Type} (f : A -> bool) (l : list A) :
  Forall (fun x => f x = true) (filter f l).
Proof.
  induction l as [|x l IH]; simpl; [constructor|].
  destruct (f x) eqn:E; [constructor|]; assumption.
Qed.

Lemma filter_all_true {A : Type} (f : A -> bool) (l : list A) :
  Forall (fun x => f x = true) l -> filter f l = l.
Proof.
  induction 1 as [|x l Hx Hl IH]; simpl; [reflexivity|].
  rewrite Hx, IH. reflexivity.
Qed.

(** The first rows of a filtered prefix are the first rows of the
    filtered whole, up to what the prefix has missed. *)
Lemma filter_firstn_prefix {A : Type} (f : A -> bool) (n : nat) (l : list A) :
  exists rest, filter f l = (filter f (firstn n l) ++ rest)%list.
Proof.
  exists (filter f (skipn n l)).
  rewrite <- filter_app, firstn_skipn. reflexivity.
Qed.

Lemma firstn_prefix {A : Type} (n : nat) (l rest : list A) :
  exists rest', firstn n (l ++ rest) = (firstn n l ++ rest')%list.
Proof.
  rewrite firstn_app. eexists. reflexivity.
Qed.

Lemma Math_ceil_div_pos (a b : Z) :
  0 < b -> Math_ceil_div a b = Finite ((a + b - 1) / b).
Proof.
  intros Hb. unfold Math_ceil_div.
  replace (b =? 0) with false by (symmetry; apply Z.eqb_neq; lia).
  f_equal.
  pose proof (Z.div_mod (- a) b ltac:(lia)) as H1.
  pose proof (Z.mod_pos_bound (- a) b Hb) as H2.
  pose proof (Z.div_mod (a + b - 1) b ltac:(lia)) as H3.
  pose proof (Z.mod_pos_bound (a + b - 1) b Hb) as H4.
  nia.
Qed.

End JsFacts.

Module QueryFacts.

Section Sorting.

Context {D : Type}.
Variable key : D -> Z.

Definition desc (a b : D) : Prop := key b <= key a.

Lemma insert_desc_head (x : D) (l : list D) :
  Forall (desc x) l -> insert_desc key x l = x :: l.
Proof.
  intros H. destruct l as [|y l]; simpl; [reflexivity|].
  inversion H as [|? ? Hy _]; subst. unfold desc in Hy.
  replace (key x <? key y) with false
    by (symmetry; apply Z.ltb_ge; exact Hy).
  reflexivity.
Qed.

Lemma insert_desc_In (x y : D) (l : list D) :
  In y (insert_desc key x l) <-> y = x \/ In y l.
Proof.
  induction l as [|z l IH]; simpl.
  - intuition.
  - destruct (key x <? key z); simpl; rewrite ?IH; intuition.
Qed.

Lemma insert_desc_sorted (x : D) (l : list D) :
  StronglySorted desc l -> StronglySorted desc (insert_desc key x l).
Proof.
  induction 1 as [|y l Hl IH Hy]; simpl.
  - repeat constructor.
  - destruct (key x <? key y) eqn:E.
    + apply Z.ltb_lt in E. constructor; [exact IH|].
      apply Forall_forall. intros z Hz.
      apply insert_desc_In in Hz. destruct Hz as [-> | Hz].
      * unfold desc. lia.
      * rewrite Forall_forall in Hy. auto.
    + apply Z.ltb_ge in E. constructor.
      * constructor; assumption.
      * constructor; [exact E|].
        apply Forall_forall. intros z Hz.
        rewrite Forall_forall in Hy. specialize (Hy z Hz).
        unfold desc in *. lia.
Qed.

Lemma sort_desc_sorted (l : list D) : StronglySorted desc (sort_desc key l).
Proof.
  induction l as [|x l IH]; simpl; [constructor|].
  apply insert_desc_sorted, IH.
Qed.

Lemma length_insert_desc (x : D) (l : list D) :
  List.length (insert_desc key x l) = S (List.length l).
Proof.
  induction l as [|y l IH]; simpl; [reflexivity|].
  destruct (key x <? key y); simpl; [rewrite IH|]; reflexivity.
Qed.

Lemma length_sort_desc (l : list D) :
  List.length (sort_desc key l) = List.length l.
Proof.
  induction l as [|x l IH]; simpl; [reflexivity|].
  rewrite length_insert_desc, IH. reflexivity.
Qed.

Lemma sorted_filter (f : D -> bool) (l : list D) :
  StronglySorted desc l -> StronglySorted desc (filter f l).
Proof.
  induction 1 as [|y l Hl IH Hy]; simpl; [constructor|].
  destruct (f y); [|exact IH].
  constructor; [exact IH|]. apply JsFacts.Forall_filter_, Hy.
Qed.

(** Selecting rows commutes with inserting a row into sorted rows. *)
Lemma filter_insert_desc (f : D -> bool) (x : D) (l : list D) :
  StronglySorted desc l ->
  filter f (insert_desc key x l) =
  if f x then insert_desc key x (filter f l) else filter f l.
Proof.
  induction 1 as [|y l Hl IH Hy]; simpl.
  - destruct (f x); reflexivity.
  - destruct (key x <? key y) eqn:E; simpl.
    + rewrite IH. destruct (f y), (f x); simpl; rewrite ?E; reflexivity.
    + apply Z.ltb_ge in E. destruct (f x) eqn:Fx; [|reflexivity].
      symmetry. apply insert_desc_head.
      assert (Hall : Forall (desc x) (y :: l)).
      { constructor; [exact E|].
        apply Forall_forall. intros z Hz.
        rewrite Forall_forall in Hy. specialize (Hy z Hz).
        unfold desc in *. lia. }
      apply (JsFacts.Forall_filter_ _ f) in Hall. exact Hall.
Qed.

(** A [where] applied before ordering selects the same rows, in the
    same order, as a filter applied to the ordered rows. *)
Lemma filter_sort_desc (f : D -> bool) (l : list D) :
  filter f (sort_desc key l) = sort_desc key (filter f l).
Proof.
  induction l as [|x l IH]; simpl; [reflexivity|].
  rewrite filter_insert_desc by apply sort_desc_sorted.
  rewrite IH. destruct (f x); reflexivity.
Qed.

End Sorting.

End QueryFacts.

(* ================================================================== *)
(** * Facts about the store and the adapter *)
(* ================================================================== *)

Module StoreFacts.

Import Adapter.

(** The store-side membership test on the stored status. *)
Definition stored_contacted (d : LeadDoc) : bool :=
  satisfies lead_field (where_in "status" contacted_values) d.

Definition created_key (d : LeadDoc) : Z := sort_key lead_field "created_at" d.

(** The counts of the whole collection. *)
Definition collection_stats (docs : list LeadDoc) : LeadsStats :=
  let n := Z.of_nat (List.length docs) in
  let c := Z.of_nat (List.length (filter stored_contacted docs)) in
  mkStats n (n - c) c.

(** The query [getAll] sends. *)
Definition getAll_query (st : StatusFilter) (lim : Z) : list Constraint :=
  (constraints_before_limit st ++ [limit_to (fetchLimit st lim)])%list.

(** The rows that query selects. *)
Definition candidates (st : StatusFilter) (lim : Z) (docs : list LeadDoc)
  : list LeadDoc :=
  firstn (Z.to_nat (fetchLimit st lim))
    (sort_desc created_key
       (if StatusFilter_eqb st status_contacted
        then filter stored_contacted docs else docs)).

Lemma created_key_eq (d : LeadDoc) : created_key d = d_created_at (doc_data d).
Proof. reflexivity. Qed.

Lemma filter_const_true {A : Type} (l : list A) : filter (fun _ => true) l = l.
Proof. induction l as [|x l IH]; simpl; [|rewrite IH]; reflexivity. Qed.

Lemma runQuery_getAll (st : StatusFilter) (lim : Z) (docs : list LeadDoc) :
  runQuery lead_field (getAll_query st lim) docs = candidates st lim docs.
Proof.
  unfold runQuery, getAll_query, candidates, constraints_before_limit.
  destruct st; simpl StatusFilter_eqb; cbv iota; simpl app;
    simpl take_limit; simpl order_by; f_equal; f_equal.
  - rewrite <- (filter_const_true docs) at 2. apply filter_ext. reflexivity.
  - rewrite <- (filter_const_true docs) at 2. apply filter_ext. reflexivity.
  - apply filter_ext. intros d. unfold matches, stored_contacted. simpl.
    rewrite !Bool.andb_true_r. reflexivity.
Qed.

Lemma count_all (docs : list LeadDoc) :
  countQuery lead_field [] docs = Z.of_nat (List.length docs).
Proof.
  unfold countQuery, runQuery. simpl.
  rewrite (filter_ext _ (fun _ => true)) by reflexivity.
  rewrite filter_const_true. reflexivity.
Qed.

Lemma count_contacted (docs : list LeadDoc) :
  countQuery lead_field [where_in "status" contacted_values] docs =
  Z.of_nat (List.length (filter stored_contacted docs)).
Proof.
  unfold countQuery, runQuery. simpl. do 2 f_equal.
  apply filter_ext. intros d. unfold matches, stored_contacted. simpl.
  rewrite Bool.andb_true_r. reflexivity.
Qed.

(** ** Round-trips *)

Lemma round_trip_quiet (c : Call) (w : World) :
  transport w = [] -> round_trip c w = (Ok tt, add_trace w c).
Proof. intros H. unfold round_trip. simpl. rewrite H. reflexivity. Qed.

(** A round-trip that goes through leaves the collections as they
    were and adds itself to the trace. *)
Lemma round_trip_ok (c : Call) (w w' : World) (u : unit) :
  round_trip c w = (Ok u, w') ->
  Firestore.leads w' = Firestore.leads w /\
  Firestore.notes w' = Firestore.notes w /\
  console w' = console w /\
  trace w' = (trace w ++ [c])%list.
Proof.
  unfold round_trip. simpl.
  destruct (transport w) as [|[code|] rest]; intros H; inversion H; subst;
    simpl; auto.
Qed.

Lemma bind_ok {A B : Type} (m : M A) (k : A -> M B) (w w1 : World) (a : A) :
  m w = (Ok a, w1) -> bind m k w = k a w1.
Proof. intros H. unfold bind. rewrite H. reflexivity. Qed.

Lemma bind_throw {A B : Type} (m : M A) (k : A -> M B) (w w1 : World) e :
  m w = (Throw e, w1) -> bind m k w = (Throw e, w1).
Proof. intros H. unfold bind. rewrite H. reflexivity. Qed.

Lemma bind_inv {A B : Type} (m : M A) (k : A -> M B) (w w' : World) (b : B) :
  bind m k w = (Ok b, w') ->
  exists a w1, m w = (Ok a, w1) /\ k a w1 = (Ok b, w').
Proof.
  unfold bind. destruct (m w) as [[a|e] w1]; intros H.
  - exists a, w1. auto.
  - discriminate.
Qed.

Lemma getDocs_leads_quiet (cs : list Constraint) (w : World) :
  transport w = [] ->
  getDocs_leads cs w =
  (Ok (runQuery lead_field cs (Firestore.leads w)),
   add_trace w (call_getDocs leadsCollection cs)).
Proof.
  intros H. unfold getDocs_leads.
  erewrite bind_ok by (apply round_trip_quiet; exact H). reflexivity.
Qed.

Lemma getStats_quiet (w : World) :
  transport w = [] ->
  getStats w =
  (Ok (collection_stats (Firestore.leads w)),
   add_trace (add_trace w (call_getCount leadsCollection []))
     (call_getCount leadsCollection [where_in "status" contacted_values])).
Proof.
  intros H. unfold getStats, getCountFromServer_leads.
  rewrite (bind_ok _ _ w (add_trace w (call_getCount leadsCollection [])) 
             (Z.of_nat (List.length (Firestore.leads w)))).
  2:{ rewrite (bind_ok _ _ _ _ _ (round_trip_quiet _ w H)).
      simpl. rewrite count_all. reflexivity. }
  erewrite bind_ok.
  2:{ erewrite bind_ok by (apply round_trip_quiet; exact H).
      simpl. rewrite count_contacted. reflexivity. }
  reflexivity.
Qed.

Lemma getStats_ok (w w' : World) (s : LeadsStats) :
  getStats w = (Ok s, w') ->
  s = collection_stats (Firestore.leads w) /\
  Firestore.leads w' = Firestore.leads w /\
  trace w' =
  (trace w ++ [call_getCount leadsCollection [];
               call_getCount leadsCollection
                 [where_in "status" contacted_values]])%list.
Proof.
  unfold getStats, getCountFromServer_leads. intros H.
  apply bind_inv in H. destruct H as (a & w1 & H1 & H).
  apply bind_inv in H1. destruct H1 as (u1 & w1' & R1 & E1).
  inversion E1; subst; clear E1.
  apply bind_inv in H. destruct H as (c & w2 & H2 & H).
  apply bind_inv in H2. destruct H2 as (u2 & w2' & R2 & E2).
  inversion E2; subst; clear E2.
  inversion H; subst; clear H.
  apply round_trip_ok in R1. destruct R1 as (L1 & _ & _ & T1).
  apply round_trip_ok in R2. destruct R2 as (L2 & _ & _ & T2).
  rewrite L2, L1, count_all, count_contacted. repeat split.
  rewrite T2, T1, <- app_assoc. reflexivity.
Qed.

(** The page [getAll] returns, written out. *)
Definition getAll_page (params : LeadsQueryParams) (docs : list LeadDoc)
  : LeadsPage :=
  let st := default (q_status params) status_all in
  let lim := default (q_limit params) 15 in
  let s := collection_stats docs in
  mkPage true
         (client_side st (q_search params) lim (candidates st lim docs))
         (all s) (default (q_page params) 1) lim
         (Math_ceil_div (all s) lim) s.

Definition getAll_calls (params : LeadsQueryParams) : list Call :=
  let st := default (q_status params) status_all in
  let lim := default (q_limit params) 15 in
  [call_getDocs leadsCollection (getAll_query st lim);
   call_getCount leadsCollection [];
   call_getCount leadsCollection [where_in "status" contacted_values]].

(** Whenever [getAll] returns, it returns that page, after exactly one
    document query and the two counts. *)
Lemma getAll_ok (params : LeadsQueryParams) (w w' : World) (r : LeadsPage) :
  getAll params w = (Ok r, w') ->
  0 < default (q_limit params) 15 /\
  r = getAll_page params (Firestore.leads w) /\
  Firestore.leads w' = Firestore.leads w /\
  trace w' = (trace w ++ getAll_calls params)%list.
Proof.
  unfold getAll. intros H.
  apply bind_inv in H. destruct H as (c & w0 & Hc & H).
  unfold firestoreLimit in Hc.
  destruct (0 <? fetchLimit _ _) eqn:Hpos; [|discriminate].
  inversion Hc; subst; clear Hc.
  apply bind_inv in H. destruct H as (snap & w1 & Hs & H).
  unfold getDocs_leads in Hs.
  apply bind_inv in Hs. destruct Hs as (u & w1' & R & E).
  inversion E; subst; clear E.
  apply bind_inv in H. destruct H as (s & w2 & Hst & H).
  inversion H; subst; clear H.
  apply round_trip_ok in R. destruct R as (L1 & _ & _ & T1).
  apply getStats_ok in Hst. destruct Hst as (-> & L2 & T2).
  assert (Hlim : 0 < default (q_limit params) 15).
  { apply Z.ltb_lt in Hpos. unfold fetchLimit in Hpos.
    destruct (StatusFilter_eqb _ _); lia. }
  split; [exact Hlim|]. split; [|split].
  - unfold getAll_page. rewrite L1.
    fold (getAll_query (default (q_status params) status_all)
                       (default (q_limit params) 15)).
    rewrite runQuery_getAll. reflexivity.
  - rewrite L2, L1. reflexivity.
  - rewrite T2, T1, <- app_assoc. reflexivity.
Qed.

(** With a transport that lets everything through and a positive page
    size, [getAll] does return. *)
Lemma getAll_quiet (params : LeadsQueryParams) (w : World) :
  transport w = [] -> 0 < default (q_limit params) 15 ->
  exists w', getAll params w = (Ok (getAll_page params (Firestore.leads w)), w')
             /\ transport w' = [] 
             /\ Firestore.leads w' = Firestore.leads w
             /\ trace w' = (trace w ++ getAll_calls params)%list.
Proof.
  intros Hq Hlim.
  assert (Hpos : (0 <? fetchLimit (default (q_status params) status_all)
                         (default (q_limit params) 15)) = true).
  { apply Z.ltb_lt. unfold fetchLimit.
    destruct (StatusFilter_eqb _ _); lia. }
  eexists. split.
  - unfold getAll, firestoreLimit. rewrite Hpos.
    erewrite bind_ok by reflexivity.
    erewrite bind_ok by (apply getDocs_leads_quiet; exact Hq).
    erewrite bind_ok by (apply getStats_quiet; exact Hq).
    unfold ret, getAll_page. simpl Firestore.leads.
    fold (getAll_query (default (q_status params) status_all)
                       (default (q_limit params) 15)).
    rewrite runQuery_getAll. reflexivity.
  - simpl. repeat split; auto.
    rewrite <- !app_assoc. reflexivity.
Qed.

End StoreFacts.

(* ================================================================== *)
(** * Sample data *)
(* ================================================================== *)

Module Samples.

Definition world_of (docs : list LeadDoc) : World :=
  mkWorld docs [] [] [] [] 1700000000000 0 [] [] [].

Definition lead_doc (ident name : string) (cat : option string)
    (st : JsVal) (t : Z) : LeadDoc :=
  mkLeadDoc ident (mkLeadData name cat st t None).

(** [n] documents with the same name, category and status, numbered
    [n], ..., 1, the most recent first. *)
Fixpoint batch (name : string) (cat : option string) (st : JsVal)
    (base : Z) (n : nat) : list LeadDoc :=
  match n with
  | O => []
  | S k =>
      lead_doc (name ++ NilZero.string_of_uint (Nat.to_uint n)) name cat st
               (base + Z.of_nat n)
      :: batch name cat st base k
  end.

Definition acme : LeadDoc :=
  lead_doc "L1" "Acme Bakery" (Some "Retail, Food") JUndefined 300.

Definition bolt : LeadDoc :=
  lead_doc "L2" "Bolt Motors" (Some "garage") (JStr "contacted") 200.

Definition cafe : LeadDoc :=
  lead_doc "L3" "Cafe Luna" (Some "food") (JStr "qualified") 100.

Definition three_leads : World := world_of [bolt; acme; cafe].

End Samples.

(* ================================================================== *)
(** * The status normalisation and the contacted grouping *)
(* ================================================================== *)

Import Adapter.
Import StoreFacts.

Lemma or_else_truthy (v : JsVal) : truthy (or_else v (JStr "new")) = true.
Proof.
  unfold or_else. destruct (truthy v) eqn:E; [exact E | reflexivity].
Qed.




(** The statuses of the contacted group. *)
Definition in_contacted_group (v : JsVal) : Prop :=
  exists s, In s contacted_values /\ v = JStr s.

Lemma contacted_group_bool (v : JsVal) :
  (is_str v "contacted" || is_str v "qualified" || is_str v "converted")%bool
  = true <-> in_contacted_group v.
Proof.
  unfold in_contacted_group, contacted_values, is_str. split.
  - intros H. apply Bool.orb_true_iff in H. destruct H as [H | H].
    + apply Bool.orb_true_iff in H. destruct H as [H | H];
        destruct v; simpl in H; try discriminate;
        apply String.eqb_eq in H; subst; eexists; simpl; eauto.
    + destruct v; simpl in H; try discriminate.
      apply String.eqb_eq in H; subst; eexists; simpl; eauto.
  - intros (s & Hin & ->). simpl in Hin.
    destruct Hin as [<- | [<- | [<- | []]]]; reflexivity.
Qed.

Lemma stored_contacted_docToLead (doc : LeadDoc) :
  stored_contacted doc =
  Dashboard.isContacted (Api.toAPILead (docToLead doc)).
Proof.
  unfold stored_contacted, Dashboard.isContacted, satisfies, contacted_values.
  simpl existsb. simpl is_str.
  unfold lead_field. simpl String.eqb. cbv iota.
  unfold or_else.
  destruct (d_status (doc_data doc)) as [| |b|z|s]; simpl; try reflexivity.
  - destruct b; reflexivity.
  - destruct (z =? 0); reflexivity.
  - destruct (String.eqb s "") eqn:E; simpl.
    + apply String.eqb_eq in E. subst. reflexivity.
    + rewrite Bool.orb_false_r, Bool.orb_assoc. reflexivity.
Qed.

(** C6.  [isContacted] holds exactly for the statuses contacted,
    qualified and converted; a status "new", undefined or null is never
    contacted and always passes the not-contacted test; and the badge,
    the modal, the in-memory filters, the adapter's client-side filter and
    the store-side membership filter all compute the same grouping. *)
Theorem isContacted_iff_contacted_group :
  forall (lead : Api.Lead),
    (Dashboard.isContacted lead = true
     <-> in_contacted_group (status (Api.fields lead)))
    /\ Dashboard.thick_contacted_pred lead = Dashboard.isContacted lead
    /\ (forall u cm cd t l e ok cl,
          Modal.isContacted (Modal.mkState lead u cm cd t l e ok cl)
          = Dashboard.isContacted lead)
    /\ (forall doc, stored_contacted doc
                    = Dashboard.isContacted (Api.toAPILead (docToLead doc)))
    /\ Dashboard.thick_not_contacted_pred lead
       = not_contacted_pred (Api.fields lead)
    /\ (forall i b c t u k v,
          In v [JStr "new"; JUndefined; JNull] ->
          let l := Api.mkLead k (mkLead i b c v t u) in
          Dashboard.isContacted l = false
          /\ Dashboard.thick_not_contacted_pred l = true
          /\ not_contacted_pred (Api.fields l) = true)
    /\ (Dashboard.isContacted lead = true ->
        Dashboard.thick_not_contacted_pred lead = false).
Proof.
  intros lead. split; [|split; [|split; [|split; [|split; [|split]]]]].
  - apply contacted_group_bool.
  - reflexivity.
  - reflexivity.
  - apply stored_contacted_docToLead.
  - reflexivity.
  - intros i b c t u k v Hv. simpl in Hv.
    destruct Hv as [<- | [<- | [<- | []]]]; repeat split; reflexivity.
  - unfold Dashboard.isContacted, Dashboard.thick_not_contacted_pred.
    destruct (status (Api.fields lead)) as [| |b|z|s]; simpl;
      try discriminate.
    intros H.
    destruct (String.eqb s "new") eqn:E1.
    { apply String.eqb_eq in E1. subst. discriminate. }
    destruct (String.eqb s "") eqn:E2.
    { apply String.eqb_eq in E2. subst. discriminate. }
    reflexivity.
Qed.

(* ================================================================== *)
(** * The status filters of [getAll] *)
(* ================================================================== *)

(** C5.  With status "contacted", [getAll] sends the membership filter
    status in (contacted, qualified, converted) to the store as part of
    its one document query, together with the descending order on
    [created_at] and the limit; with status "not_contacted" it sends no
    status filter, asks for 3 x limit rows in descending order of
    [created_at], and keeps, client-side and before the final cut to
    [limit] rows, the rows whose status is "new" or absent.  In both
    cases the call returns when the transport lets it through. *)
Theorem getAll_status_filters :
  forall (cat search : option string) (pg : option Z) (lim : Z) (w : World),
    let contacted_q := mkParams (Some status_contacted) cat search pg (Some lim) in
    let not_contacted_q :=
      mkParams (Some status_not_contacted) cat search pg (Some lim) in
    (forall r w',
        getAll contacted_q w = (Ok r, w') ->
        trace w' =
          (trace w ++
           [call_getDocs leadsCollection
              [where_in "status" ["contacted"; "qualified"; "converted"];
               orderBy_desc "created_at"; limit_to lim];
            call_getCount leadsCollection [];
            call_getCount leadsCollection
              [where_in "status" ["contacted"; "qualified"; "converted"]]])%list
        /\ data r =
           slice 0 lim
             (search_step search
                (map docToLead
                   (firstn (Z.to_nat lim)
                      (sort_desc created_key
                         (filter stored_contacted (Firestore.leads w)))))))
    /\ (forall r w',
        getAll not_contacted_q w = (Ok r, w') ->
        let rows := firstn (Z.to_nat (lim * 3))
                      (sort_desc created_key (Firestore.leads w)) in
        trace w' =
          (trace w ++
           [call_getDocs leadsCollection
              [orderBy_desc "created_at"; limit_to (lim * 3)];
            call_getCount leadsCollection [];
            call_getCount leadsCollection
              [where_in "status" ["contacted"; "qualified"; "converted"]]])%list
        /\ StronglySorted (QueryFacts.desc created_key) rows
        /\ data r =
           slice 0 lim
             (search_step search
                (filter (fun l => (is_str (status l) "new"
                                   || negb (truthy (status l)))%bool)
                        (map docToLead rows))))
    /\ (transport w = [] -> 0 < lim ->
        (exists r w', getAll contacted_q w = (Ok r, w'))
        /\ (exists r w', getAll not_contacted_q w = (Ok r, w'))).
Proof.
  intros cat search pg lim w contacted_q not_contacted_q.
  split; [|split].
  - intros r w' H. apply getAll_ok in H.
    destruct H as (_ & -> & _ & T). split; [exact T | reflexivity].
  - intros r w' H rows. apply getAll_ok in H.
    destruct H as (_ & -> & _ & T). split; [exact T|]. split.
    + unfold rows.
      assert (S : StronglySorted (QueryFacts.desc created_key)
                    (sort_desc created_key (Firestore.leads w)))
        by apply QueryFacts.sort_desc_sorted.
      revert S. generalize (sort_desc created_key (Firestore.leads w)).
      generalize (Z.to_nat (lim * 3)). intros n l S. revert n.
      induction S as [|x l Hl IH Hx]; intros [|n]; simpl;
        constructor; auto.
      apply JsFacts.Forall_firstn_, Hx.
    + reflexivity.
  - intros Hq Hlim. split.
    + destruct (getAll_quiet contacted_q w Hq Hlim) as (w' & E & _).
      eauto.
    + destruct (getAll_quiet not_contacted_q w Hq Hlim) as (w' & E & _).
      eauto.
Qed.

Lemma getAll_status_filters_witness :
  (exists r w',
      getAll (mkParams (Some status_contacted) None None None (Some 1))
             Samples.three_leads = (Ok r, w')
      /\ data r = [docToLead Samples.bolt])
  /\ (exists r w',
      getAll (mkParams (Some status_not_contacted) None None None (Some 1))
             Samples.three_leads = (Ok r, w')
      /\ data r = [docToLead Samples.acme]).
Proof.
  pose proof (getAll_status_filters None None None 1 Samples.three_leads)
    as (Hc & Hn & Hex).
  destruct (Hex eq_refl eq_refl) as [(r1 & w1 & E1) (r2 & w2 & E2)].
  split.
  - exists r1, w1. split; [exact E1|].
    destruct (Hc r1 w1 E1) as (_ & D). rewrite D. reflexivity.
  - exists r2, w2. split; [exact E2|].
    destruct (Hn r2 w2 E2) as (_ & _ & D). rewrite D. reflexivity.
Defined.

(* ================================================================== *)
(** * Pagination in the adapter *)
(* ================================================================== *)

(** The records [getAll] returns do not depend on the page asked for. *)
Lemma getAll_data_ignores_page :
  forall st cat search pg pg' lim w r w' r' w'',
    getAll (mkParams st cat search pg lim) w = (Ok r, w') ->
    getAll (mkParams st cat search pg' lim) w = (Ok r', w'') ->
    data r = data r' /\ totalPages r = totalPages r'.
Proof.
  intros st cat search pg pg' lim w r w' r' w'' H1 H2.
  apply getAll_ok in H1. destruct H1 as (_ & -> & _).
  apply getAll_ok in H2. destruct H2 as (_ & -> & _).
  split; reflexivity.
Qed.

(** What [getAll] always guarantees about a page: at most [limit]
    records, and [totalPages] the rounded-up quotient of the collection
    size by [limit]. *)
Lemma getAll_page_bounds :
  forall params w r w',
    getAll params w = (Ok r, w') ->
    0 < limit r
    /\ Z.of_nat (List.length (data r)) <= limit r
    /\ total r = Z.of_nat (List.length (Firestore.leads w))
    /\ totalPages r = Finite ((total r + limit r - 1) / limit r).
Proof.
  intros params w r w' H. apply getAll_ok in H.
  destruct H as (Hlim & -> & _). simpl.
  split; [exact Hlim|]. split; [|split].
  - unfold client_side.
    pose proof (JsFacts.length_slice_le 0 (default (q_limit params) 15)
                  (filtered (default (q_status params) status_all)
                     (q_search params)
                     (candidates (default (q_status params) status_all)
                        (default (q_limit params) 15) (Firestore.leads w)))
                  ltac:(lia) ltac:(lia)) as Hle.
    rewrite Z.sub_0_r in Hle. lia.
  - reflexivity.
  - apply JsFacts.Math_ceil_div_pos, Hlim.
Qed.

(** Eleven leads without a status, the most recent first. *)
Definition eleven_leads : World :=
  Samples.world_of (Samples.batch "Lead" None JUndefined 0 11).

Definition page_of_ten (pg : Z) : LeadsQueryParams :=
  mkParams None None None (Some pg) (Some 10).

(** C1.  On a collection of eleven leads, page 2 with limit 10 returns
    the same ten records as page 1 ([leads.slice(0, limit)]), where the
    slice [(p-1)*L, p*L) = [10, 20) of the filtered array is empty: the
    page number does not enter the slice. *)
Theorem getAll_page_two_repeats_page_one :
  exists r1 w1 r2 w2,
    getAll (page_of_ten 1) eleven_leads = (Ok r1, w1)
    /\ getAll (page_of_ten 2) eleven_leads = (Ok r2, w2)
    /\ page r2 = 2
    /\ data r2 = data r1
    /\ List.length (data r2) = 10%nat
    /\ data r2 =
       slice 0 10
         (filtered status_all None
            (candidates status_all 10 (Firestore.leads eleven_leads)))
    /\ slice ((2 - 1) * 10) (2 * 10)
         (filtered status_all None
            (candidates status_all 10 (Firestore.leads eleven_leads))) = []
    /\ data r2 <>
       slice ((2 - 1) * 10) (2 * 10)
         (filtered status_all None
            (candidates status_all 10 (Firestore.leads eleven_leads))).
Proof.
  destruct (getAll_quiet (page_of_ten 1) eleven_leads eq_refl eq_refl)
    as (w1 & E1 & _).
  destruct (getAll_quiet (page_of_ten 2) eleven_leads eq_refl eq_refl)
    as (w2 & E2 & _).
  do 4 eexists. split; [exact E1|]. split; [exact E2|].
  split; [reflexivity|]. split; [reflexivity|].
  split; [vm_compute; reflexivity|]. split; [reflexivity|].
  split; [vm_compute; reflexivity|].
  vm_compute. discriminate.
Qed.

Definition one_lead : World := Samples.world_of [Samples.acme].

(** C4.  On an empty collection [getAll] reports [totalPages] 0, not 1;
    and on a collection of one lead, page 2 with limit 10 lies past
    [totalPages] = 1 yet returns that lead, not an empty set.  (The bound
    of [limit] records per page and [totalPages] = ceil(T/L) for T > 0
    do hold, see [getAll_page_bounds].) *)
Theorem getAll_pagination_bounds_fail :
  (exists r w',
      getAll no_params (Samples.world_of []) = (Ok r, w')
      /\ total r = 0
      /\ totalPages r = Finite 0
      /\ totalPages r <> Finite 1)
  /\ (exists r w',
      getAll (page_of_ten 2) one_lead = (Ok r, w')
      /\ total r = 1
      /\ totalPages r = Finite 1
      /\ page r = 2
      /\ data r = [docToLead Samples.acme]
      /\ data r <> []).
Proof.
  split.
  - destruct (getAll_quiet no_params (Samples.world_of []) eq_refl eq_refl)
      as (w' & E & _).
    do 2 eexists. split; [exact E|].
    repeat split; try reflexivity. vm_compute. discriminate.
  - destruct (getAll_quiet (page_of_ten 2) one_lead eq_refl eq_refl)
      as (w' & E & _).
    do 2 eexists. split; [exact E|].
    repeat split; try reflexivity. vm_compute. discriminate.
Qed.

(* ================================================================== *)
(** * The dashboard: the two paths of [fetchLeads] *)
(* ================================================================== *)

Module DashboardFacts.

Import Dashboard.

(** Document to the lead the components see. *)
Definition shown (d : LeadDoc) : Api.Lead := Api.toAPILead (docToLead d).

(** The response of the facade, written out. *)
Definition response_of (params : LeadsQueryParams) (docs : list LeadDoc)
  : Api.PaginatedResponse :=
  let r := getAll_page params docs in
  Api.mkResponse (Adapter.success r) (map Api.toAPILead (Adapter.data r))
                 (Adapter.total r) (Adapter.page r) (Adapter.limit r)
                 (Adapter.totalPages r) (Adapter.stats r).

Lemma Api_getAll_quiet (params : LeadsQueryParams) (w : World) :
  transport w = [] -> 0 < default (q_limit params) 15 ->
  exists w', Api.getAll params w = (Ok (response_of params (Firestore.leads w)), w')
             /\ transport w' = []
             /\ Firestore.leads w' = Firestore.leads w
             /\ trace w' = (trace w ++ getAll_calls params)%list.
Proof.
  intros Hq Hlim.
  destruct (getAll_quiet params w Hq Hlim) as (w' & E & Hq' & L & T).
  exists w'. split; [|auto].
  unfold Api.getAll. erewrite bind_ok by exact E. reflexivity.
Qed.

Lemma Api_getAll_ok (params : LeadsQueryParams) (w w' : World) r :
  Api.getAll params w = (Ok r, w') ->
  r = response_of params (Firestore.leads w)
  /\ trace w' = (trace w ++ getAll_calls params)%list.
Proof.
  unfold Api.getAll. intros H.
  apply bind_inv in H. destruct H as (a & w1 & H1 & H).
  inversion H; subst; clear H.
  apply getAll_ok in H1. destruct H1 as (_ & -> & _ & T).
  split; [reflexivity | exact T].
Qed.

(** The category snapshot: the 1000 most recent leads. *)
Definition snapshot_of (docs : list LeadDoc) : list Api.Lead :=
  Api.data (response_of (mkParams None None None None (Some 1000)) docs).

Lemma fetchCategories_quiet (s : State) (w : World) :
  transport w = [] ->
  exists w', fetchCategories s w =
             (Ok (setAllLeadsForCategories s (snapshot_of (Firestore.leads w))), w')
             /\ transport w' = []
             /\ Firestore.leads w' = Firestore.leads w.
Proof.
  intros Hq.
  destruct (Api_getAll_quiet (mkParams None None None None (Some 1000)) w Hq
              eq_refl) as (w' & E & Hq' & L & _).
  exists w'. split; [|auto].
  unfold fetchCategories, try_catch.
  erewrite bind_ok by exact E. reflexivity.
Qed.

Lemma snapshot_small (docs : list LeadDoc) :
  (List.length docs <= 1000)%nat ->
  snapshot_of docs = map shown (sort_desc created_key docs).
Proof.
  intros Hlen. unfold snapshot_of, response_of, getAll_page.
  cbn [Api.data Adapter.data q_limit q_status q_search default].
  unfold client_side, filtered, candidates, fetchLimit.
  cbn [StatusFilter_eqb search_step].
  rewrite JsFacts.slice_from_0 by lia.
  rewrite (firstn_all2 (n := Z.to_nat 1000) (sort_desc created_key docs))
    by (rewrite QueryFacts.length_sort_desc; lia).
  rewrite firstn_all2 by
    (rewrite length_map, QueryFacts.length_sort_desc; lia).
  rewrite map_map. reflexivity.
Qed.

(** The parameters the delegating branch sends. *)
Definition thin_params (s : State) : LeadsQueryParams :=
  mkParams (Some (statusFilter s)) None
           (if str_truthy (searchQuery s) then Some (searchQuery s) else None)
           (Some (currentPage s)) (Some (itemsPerPage s)).

Definition thin_result (s : State) (docs : list LeadDoc) : State :=
  let r := response_of (thin_params s) docs in
  setLoading
    (setResults (setLoading s true) (Api.data r) (Api.totalPages r)
                (Api.total r) (Api.stats r))
    false.

Lemma fetchLeads_thin_quiet (s : State) (w : World) :
  use_thick_path s = false ->
  transport w = [] -> 0 < itemsPerPage s ->
  exists w', fetchLeads s w = (Ok (thin_result s (Firestore.leads w)), w')
             /\ trace w' = (trace w ++ getAll_calls (thin_params s))%list.
Proof.
  intros Hthin Hq Hlim.
  destruct (Api_getAll_quiet (thin_params s) w Hq Hlim)
    as (w' & E & _ & _ & T).
  exists w'. split; [|exact T].
  unfold fetchLeads.
  change (use_thick_path (setLoading s true)) with (use_thick_path s).
  rewrite Hthin.
  erewrite bind_ok.
  2:{ unfold try_catch, thin_path.
      change (mkParams _ _ _ _ _) with (thin_params s).
      erewrite bind_ok by exact E. reflexivity. }
  reflexivity.
Qed.

Lemma fetchLeads_thick (s : State) (w : World) :
  use_thick_path s = true ->
  fetchLeads s w = (Ok (setLoading (thick_path (setLoading s true)) false), w).
Proof.
  intros Hthick. unfold fetchLeads.
  change (use_thick_path (setLoading s true)) with (use_thick_path s).
  rewrite Hthick. reflexivity.
Qed.

(** The in-memory branch respects the pagination bounds. *)
Lemma thick_path_pagination (s : State) :
  0 < itemsPerPage s -> 1 <= currentPage s ->
  let s' := thick_path s in
  totalPages s' =
    (if total s' =? 0 then Finite 1
     else Finite ((total s' + itemsPerPage s - 1) / itemsPerPage s))
  /\ Z.of_nat (List.length (leads s')) <= itemsPerPage s
  /\ (forall tp, totalPages s' = Finite tp -> tp < currentPage s ->
                 leads s' = []).
Proof.
  intros HL Hp. simpl.
  set (n := Z.of_nat (List.length (filteredLeads s))).
  assert (Hn : 0 <= n) by (unfold n; lia).
  assert (Htp : or_one (Math_ceil_div n (itemsPerPage s)) =
                if n =? 0 then Finite 1
                else Finite ((n + itemsPerPage s - 1) / itemsPerPage s)).
  { rewrite JsFacts.Math_ceil_div_pos by exact HL. simpl.
    destruct (n =? 0) eqn:E0.
    - apply Z.eqb_eq in E0. rewrite E0. simpl.
      rewrite Z.div_small by lia. reflexivity.
    - apply Z.eqb_neq in E0.
      assert (0 < (n + itemsPerPage s - 1) / itemsPerPage s).
      { apply Z.div_str_pos. lia. }
      destruct ((n + itemsPerPage s - 1) / itemsPerPage s =? 0) eqn:E1;
        [apply Z.eqb_eq in E1; lia | reflexivity]. }
  split; [exact Htp|]. split.
  - pose proof (JsFacts.length_slice_le
                  ((currentPage s - 1) * itemsPerPage s)
                  ((currentPage s - 1) * itemsPerPage s + itemsPerPage s)
                  (filteredLeads s) ltac:(nia) ltac:(nia)) as Hle.
    replace ((currentPage s - 1) * itemsPerPage s + itemsPerPage s
             - (currentPage s - 1) * itemsPerPage s)
      with (itemsPerPage s) in Hle by lia.
    lia.
  - intros tp Etp Hlt. rewrite Htp in Etp.
    apply JsFacts.slice_past_end. fold n.
    destruct (n =? 0) eqn:E0.
    + apply Z.eqb_eq in E0. inversion Etp; subst. nia.
    + inversion Etp; subst; clear Etp.
      pose proof (Z.div_mod (n + itemsPerPage s - 1) (itemsPerPage s)
                    ltac:(lia)) as H1.
      pose proof (Z.mod_pos_bound (n + itemsPerPage s - 1) (itemsPerPage s)
                    HL) as H2.
      nia.
Qed.

End DashboardFacts.

(* ================================================================== *)
(** * Aggregate stats *)
(* ================================================================== *)

Import DashboardFacts.

(** The stats the in-memory branch shows: counts over the filtered
    leads. *)
Definition subset_stats (l : list Api.Lead) : LeadsStats :=
  let n := Z.of_nat (List.length l) in
  let c := Z.of_nat (List.length (filter Dashboard.isContacted l)) in
  mkStats n (n - c) c.

(** C3, as stated, fails: with the category filter "retail" active on a
    collection of three leads of which one is in that category, the
    dashboard shows the counts 1 / 1 / 0 of the filtered subset, not the
    counts 3 / 1 / 2 of the collection. *)
Lemma dashboard_stats_follow_category_filter :
  exists s w',
    Dashboard.mount "" status_all "retail" 15 1 Samples.three_leads
    = (Ok s, w')
    /\ Dashboard.stats s = mkStats 1 1 0
    /\ collection_stats (Firestore.leads Samples.three_leads) = mkStats 3 1 2
    /\ Dashboard.stats s
       <> collection_stats (Firestore.leads Samples.three_leads).
Proof.
  eexists. eexists. split; [vm_compute; reflexivity|].
  split; [reflexivity|]. split; [reflexivity|].
  vm_compute. discriminate.
Qed.

(** C3, amended.  The stats of every [getAll] result come from two
    count queries over the whole collection (one without constraint, one
    with the contacted membership filter), with notContacted = all -
    contacted, whatever the filters of the call; the dashboard shows
    exactly these whole-collection stats when [fetchLeads] takes the
    delegating branch (category filter "all", or no snapshot yet),
    whichever status and search filters are active; when it takes the
    in-memory branch (a category filter is active) the stats it shows
    are the counts over the filtered leads. *)
Theorem stats_whole_collection_on_thin_path :
  forall (s : Dashboard.State) (w : World),
    (forall params r w',
        getAll params w = (Ok r, w') ->
        Adapter.stats r = collection_stats (Firestore.leads w)
        /\ all (Adapter.stats r) = Z.of_nat (List.length (Firestore.leads w))
        /\ contacted (Adapter.stats r) =
           Z.of_nat (List.length (filter stored_contacted (Firestore.leads w)))
        /\ notContacted (Adapter.stats r) =
           all (Adapter.stats r) - contacted (Adapter.stats r)
        /\ exists first_call,
             trace w' =
             (trace w ++
              [first_call;
               call_getCount leadsCollection [];
               call_getCount leadsCollection
                 [where_in "status" ["contacted"; "qualified"; "converted"]]])%list)
    /\ (Dashboard.use_thick_path s = false ->
        transport w = [] -> 0 < Dashboard.itemsPerPage s ->
        exists s' w',
          Dashboard.fetchLeads s w = (Ok s', w')
          /\ Dashboard.stats s' = collection_stats (Firestore.leads w))
    /\ (Dashboard.use_thick_path s = true ->
        exists s',
          Dashboard.fetchLeads s w = (Ok s', w)
          /\ Dashboard.stats s' = subset_stats (Dashboard.filteredLeads s)).
Proof.
  intros s w. split; [|split].
  - intros params r w' H. apply getAll_ok in H.
    destruct H as (_ & -> & _ & T).
    repeat split. eexists. exact T.
  - intros Hthin Hq Hlim.
    destruct (fetchLeads_thin_quiet s w Hthin Hq Hlim) as (w' & E & _).
    exists (thin_result s (Firestore.leads w)), w'.
    split; [exact E | reflexivity].
  - intros Hthick. eexists. split; [apply fetchLeads_thick, Hthick|].
    reflexivity.
Qed.

Lemma stats_whole_collection_on_thin_path_witness :
  (exists s' w',
      Dashboard.fetchLeads
        (Dashboard.initial "bolt" status_contacted "all" 15 1)
        Samples.three_leads = (Ok s', w')
      /\ Dashboard.stats s' = mkStats 3 1 2)
  /\ (exists s',
      Dashboard.fetchLeads
        (Dashboard.setAllLeadsForCategories
           (Dashboard.initial "" status_all "food" 15 1)
           (snapshot_of (Firestore.leads Samples.three_leads)))
        Samples.three_leads = (Ok s', Samples.three_leads)
      /\ Dashboard.stats s' = mkStats 1 0 1).
Proof.
  split.
  - pose proof (stats_whole_collection_on_thin_path
                  (Dashboard.initial "bolt" status_contacted "all" 15 1)
                  Samples.three_leads) as (_ & Hthin & _).
    destruct (Hthin eq_refl eq_refl eq_refl) as (s' & w' & E & St).
    exists s', w'. split; [exact E|]. rewrite St. reflexivity.
  - pose proof (stats_whole_collection_on_thin_path
                  (Dashboard.setAllLeadsForCategories
                     (Dashboard.initial "" status_all "food" 15 1)
                     (snapshot_of (Firestore.leads Samples.three_leads)))
                  Samples.three_leads) as (_ & _ & Hthick).
    destruct (Hthick eq_refl) as (s' & E & St).
    exists s'. split; [exact E|]. rewrite St. reflexivity.
Defined.

(* ================================================================== *)
(** * The two paths of the dashboard compared *)
(* ================================================================== *)

Module ThinThick.

Import Dashboard.

(** The status test of a filter, on a stored document. *)
Definition status_test (st : StatusFilter) (d : LeadDoc) : bool :=
  match st with
  | status_all => true
  | status_not_contacted => not_contacted_pred (docToLead d)
  | status_contacted => stored_contacted d
  end.

(** The search test, on a stored document. *)
Definition search_test (search : string) (d : LeadDoc) : bool :=
  if str_truthy search
  then search_pred (toLowerCase search) (docToLead d) else true.

(** The rows the delegating branch has after its store query and its
    client-side status filter, out of the ordered collection [S]. *)
Definition thin_rows (st : StatusFilter) (L : Z) (S : list LeadDoc)
  : list LeadDoc :=
  match st with
  | status_all => firstn (Z.to_nat L) S
  | status_not_contacted =>
      filter (status_test st) (firstn (Z.to_nat (L * 3)) S)
  | status_contacted => firstn (Z.to_nat L) (filter (status_test st) S)
  end.

Lemma filter_search_test (search : string) (l : list LeadDoc) :
  map docToLead (filter (search_test search) l) =
  search_step (if str_truthy search then Some search else None)
              (map docToLead l).
Proof.
  unfold search_test, search_step.
  destruct (str_truthy search) eqn:E.
  - rewrite E. rewrite JsFacts.filter_of_map. reflexivity.
  - rewrite filter_const_true. reflexivity.
Qed.

(** The leads of the delegating branch, on the first page or any other. *)
Lemma thin_leads (s : State) (docs : list LeadDoc) :
  0 < itemsPerPage s ->
  leads (thin_result s docs) =
  map shown
    (firstn (Z.to_nat (itemsPerPage s))
       (filter (search_test (searchQuery s))
          (thin_rows (statusFilter s) (itemsPerPage s)
             (sort_desc created_key docs)))).
Proof.
  intros HL. unfold thin_result, response_of, getAll_page, thin_params.
  cbn [leads setLoading setResults Api.data Adapter.data q_limit q_status
       q_search default].
  unfold client_side. rewrite JsFacts.slice_from_0 by lia.
  unfold shown. rewrite <- (map_map docToLead Api.toAPILead). f_equal.
  rewrite <- firstn_map. f_equal.
  rewrite filter_search_test. unfold filtered. f_equal.
  unfold candidates, thin_rows, fetchLimit.
  destruct (statusFilter s); cbn [StatusFilter_eqb status_test].
  - reflexivity.
  - rewrite JsFacts.filter_of_map. reflexivity.
  - rewrite QueryFacts.filter_sort_desc. reflexivity.
Qed.

(** The leads the in-memory branch keeps, when the category filter lets
    the whole snapshot through. *)
Lemma thick_filtered (s : State) (S : list LeadDoc) :
  allLeadsForCategories s = map shown S ->
  Forall (fun d => category_pred (categoryFilter s) (shown d) = true) S ->
  filteredLeads s =
  map shown (filter (search_test (searchQuery s))
               (filter (status_test (statusFilter s)) S)).
Proof.
  intros Hsnap Hcat. unfold filteredLeads. rewrite Hsnap.
  rewrite JsFacts.filter_of_map.
  rewrite (JsFacts.filter_all_true _ S) by exact Hcat.
  assert (Hst :
    match statusFilter s with
    | status_all => map shown S
    | status_not_contacted => filter thick_not_contacted_pred (map shown S)
    | status_contacted => filter thick_contacted_pred (map shown S)
    end = map shown (filter (status_test (statusFilter s)) S)).
  { destruct (statusFilter s); cbn [status_test].
    - rewrite filter_const_true. reflexivity.
    - rewrite JsFacts.filter_of_map. reflexivity.
    - rewrite JsFacts.filter_of_map. f_equal. apply filter_ext. intros d.
      symmetry. apply stored_contacted_docToLead. }
  rewrite Hst. unfold search_test.
  destruct (str_truthy (searchQuery s)).
  - rewrite JsFacts.filter_of_map. reflexivity.
  - rewrite filter_const_true. reflexivity.
Qed.

(** Whatever the filter, the rows of the delegating branch that pass
    the search are the first of the rows the in-memory branch keeps. *)
Lemma thin_rows_prefix (st : StatusFilter) (search : string) (L : Z)
    (S : list LeadDoc) :
  exists rest,
    filter (search_test search) (filter (status_test st) S) =
    (filter (search_test search) (thin_rows st L S) ++ rest)%list.
Proof.
  destruct st; cbn [thin_rows].
  - cbn [status_test]. rewrite filter_const_true.
    apply JsFacts.filter_firstn_prefix.
  - destruct (JsFacts.filter_firstn_prefix
                (status_test status_not_contacted) (Z.to_nat (L * 3)) S)
      as (rest & E).
    rewrite E, filter_app. eexists. reflexivity.
  - apply JsFacts.filter_firstn_prefix.
Qed.

(** Without a search, and for the filters "all" and "contacted", the
    delegating branch misses nothing of the first page. *)
Lemma thin_rows_exact (st : StatusFilter) (L : Z) (S : list LeadDoc) :
  st <> status_not_contacted ->
  firstn (Z.to_nat L) (filter (search_test "") (thin_rows st L S)) =
  firstn (Z.to_nat L)
    (filter (search_test "") (filter (status_test st) S)).
Proof.
  intros Hst. unfold search_test. cbn [str_truthy String.eqb negb].
  rewrite !filter_const_true.
  destruct st; cbn [thin_rows status_test]; try congruence.
  - rewrite filter_const_true, firstn_firstn, Nat.min_id. reflexivity.
  - rewrite firstn_firstn, Nat.min_id. reflexivity.
Qed.

End ThinThick.

(** Thirty contacted leads, all more recent than one lead that is still
    new; every lead is in the category "retail". *)
Definition sparse_not_contacted : World :=
  Samples.world_of
    (Samples.batch "Sold" (Some "retail") (JStr "contacted") 100 30
     ++ [Samples.lead_doc "N1" "Fresh Lead" (Some "retail") (JStr "new") 1])%list.

(** C2, as stated, fails: for the status-only filter "not_contacted"
    with 10 rows per page, the delegating branch shows no lead (the 30
    rows it fetches are all contacted) while the in-memory branch, run
    on the same collection with a category filter that every lead
    passes, shows the one lead that is not contacted. *)
Lemma thin_and_thick_differ_on_not_contacted :
  exists sT wT sN wN,
    Dashboard.mount "" status_not_contacted "retail" 10 1 sparse_not_contacted
    = (Ok sT, wT)
    /\ Dashboard.mount "" status_not_contacted "all" 10 1 sparse_not_contacted
       = (Ok sN, wN)
    /\ Forall (fun d => Dashboard.category_pred "retail" (shown d) = true)
              (Firestore.leads sparse_not_contacted)
    /\ map Api._id (Dashboard.leads sT) = ["N1"]
    /\ Dashboard.leads sN = []
    /\ Dashboard.leads sT <> Dashboard.leads sN.
Proof.
  do 4 eexists.
  split; [vm_compute; reflexivity|].
  split; [vm_compute; reflexivity|].
  split; [repeat constructor|].
  split; [reflexivity|]. split; [reflexivity|].
  vm_compute. discriminate.
Qed.

(** Eleven leads of the category "retail"; only the oldest is named
    "Zeta". *)
Definition search_beyond_first_page : World :=
  Samples.world_of
    (Samples.batch "Alpha" (Some "retail") JUndefined 100 10
     ++ [Samples.lead_doc "Z1" "Zeta" (Some "retail") JUndefined 1])%list.

(** The same happens with a search-only filter: the delegating branch
    searches the 10 rows it fetched, the in-memory branch the snapshot. *)
Lemma thin_and_thick_differ_on_search :
  exists sT wT sN wN,
    Dashboard.mount "zeta" status_all "retail" 10 1 search_beyond_first_page
    = (Ok sT, wT)
    /\ Dashboard.mount "zeta" status_all "all" 10 1 search_beyond_first_page
       = (Ok sN, wN)
    /\ map Api._id (Dashboard.leads sT) = ["Z1"]
    /\ Dashboard.leads sN = [].
Proof.
  do 4 eexists.
  split; [vm_compute; reflexivity|].
  split; [vm_compute; reflexivity|].
  split; reflexivity.
Qed.

(** C2, amended.  On the first page, for a collection within the
    1000-lead snapshot bound all of whose leads pass the category filter,
    and with a transport that lets the calls through: the leads shown by
    the delegating branch (category "all") are always the first of the
    leads shown by the in-memory branch (category filter active), for
    every status and search filter; and the two branches show the same
    leads for the status filters "all" and "contacted" without search.
    With "not_contacted" or with a search the delegating branch filters
    only the 3 x limit, respectively limit, most recent rows it fetched,
    so it can show fewer leads. *)
Theorem thin_path_is_prefix_of_thick_path :
  forall (search : string) (st : StatusFilter) (c : string) (perPage : Z)
         (w : World),
    transport w = [] ->
    0 < perPage ->
    (List.length (Firestore.leads w) <= 1000)%nat ->
    Forall (fun d => Dashboard.category_pred c (shown d) = true)
           (Firestore.leads w) ->
    exists sT wT sN wN,
      Dashboard.mount search st c perPage 1 w = (Ok sT, wT)
      /\ Dashboard.mount search st "all" perPage 1 w = (Ok sN, wN)
      /\ (exists rest,
            Dashboard.leads sT = (Dashboard.leads sN ++ rest)%list)
      /\ (st <> status_not_contacted -> search = "" ->
          Dashboard.leads sT = Dashboard.leads sN).
Proof.
  intros search st c perPage w Hq HL Hlen Hcat.
  set (docs := Firestore.leads w) in *.
  set (S := sort_desc created_key docs).
  set (sc := Dashboard.setAllLeadsForCategories
               (Dashboard.initial search st c perPage 1)
               (snapshot_of docs)).
  set (sa := Dashboard.setAllLeadsForCategories
               (Dashboard.initial search st "all" perPage 1)
               (snapshot_of docs)).
  destruct (fetchCategories_quiet (Dashboard.initial search st c perPage 1)
              w Hq) as (w1 & E1 & Hq1 & L1).
  destruct (fetchCategories_quiet (Dashboard.initial search st "all" perPage 1)
              w Hq) as (w2 & E2 & Hq2 & L2).
  fold docs in E1, E2. fold sc in E1. fold sa in E2.
  assert (Hthin_a : Dashboard.use_thick_path sa = false) by reflexivity.
  destruct (fetchLeads_thin_quiet sa w2 Hthin_a Hq2 HL) as (wN & EN & _).
  rewrite L2 in EN. fold docs in EN.
  assert (HN : Dashboard.leads (thin_result sa docs) =
               map shown
                 (firstn (Z.to_nat perPage)
                    (filter (ThinThick.search_test search)
                       (ThinThick.thin_rows st perPage S))))
    by (apply (ThinThick.thin_leads sa docs HL)).
  destruct (Dashboard.use_thick_path sc) eqn:Hpath.
  - (* the in-memory branch runs *)
    pose proof (fetchLeads_thick sc w1 Hpath) as ET.
    exists (Dashboard.setLoading
              (Dashboard.thick_path (Dashboard.setLoading sc true)) false),
           w1, (thin_result sa docs), wN.
    split; [unfold Dashboard.mount; erewrite bind_ok by exact E1; exact ET|].
    split; [unfold Dashboard.mount; erewrite bind_ok by exact E2; exact EN|].
    assert (HT : Dashboard.leads
                   (Dashboard.setLoading
                      (Dashboard.thick_path (Dashboard.setLoading sc true))
                      false) =
                 map shown
                   (firstn (Z.to_nat perPage)
                      (filter (ThinThick.search_test search)
                         (filter (ThinThick.status_test st) S)))).
    { cbn [Dashboard.leads Dashboard.setLoading Dashboard.thick_path
           Dashboard.setResults].
      rewrite (ThinThick.thick_filtered (Dashboard.setLoading sc true) S).
      - cbn [Dashboard.currentPage Dashboard.itemsPerPage
             Dashboard.setLoading Dashboard.searchQuery
             Dashboard.statusFilter sc
             Dashboard.setAllLeadsForCategories Dashboard.initial].
        replace ((1 - 1) * perPage) with 0 by lia.
        rewrite Z.add_0_l, JsFacts.slice_from_0 by lia.
        rewrite firstn_map. reflexivity.
      - apply snapshot_small, Hlen.
      - apply Forall_forall. intros d Hd.
        rewrite Forall_forall in Hcat. apply Hcat.
        unfold S in Hd.
        clear -Hd. induction docs as [|x l IH]; simpl in Hd; [contradiction|].
        apply QueryFacts.insert_desc_In in Hd. destruct Hd as [-> | Hd].
        + left. reflexivity.
        + right. apply IH, Hd. }
    rewrite HT, HN. split.
    + destruct (ThinThick.thin_rows_prefix st search perPage S)
        as (rest & Epre).
      rewrite Epre.
      destruct (JsFacts.firstn_prefix (Z.to_nat perPage)
                  (filter (ThinThick.search_test search)
                     (ThinThick.thin_rows st perPage S)) rest)
        as (rest' & Efirst).
      rewrite Efirst, map_app. eexists. reflexivity.
    + intros Hst ->. rewrite ThinThick.thin_rows_exact by exact Hst.
      reflexivity.
  - (* no snapshot, or the filter is "all": both runs delegate *)
    destruct (fetchLeads_thin_quiet sc w1 Hpath Hq1 HL) as (wT & ET & _).
    rewrite L1 in ET. fold docs in ET.
    exists (thin_result sc docs), wT, (thin_result sa docs), wN.
    split; [unfold Dashboard.mount; erewrite bind_ok by exact E1; exact ET|].
    split; [unfold Dashboard.mount; erewrite bind_ok by exact E2; exact EN|].
    split; [exists []; rewrite app_nil_r|]; reflexivity.
Qed.

Lemma thin_path_is_prefix_of_thick_path_witness :
  exists sT wT sN wN,
    Dashboard.mount "" status_contacted "retail" 10 1 sparse_not_contacted
    = (Ok sT, wT)
    /\ Dashboard.mount "" status_contacted "all" 10 1 sparse_not_contacted
       = (Ok sN, wN)
    /\ (exists rest,
          Dashboard.leads sT = (Dashboard.leads sN ++ rest)%list)
    /\ (status_contacted <> status_not_contacted -> "" = "" ->
        Dashboard.leads sT = Dashboard.leads sN).
Proof.
  apply (thin_path_is_prefix_of_thick_path "" status_contacted "retail"
           10 sparse_not_contacted).
  - reflexivity.
  - reflexivity.
  - vm_compute. lia.
  - repeat constructor.
Defined.

(* ================================================================== *)
(** * Absent documents and failing round-trips *)
(* ================================================================== *)

Module Faults.

(** The code the next round-trip fails with, if it fails. *)
Definition next_fault (w : World) : option FirestoreCode :=
  match transport w with
  | Some code :: _ => Some code
  | _ => None
  end.

(** The world once a round-trip has been issued. *)
Definition after_round_trip (c : Call) (w : World) : World :=
  set_transport (add_trace w c) (tl (transport w)).

Lemma round_trip_through (c : Call) (w : World) :
  next_fault w = None -> round_trip c w = (Ok tt, after_round_trip c w).
Proof.
  unfold next_fault, round_trip, after_round_trip. cbn [transport add_trace].
  destruct w as [l cs sp el ns t n tr tc co]. cbn.
  destruct tr as [|[code|] rest]; intros H; try discriminate; reflexivity.
Qed.

Lemma round_trip_fails (c : Call) (w : World) (code : FirestoreCode) :
  next_fault w = Some code ->
  round_trip c w = (Throw (FirebaseError code), after_round_trip c w).
Proof.
  unfold next_fault, round_trip, after_round_trip. cbn [transport add_trace].
  destruct w as [l cs sp el ns t n tr tc co]. cbn.
  destruct tr as [|[code'|] rest]; intros H; try discriminate.
  inversion H; subst. reflexivity.
Qed.

Lemma find_lead_absent_filter (i : string) (l : list LeadDoc) :
  find_lead i l = None ->
  filter (fun d => negb (doc_id d =? i)%string) l = l.
Proof.
  unfold find_lead. induction l as [|x l IH]; simpl; [reflexivity|].
  destruct (doc_id x =? i)%string; [discriminate|].
  intros H. simpl. rewrite IH by exact H. reflexivity.
Qed.

Lemma find_lead_update_in (i : string) (u : LeadUpdate) (l : list LeadDoc)
    (d : LeadDoc) :
  find_lead i l = Some d ->
  find_lead i (update_in i u l) =
  Some (mkLeadDoc (doc_id d) (apply_update u (doc_data d))).
Proof.
  unfold find_lead, update_in. induction l as [|x l IH]; simpl;
    [discriminate|].
  destruct (doc_id x =? i)%string eqn:E.
  - intros H. inversion H; subst. simpl. rewrite E. reflexivity.
  - intros H. rewrite E. apply IH, H.
Qed.

(** The field map [leadsService.update] sends. *)
Definition update_fields (patch : PartialLead) (w : World) : LeadUpdate :=
  mkLeadUpdate (p_business_name patch) (p_category patch) (p_status patch)
               (Some (now w)).

(** The world after an update of an existing lead went through. *)
Definition after_update (i : string) (patch : PartialLead) (w : World)
  : World :=
  let u := update_fields patch w in
  let w1 := after_round_trip (call_updateDoc leadsCollection i u) w in
  let w2 := set_leads w1 (update_in i u (Firestore.leads w1)) in
  after_round_trip (call_getDoc leadsCollection i) w2.

Lemma update_through (i : string) (patch : PartialLead) (w : World)
    (d : LeadDoc) :
  find_lead i (Firestore.leads w) = Some d ->
  update_well_formed (update_fields patch w) = true ->
  next_fault w = None ->
  next_fault (set_transport w (tl (transport w))) = None ->
  update i patch w =
  (Ok (docToLead (mkLeadDoc (doc_id d)
                    (apply_update (update_fields patch w) (doc_data d)))),
   after_update i patch w).
Proof.
  intros Hfind Hwf H1 H2. unfold update.
  erewrite bind_ok by reflexivity.
  fold (update_fields patch w).
  erewrite bind_ok.
  2:{ unfold updateDoc_lead. rewrite Hwf.
      erewrite bind_ok by (apply round_trip_through; exact H1).
      cbn [Firestore.leads after_round_trip set_transport add_trace].
      rewrite Hfind. reflexivity. }
  erewrite bind_ok.
  2:{ unfold getDoc_lead.
      erewrite bind_ok by (apply round_trip_through; exact H2).
      cbn [Firestore.leads after_round_trip set_transport add_trace
           set_leads].
      rewrite (find_lead_update_in _ _ _ _ Hfind). reflexivity. }
  reflexivity.
Qed.

End Faults.

Import Faults.

(** The names the store reserves: [__.*__]. *)
Definition reserved_doc_id (i : string) : bool :=
  (Nat.leb 4 (String.length i) && String.prefix "__" i
   && (String.substring (String.length i - 2)%nat 2 i =? "__")%string)%bool.

(** The ids that name a document of the collection.  [getById], [update]
    and [delete] each begin with [doc(leadsCollection, id)], which
    refuses the empty id with [invalid-argument] and reads a ['/'] as a
    path separator; the store itself accepts as the name of a document
    neither ["."] nor [".."], nor a reserved name, nor one of more than
    1500 bytes.  An id outside these names no lead. *)
Definition valid_doc_id (i : string) : bool :=
  (negb (i =? "")%string && negb (includes i "/")
   && negb (i =? ".")%string && negb (i =? "..")%string
   && negb (reserved_doc_id i) && Nat.leb (String.length i) 1500)%bool.

(** C9, as stated, fails for [delete]: deleting an id that is not in
    the store reports success. *)
Lemma delete_absent_reports_success :
  exists w',
    find_lead "missing" (Firestore.leads Samples.three_leads) = None
    /\ Adapter.delete "missing" Samples.three_leads = (Ok true, w')
    /\ Firestore.leads w' = Firestore.leads Samples.three_leads.
Proof.
  eexists. split; [reflexivity|]. split; reflexivity.
Qed.

(** C9, amended.  For an id that names a document ([valid_doc_id]) and
    is absent from the store, when the round-trip goes through: [getById] throws the
    adapter's own error "Lead not found"; [update] fails with the store's
    [not-found] error, raised by [updateDoc]; [delete] reports success and
    leaves the collection as it was.  When the round-trip fails in the
    transport, each of the three throws the transport's error, so
    [getById] and [update] surface an absent record differently from a
    transport failure such as [unavailable].  The one payload [update]
    treats otherwise is one with an undefined field value: [updateDoc]
    refuses it with [invalid-argument] before anything is sent, whether
    the id is stored or not. *)
Theorem absent_id_get_update_delete :
  forall (i : string) (patch : PartialLead) (w : World),
    valid_doc_id i = true ->
    find_lead i (Firestore.leads w) = None ->
    (next_fault w = None ->
       fst (getById i w) = Throw (Error "Lead not found")
       /\ fst (update i patch w)
          = Throw (FirebaseError
                     (if update_well_formed (update_fields patch w)
                      then not_found else invalid_argument))
       /\ fst (delete i w) = Ok true
       /\ Firestore.leads (snd (delete i w)) = Firestore.leads w)
    /\ (forall code,
          next_fault w = Some code ->
          fst (getById i w) = Throw (FirebaseError code)
          /\ fst (update i patch w)
             = Throw (FirebaseError
                        (if update_well_formed (update_fields patch w)
                         then code else invalid_argument))
          /\ fst (delete i w) = Throw (FirebaseError code))
    /\ Error "Lead not found" <> FirebaseError unavailable
    /\ FirebaseError not_found <> FirebaseError unavailable.
Proof.
  intros i patch w _ Habs.
  split; [|split; [|split; discriminate]].
  - intros Hgo. repeat split.
    + unfold getById, getDoc_lead.
      erewrite bind_ok.
      2:{ erewrite bind_ok by (apply round_trip_through; exact Hgo).
          cbn [Firestore.leads after_round_trip set_transport add_trace].
          rewrite Habs. reflexivity. }
      reflexivity.
    + unfold update. erewrite bind_ok by reflexivity.
      fold (update_fields patch w).
      destruct (update_well_formed (update_fields patch w)) eqn:Hwf;
        (erewrite bind_throw; [reflexivity|]);
        unfold updateDoc_lead; rewrite Hwf; [|reflexivity].
      erewrite bind_ok by (apply round_trip_through; exact Hgo).
      cbn [Firestore.leads after_round_trip set_transport add_trace].
      rewrite Habs. reflexivity.
    + unfold delete, deleteDoc_lead.
      erewrite bind_ok.
      2:{ erewrite bind_ok by (apply round_trip_through; exact Hgo).
          reflexivity. }
      reflexivity.
    + unfold delete, deleteDoc_lead.
      erewrite bind_ok.
      2:{ erewrite bind_ok by (apply round_trip_through; exact Hgo).
          reflexivity. }
      cbn [snd ret Firestore.leads set_leads after_round_trip
           set_transport add_trace].
      apply find_lead_absent_filter, Habs.
  - intros code Hfail. repeat split.
    + unfold getById, getDoc_lead.
      erewrite bind_throw; [reflexivity|].
      erewrite bind_throw; [reflexivity|].
      apply round_trip_fails, Hfail.
    + unfold update. erewrite bind_ok by reflexivity.
      fold (update_fields patch w).
      destruct (update_well_formed (update_fields patch w)) eqn:Hwf;
        (erewrite bind_throw; [reflexivity|]);
        unfold updateDoc_lead; rewrite Hwf; [|reflexivity].
      erewrite bind_throw; [reflexivity|].
      apply round_trip_fails, Hfail.
    + unfold delete, deleteDoc_lead.
      erewrite bind_throw; [reflexivity|].
      erewrite bind_throw; [reflexivity|].
      apply round_trip_fails, Hfail.
Qed.

Definition mark_contacted : PartialLead :=
  mkPartial None None None (Some (JStr "contacted")).

Lemma absent_id_get_update_delete_witness :
  valid_doc_id "missing" = true
  /\ find_lead "missing" (Firestore.leads Samples.three_leads) = None
  /\ fst (getById "missing" Samples.three_leads) = Throw (Error "Lead not found")
  /\ fst (update "missing" mark_contacted Samples.three_leads)
     = Throw (FirebaseError not_found)
  /\ fst (delete "missing" Samples.three_leads) = Ok true
  /\ Firestore.leads (snd (delete "missing" Samples.three_leads))
     = Firestore.leads Samples.three_leads.
Proof.
  split; [reflexivity|]. split; [reflexivity|].
  apply (absent_id_get_update_delete "missing" mark_contacted
           Samples.three_leads).
  - reflexivity.
  - reflexivity.
  - reflexivity.
Defined.

(* ================================================================== *)
(** * The mark-contacted flow of the modal *)
(* ================================================================== *)

Module ModalFacts.

Import Modal.

(** The modal once [setLoading(true); setError(null)] have run. *)
Definition submitting (s : State) : State := setError (setLoading s true) None.

(** The state the modal ends in when the status update went through. *)
Definition submitted (s : State) (updated : Api.Lead) : State :=
  setLoading (onClose (onSuccess (submitting s) updated)) false.

(** What [handleSubmit] sends to [leadsAPI.update]. *)
Definition status_patch (s : State) : PartialLead :=
  Api.toFirestoreLead (Api.mkPartial None None None (Some (JStr (newStatus s)))).

(** The lead [updateDoc] leaves in the store. *)
Definition updated_doc (s : State) (w : World) (d : LeadDoc) : LeadDoc :=
  mkLeadDoc (doc_id d)
            (apply_update (update_fields (status_patch s) w) (doc_data d)).

(** The note write never makes [handleSubmit] fail. *)
Lemma save_notes_never_throws (s : State) (w : World) :
  fst (save_notes s w) = Ok tt.
Proof.
  unfold save_notes. destruct (user s) as [u|]; [|reflexivity].
  destruct (requiresNotes s && str_truthy (trim (notes s)))%bool;
    [|reflexivity].
  unfold try_catch.
  destruct (bind _ _ w) as [[[]|e] w1]; reflexivity.
Qed.

Lemma rejected (s : State) (w : World) :
  requiresNotes s = true ->
  str_length (trim (notes s)) < 10 ->
  handleSubmit s w = (Ok (setError s (Some too_short_message)), w).
Proof.
  intros Hreq Hlen. unfold handleSubmit. rewrite Hreq.
  replace (str_length (trim (notes s)) <? 10) with true
    by (symmetry; apply Z.ltb_lt; exact Hlen).
  reflexivity.
Qed.

(** Past the length check, with the lead in the store and the two
    round-trips of the update going through, [handleSubmit] ends in
    success whatever happens to the note write. *)
Lemma accepted (s : State) (w : World) (d : LeadDoc) :
  requiresNotes s = true ->
  10 <= str_length (trim (notes s)) ->
  find_lead (Api._id (lead s)) (Firestore.leads w) = Some d ->
  next_fault w = None ->
  next_fault (set_transport w (tl (transport w))) = None ->
  handleSubmit s w =
  (Ok (submitted s (Api.toAPILead (docToLead (updated_doc s w d)))),
   snd (save_notes (submitting s)
          (after_update (Api._id (lead s)) (status_patch s) w))).
Proof.
  intros Hreq Hlen Hfind H1 H2. unfold handleSubmit. rewrite Hreq.
  replace (str_length (trim (notes s)) <? 10) with false
    by (symmetry; apply Z.ltb_ge; exact Hlen).
  cbn [andb]. fold (submitting s).
  erewrite bind_ok; [reflexivity|].
  unfold try_catch.
  erewrite bind_ok.
  2:{ unfold Api.update.
      erewrite bind_ok; [reflexivity|].
      apply (update_through _ (status_patch s) w d Hfind);
        [reflexivity | exact H1 | exact H2]. }
  cbn [Api.upd_success negb].
  pose proof (save_notes_never_throws (submitting s)
                (after_update (Api._id (lead s)) (status_patch s) w)) as Hs.
  unfold bind at 1.
  destruct (save_notes (submitting s)
              (after_update (Api._id (lead s)) (status_patch s) w))
    as [[[]|e] w3]; [reflexivity | discriminate].
Qed.

(** The parameters of the note write. *)
Definition note_fields (s : State) (u : User) (t : Z) : NoteFields :=
  mkNoteFields (Api._id (lead s)) (trim (notes s)) (firstName u)
               (Some (contactMethod s)) (Some (contactDate s)) t.

Lemma save_notes_through (s : State) (u : User) (w : World) :
  requiresNotes s = true ->
  10 <= str_length (trim (notes s)) ->
  user s = Some u ->
  next_fault w = None ->
  exists n w',
    save_notes s w = (Ok tt, w')
    /\ Firestore.notes w' = (Firestore.notes w ++ [n])%list
    /\ n_lead_id (note_data n) = Api._id (lead s)
    /\ n_content (note_data n) = trim (notes s)
    /\ n_created_by (note_data n) = firstName u
    /\ Firestore.leads w' = Firestore.leads w
    /\ console w' = console w
    /\ trace w' =
       (trace w ++ [call_addDoc notesCollection (trim (notes s))])%list.
Proof.
  intros Hreq Hlen Hu Hgo. unfold save_notes. rewrite Hu, Hreq.
  assert (Htruthy : str_truthy (trim (notes s)) = true).
  { unfold str_truthy. destruct (trim (notes s)); [|reflexivity].
    unfold str_length in Hlen. simpl in Hlen. lia. }
  rewrite Htruthy. cbn [andb].
  eexists. eexists. split.
  - unfold try_catch, Api.create, create.
    erewrite bind_ok; [reflexivity|].
    erewrite bind_ok; [reflexivity|].
    erewrite bind_ok by reflexivity.
    erewrite bind_ok; [reflexivity|].
    unfold addDoc_note. cbn [nf_contact_method nf_contact_date].
    erewrite bind_ok by (apply round_trip_through; exact Hgo).
    reflexivity.
  - cbn. repeat split.
Qed.

Lemma save_notes_fails (s : State) (u : User) (w : World)
    (code : FirestoreCode) :
  requiresNotes s = true ->
  10 <= str_length (trim (notes s)) ->
  user s = Some u ->
  next_fault w = Some code ->
  exists w',
    save_notes s w = (Ok tt, w')
    /\ Firestore.notes w' = Firestore.notes w
    /\ Firestore.leads w' = Firestore.leads w
    /\ console w' = (console w ++ [(log_warn, "Could not save notes:")])%list
    /\ trace w' =
       (trace w ++ [call_addDoc notesCollection (trim (notes s))])%list.
Proof.
  intros Hreq Hlen Hu Hfail. unfold save_notes. rewrite Hu, Hreq.
  assert (Htruthy : str_truthy (trim (notes s)) = true).
  { unfold str_truthy. destruct (trim (notes s)); [|reflexivity].
    unfold str_length in Hlen. simpl in Hlen. lia. }
  rewrite Htruthy. cbn [andb].
  eexists. split.
  - unfold try_catch, Api.create, create.
    erewrite bind_throw; [reflexivity|].
    erewrite bind_throw; [reflexivity|].
    erewrite bind_ok by reflexivity.
    erewrite bind_throw; [reflexivity|].
    unfold addDoc_note. cbn [nf_contact_method nf_contact_date].
    erewrite bind_throw; [reflexivity|].
    apply round_trip_fails. exact Hfail.
  - cbn. repeat split.
Qed.

End ModalFacts.

Import ModalFacts.

(** A lead that has not been contacted, a signed-in user, and notes of
    9, respectively 10, characters. *)
Definition walter : Modal.User := Modal.mkUser "Walter".

Definition modal_with (text : string) : Modal.State :=
  Modal.opened (shown Samples.acme) (Some walter) "2024-05-01T10:00" text.

Definition nine_chars : string := "Called Bo".
Definition ten_chars : string := "Called Bob".

(** C7.  In the mark-contacted flow (the lead is not contacted yet, so
    notes are required), [handleSubmit] with a note text whose trimmed
    content is shorter than 10 characters (9, say) only sets the
    validation error: the world, and with it the trace of round-trips, is
    unchanged.  With a content of 10 characters or more the submit goes
    on: the status update and then the note write are sent, and the note
    is stored with that content.  The check sits in the modal:
    [notesService.create] stores a content of any length. *)
Theorem note_length_checked_by_modal :
  forall (s : Modal.State) (w : World),
    Modal.requiresNotes s = true ->
    (str_length (trim (Modal.notes s)) < 10 ->
       Modal.handleSubmit s w =
       (Ok (Modal.setError s (Some Modal.too_short_message)), w))
    /\ (10 <= str_length (trim (Modal.notes s)) ->
        forall u d,
          Modal.user s = Some u ->
          find_lead (Api._id (Modal.lead s)) (Firestore.leads w) = Some d ->
          transport w = [] ->
          exists s' w' n,
            Modal.handleSubmit s w = (Ok s', w')
            /\ Modal.error s' = None
            /\ Modal.onClose_called s' = true
            /\ trace w' =
               (trace w ++
                [call_updateDoc leadsCollection (Api._id (Modal.lead s))
                   (mkLeadUpdate None None (Some (JStr "contacted"))
                                 (Some (now w)));
                 call_getDoc leadsCollection (Api._id (Modal.lead s));
                 call_addDoc notesCollection (trim (Modal.notes s))])%list
            /\ Firestore.notes w' = (Firestore.notes w ++ [n])%list
            /\ n_lead_id (note_data n) = Api._id (Modal.lead s)
            /\ n_content (note_data n) = trim (Modal.notes s))
    /\ (forall leadId content createdBy method date,
          transport w = [] ->
          exists note w' n,
            create leadId content createdBy (Some method) (Some date) w
            = (Ok note, w')
            /\ Firestore.notes w' = (Firestore.notes w ++ [n])%list
            /\ n_content (note_data n) = content).
Proof.
  intros s w Hreq. split; [|split].
  - intros Hlen. apply rejected; assumption.
  - intros Hlen u d Hu Hfind Hq.
    assert (H1 : next_fault w = None) by (unfold next_fault; rewrite Hq; reflexivity).
    assert (H2 : next_fault (set_transport w (tl (transport w))) = None)
      by (unfold next_fault; cbn [transport set_transport]; rewrite Hq;
          reflexivity).
    pose proof (accepted s w d Hreq Hlen Hfind H1 H2) as E.
    assert (H3 : next_fault (after_update (Api._id (Modal.lead s))
                               (status_patch s) w) = None)
      by (unfold next_fault; cbn; rewrite Hq; reflexivity).
    destruct (save_notes_through (submitting s) u _ Hreq Hlen Hu H3)
      as (n & w' & Es & Hn & Hl & Hc & _ & _ & _ & Ht).
    rewrite Es in E. cbn [snd] in E.
    exists (submitted s (Api.toAPILead (docToLead (updated_doc s w d)))),
           w', n.
    split; [exact E|]. split; [reflexivity|]. split; [reflexivity|].
    split; [|auto].
    rewrite Ht. cbn [trace after_update after_round_trip set_transport
                     add_trace set_leads].
    rewrite <- !app_assoc. cbn [app].
    unfold update_fields, status_patch, Api.toFirestoreLead, Modal.newStatus.
    unfold Modal.requiresNotes in Hreq.
    destruct (Modal.isContacted s); [discriminate|]. reflexivity.
  - intros leadId content createdBy method date Hq.
    unfold create.
    do 3 eexists. split.
    + erewrite bind_ok by reflexivity.
      erewrite bind_ok; [reflexivity|].
      unfold addDoc_note. cbn [nf_contact_method nf_contact_date].
      erewrite bind_ok
        by (apply round_trip_through; unfold next_fault; rewrite Hq;
            reflexivity).
      reflexivity.
    + cbn. split; reflexivity.
Qed.

Lemma note_length_checked_by_modal_witness :
  Modal.handleSubmit (modal_with nine_chars) Samples.three_leads =
    (Ok (Modal.setError (modal_with nine_chars)
           (Some Modal.too_short_message)),
     Samples.three_leads)
  /\ (exists s' w' n,
        Modal.handleSubmit (modal_with ten_chars) Samples.three_leads
        = (Ok s', w')
        /\ Modal.error s' = None
        /\ Modal.onClose_called s' = true
        /\ trace w' =
           [call_updateDoc leadsCollection "L1"
              (mkLeadUpdate None None (Some (JStr "contacted"))
                            (Some 1700000000000));
            call_getDoc leadsCollection "L1";
            call_addDoc notesCollection "Called Bob"]
        /\ Firestore.notes w' = [n]
        /\ n_lead_id (note_data n) = "L1"
        /\ n_content (note_data n) = "Called Bob").
Proof.
  split.
  - apply (note_length_checked_by_modal (modal_with nine_chars)
             Samples.three_leads eq_refl).
    reflexivity.
  - destruct (note_length_checked_by_modal (modal_with ten_chars)
                Samples.three_leads eq_refl) as (_ & Hacc & _).
    apply (Hacc ltac:(discriminate) walter Samples.acme
             eq_refl eq_refl eq_refl).
Defined.

(** Surrounding white space does not count: ten characters of which
    two are blanks are rejected like eight. *)
Lemma padded_notes_rejected :
  str_length "  Called B" = 10
  /\ Modal.handleSubmit (modal_with "  Called B") Samples.three_leads =
     (Ok (Modal.setError (modal_with "  Called B")
            (Some Modal.too_short_message)),
      Samples.three_leads).
Proof. split; reflexivity. Qed.

(** C8.  In the mark-contacted flow, when the two round-trips of the
    status update go through and the note write then fails, the lead is
    stored with status "contacted", [handleSubmit] ends without error
    ([onSuccess] got the updated lead, the modal is closed, no error
    message is set), no note is stored, and the only sign of the failure
    is one warning on the console. *)
Theorem status_update_survives_note_failure :
  forall (s : Modal.State) (w : World) (u : Modal.User) (d : LeadDoc)
         (code : FirestoreCode) (rest : list (option FirestoreCode)),
    Modal.requiresNotes s = true ->
    10 <= str_length (trim (Modal.notes s)) ->
    Modal.user s = Some u ->
    find_lead (Api._id (Modal.lead s)) (Firestore.leads w) = Some d ->
    transport w = None :: None :: Some code :: rest ->
    exists s' w' d',
      Modal.handleSubmit s w = (Ok s', w')
      /\ Modal.error s' = None
      /\ Modal.loading s' = false
      /\ Modal.onClose_called s' = true
      /\ Modal.onSuccess_called s' = Some (shown d')
      /\ find_lead (Api._id (Modal.lead s)) (Firestore.leads w') = Some d'
      /\ d_status (doc_data d') = JStr "contacted"
      /\ status (Api.fields (shown d')) = JStr "contacted"
      /\ Firestore.notes w' = Firestore.notes w
      /\ console w' = (console w ++ [(log_warn, "Could not save notes:")])%list.
Proof.
  intros s w u d code rest Hreq Hlen Hu Hfind Ht.
  assert (H1 : next_fault w = None)
    by (unfold next_fault; rewrite Ht; reflexivity).
  assert (H2 : next_fault (set_transport w (tl (transport w))) = None)
    by (unfold next_fault; cbn [transport set_transport]; rewrite Ht;
        reflexivity).
  pose proof (accepted s w d Hreq Hlen Hfind H1 H2) as E.
  assert (H3 : next_fault (after_update (Api._id (Modal.lead s))
                             (status_patch s) w) = Some code)
    by (unfold next_fault; cbn; rewrite Ht; reflexivity).
  destruct (save_notes_fails (submitting s) u _ code Hreq Hlen Hu H3)
    as (w' & Es & Hn & Hl & Hc & _).
  rewrite Es in E. cbn [snd] in E.
  assert (Hnew : Modal.newStatus s = "contacted").
  { unfold Modal.newStatus. unfold Modal.requiresNotes in Hreq.
    destruct (Modal.isContacted s); [discriminate | reflexivity]. }
  exists (submitted s (Api.toAPILead (docToLead (updated_doc s w d)))),
         w', (updated_doc s w d).
  split; [exact E|].
  repeat split.
  - rewrite Hl. cbn [Firestore.leads after_update after_round_trip
                     set_transport add_trace set_leads].
    apply (find_lead_update_in _ _ _ _ Hfind).
  - unfold updated_doc, status_patch, update_fields, apply_update.
    cbn. rewrite Hnew. reflexivity.
  - unfold shown, updated_doc, status_patch, update_fields, apply_update.
    cbn. rewrite Hnew. reflexivity.
  - exact Hn.
  - exact Hc.
Qed.

Definition note_write_fails : World :=
  set_transport Samples.three_leads [None; None; Some unavailable].

Lemma status_update_survives_note_failure_witness :
  exists s' w' d',
    Modal.handleSubmit (modal_with ten_chars) note_write_fails = (Ok s', w')
    /\ Modal.error s' = None
    /\ Modal.loading s' = false
    /\ Modal.onClose_called s' = true
    /\ Modal.onSuccess_called s' = Some (shown d')
    /\ find_lead "L1" (Firestore.leads w') = Some d'
    /\ d_status (doc_data d') = JStr "contacted"
    /\ status (Api.fields (shown d')) = JStr "contacted"
    /\ Firestore.notes w' = []
    /\ console w' = [(log_warn, "Could not save notes:")].
Proof.
  apply (status_update_survives_note_failure (modal_with ten_chars)
           note_write_fails walter Samples.acme unavailable []).
  - reflexivity.
  - discriminate.
  - reflexivity.
  - reflexivity.
  - reflexivity.
Defined.

(* ================================================================== *)
(** * Further facts about lists, sorting and slices *)
(* ================================================================== *)

Module MoreFacts.

Lemma In_sort_desc {D : Type} (key : D -> Z) (x : D) (l : list D) :
  In x (sort_desc key l) <-> In x l.
Proof.
  induction l as [|y l IH]; simpl; [reflexivity|].
  rewrite QueryFacts.insert_desc_In, IH. intuition.
Qed.

Lemma In_firstn {A : Type} (n : nat) (x : A) (l : list A) :
  In x (firstn n l) -> In x l.
Proof.
  revert n. induction l as [|y l IH]; intros [|n]; simpl; try tauto.
  intros [H | H]; [left; exact H | right; apply (IH n), H].
Qed.

Lemma In_skipn {A : Type} (n : nat) (x : A) (l : list A) :
  In x (skipn n l) -> In x l.
Proof.
  revert n. induction l as [|y l IH]; intros [|n]; simpl; try tauto.
  intros H. right. apply (IH n), H.
Qed.

Lemma In_slice {A : Type} (a b : Z) (x : A) (l : list A) :
  In x (slice a b l) -> In x l.
Proof.
  unfold slice. intros H. apply In_firstn, In_skipn in H. exact H.
Qed.

Section Sorted.

Context {A : Type}.
Variable R : A -> A -> Prop.

Lemma sorted_firstn (n : nat) (l : list A) :
  StronglySorted R l -> StronglySorted R (firstn n l).
Proof.
  intros H. revert n.
  induction H as [|x l Hl IH Hx]; intros [|n]; simpl; constructor; auto.
  apply JsFacts.Forall_firstn_, Hx.
Qed.

Lemma sorted_skipn (n : nat) (l : list A) :
  StronglySorted R l -> StronglySorted R (skipn n l).
Proof.
  intros H. revert n.
  induction H as [|x l Hl IH Hx]; intros [|n]; simpl.
  - constructor.
  - constructor.
  - constructor; assumption.
  - apply IH.
Qed.

Lemma sorted_slice (a b : Z) (l : list A) :
  StronglySorted R l -> StronglySorted R (slice a b l).
Proof.
  intros H. unfold slice. apply sorted_firstn, sorted_skipn, H.
Qed.

Lemma sorted_filter_gen (f : A -> bool) (l : list A) :
  StronglySorted R l -> StronglySorted R (filter f l).
Proof.
  induction 1 as [|y l Hl IH Hy]; simpl; [constructor|].
  destruct (f y); [|exact IH].
  constructor; [exact IH|]. apply JsFacts.Forall_filter_, Hy.
Qed.

End Sorted.

Lemma sorted_map {A B : Type} (R : B -> B -> Prop) (g : A -> B)
    (l : list A) :
  StronglySorted (fun a b => R (g a) (g b)) l ->
  StronglySorted R (map g l).
Proof.
  induction 1 as [|y l Hl IH Hy]; simpl; constructor; [exact IH|].
  apply Forall_forall. intros z Hz. apply in_map_iff in Hz.
  destruct Hz as (a & <- & Ha). rewrite Forall_forall in Hy. auto.
Qed.

Lemma search_step_sorted (R : Lead -> Lead -> Prop) (search : option string)
    (l : list Lead) :
  StronglySorted R l -> StronglySorted R (search_step search l).
Proof.
  intros H. unfold search_step. destruct search as [s|]; [|exact H].
  destruct (str_truthy s); [apply sorted_filter_gen|]; exact H.
Qed.

Lemma search_step_In (search : option string) (x : Lead) (l : list Lead) :
  In x (search_step search l) -> In x l.
Proof.
  unfold search_step. destruct search as [s|]; [|tauto].
  destruct (str_truthy s); [|tauto].
  intros H. apply filter_In in H. tauto.
Qed.

(** A window of [L] rows starting at row [a]. *)
Lemma slice_window {A : Type} (a L : Z) (l : list A) :
  0 <= a -> 0 <= L ->
  slice a (a + L) l = firstn (Z.to_nat L) (skipn (Z.to_nat a) l).
Proof.
  intros Ha HL. unfold slice, rel_index. cbv zeta.
  replace (a <? 0) with false by (symmetry; apply Z.ltb_ge; lia).
  replace (a + L <? 0) with false by (symmetry; apply Z.ltb_ge; lia).
  destruct (Z.le_gt_cases a (Z.of_nat (List.length l))) as [Hle | Hgt].
  - rewrite (Z.min_l a) by lia.
    destruct (Z.le_gt_cases (a + L) (Z.of_nat (List.length l))) as [H2 | H2].
    + rewrite Z.min_l by lia. f_equal. lia.
    + rewrite Z.min_r by lia.
      rewrite (firstn_all2 (n := Z.to_nat L)) by (rewrite length_skipn; lia).
      apply firstn_all2. rewrite length_skipn. lia.
  - rewrite (Z.min_r a) by lia. rewrite Z.min_r by lia.
    rewrite Nat2Z.id, skipn_all.
    rewrite (skipn_all2 (n := Z.to_nat a)) by lia.
    rewrite !firstn_nil. reflexivity.
Qed.

End MoreFacts.

(* ================================================================== *)
(** * What [getAll] returns *)
(* ================================================================== *)

(** More recent leads come first. *)
Definition newer_first (a b : Lead) : Prop := created_at b <= created_at a.

Lemma candidates_sorted (st : StatusFilter) (lim : Z) (docs : list LeadDoc) :
  StronglySorted (QueryFacts.desc created_key) (candidates st lim docs).
Proof.
  unfold candidates. apply MoreFacts.sorted_firstn, QueryFacts.sort_desc_sorted.
Qed.

Lemma candidates_In (st : StatusFilter) (lim : Z) (docs : list LeadDoc)
    (d : LeadDoc) :
  In d (candidates st lim docs) ->
  In d docs /\ (st = status_contacted -> stored_contacted d = true).
Proof.
  unfold candidates. intros H. apply MoreFacts.In_firstn in H.
  apply MoreFacts.In_sort_desc in H.
  destruct st; cbn [StatusFilter_eqb] in H.
  - split; [exact H | discriminate].
  - split; [exact H | discriminate].
  - apply filter_In in H. destruct H as [H1 H2]. auto.
Qed.

(** Every record [getAll] returns is the normalised form of a stored
    document that passes the requested status filter and the search; the
    records come most recent first. *)
Theorem getAll_records_pass_filters :
  forall (params : LeadsQueryParams) (w w' : World) (r : LeadsPage),
    getAll params w = (Ok r, w') ->
    StronglySorted newer_first (data r)
    /\ Forall (fun l => exists d, In d (Firestore.leads w) /\ l = docToLead d)
              (data r)
    /\ (q_status params = Some status_contacted ->
        Forall (fun l => in_contacted_group (status l)) (data r))
    /\ (q_status params = Some status_not_contacted ->
        Forall (fun l => status l = JStr "new") (data r))
    /\ (forall s, q_search params = Some s -> s <> "" ->
        Forall (fun l => includes (toLowerCase (business_name l))
                                  (toLowerCase s) = true) (data r)).
Proof.
  intros params w w' r H. apply getAll_ok in H.
  destruct H as (_ & -> & _). cbn [data getAll_page].
  set (st := default (q_status params) status_all).
  set (lim := default (q_limit params) 15).
  set (docs := Firestore.leads w).
  assert (Hin : forall l, In l (client_side st (q_search params) lim
                                  (candidates st lim docs)) ->
                exists d, In d (candidates st lim docs) /\ l = docToLead d
                          /\ In l (filtered st (q_search params)
                                     (candidates st lim docs))).
  { intros l Hl. unfold client_side in Hl. apply MoreFacts.In_slice in Hl.
    pose proof Hl as Hl'. unfold filtered in Hl.
    apply MoreFacts.search_step_In in Hl.
    assert (Hm : In l (map docToLead (candidates st lim docs))).
    { destruct (StatusFilter_eqb st status_not_contacted);
        [apply filter_In in Hl; tauto | exact Hl]. }
    apply in_map_iff in Hm. destruct Hm as (d & <- & Hd). eauto. }
  split; [|split; [|split; [|split]]].
  - unfold client_side, filtered.
    apply MoreFacts.sorted_slice, MoreFacts.search_step_sorted.
    assert (S : StronglySorted newer_first
                  (map docToLead (candidates st lim docs))).
    { apply MoreFacts.sorted_map.
      exact (candidates_sorted st lim docs). }
    destruct (StatusFilter_eqb st status_not_contacted);
      [apply MoreFacts.sorted_filter_gen|]; exact S.
  - apply Forall_forall. intros l Hl.
    destruct (Hin l Hl) as (d & Hd & -> & _).
    apply candidates_In in Hd. exists d. tauto.
  - intros Hst. apply Forall_forall. intros l Hl.
    destruct (Hin l Hl) as (d & Hd & -> & _).
    apply candidates_In in Hd. destruct Hd as [_ Hc].
    unfold st in Hc. rewrite Hst in Hc. specialize (Hc eq_refl).
    rewrite stored_contacted_docToLead in Hc.
    apply contacted_group_bool in Hc. exact Hc.
  - intros Hst. apply Forall_forall. intros l Hl.
    destruct (Hin l Hl) as (d & Hd & -> & Hf).
    unfold filtered, st in Hf. rewrite Hst in Hf.
    cbn [default StatusFilter_eqb] in Hf.
    apply MoreFacts.search_step_In in Hf. apply filter_In in Hf.
    destruct Hf as [_ Hp]. unfold not_contacted_pred in Hp.
    pose proof (or_else_truthy (d_status (doc_data d))) as T.
    change (or_else (d_status (doc_data d)) (JStr "new"))
      with (status (docToLead d)) in T.
    rewrite T in Hp. cbn [negb] in Hp. rewrite Bool.orb_false_r in Hp.
    unfold is_str in Hp.
    destruct (status (docToLead d)); simpl in Hp; try discriminate.
    apply String.eqb_eq in Hp. subst. reflexivity.
  - intros s Hs Hne. apply Forall_forall. intros l Hl.
    destruct (Hin l Hl) as (d & Hd & -> & Hf).
    unfold filtered in Hf. rewrite Hs in Hf. unfold search_step in Hf.
    assert (Ht : str_truthy s = true).
    { unfold str_truthy. apply Bool.negb_true_iff, String.eqb_neq, Hne. }
    rewrite Ht in Hf. apply filter_In in Hf. destruct Hf as [_ Hp].
    exact Hp.
Qed.

Lemma getAll_records_pass_filters_witness :
  exists r w',
    getAll (mkParams (Some status_contacted) None (Some "LUNA") None None)
           Samples.three_leads = (Ok r, w')
    /\ data r = [docToLead Samples.cafe]
    /\ Forall (fun l => in_contacted_group (status l)) (data r).
Proof.
  destruct (getAll_quiet
              (mkParams (Some status_contacted) None (Some "LUNA") None None)
              Samples.three_leads eq_refl eq_refl) as (w' & E & _).
  eexists. exists w'. split; [exact E|]. split; [reflexivity|].
  apply (getAll_records_pass_filters _ _ _ _ E). reflexivity.
Defined.

(* ================================================================== *)
(** * The counts of [getStats] *)
(* ================================================================== *)

Lemma filter_length_le_ {A : Type} (f : A -> bool) (l : list A) :
  (List.length (filter f l) <= List.length l)%nat.
Proof.
  induction l as [|x l IH]; simpl; [lia|]. destruct (f x); simpl; lia.
Qed.

Lemma filter_length_split {A : Type} (f : A -> bool) (l : list A) :
  (List.length (filter f l) + List.length (filter (fun x => negb (f x)) l)
   = List.length l)%nat.
Proof.
  induction l as [|x l IH]; simpl; [reflexivity|].
  destruct (f x); simpl; lia.
Qed.

Lemma filter_length_mono {A : Type} (f g : A -> bool) (l : list A) :
  (forall x, f x = true -> g x = true) ->
  (List.length (filter f l) <= List.length (filter g l))%nat.
Proof.
  intros H. induction l as [|x l IH]; simpl; [lia|].
  destruct (f x) eqn:E.
  - rewrite (H x E). simpl. lia.
  - destruct (g x); simpl; lia.
Qed.

Lemma contacted_excludes_not_contacted (l : Api.Lead) :
  Dashboard.isContacted l = true -> not_contacted_pred (Api.fields l) = false.
Proof.
  unfold Dashboard.isContacted, not_contacted_pred.
  destruct (status (Api.fields l)) as [| |b|z|s]; simpl; try discriminate.
  intros H.
  destruct (String.eqb s "new") eqn:E1.
  { apply String.eqb_eq in E1. subst. discriminate. }
  destruct (String.eqb s "") eqn:E2.
  { apply String.eqb_eq in E2. subst. discriminate. }
  reflexivity.
Qed.

(** The counts [getStats] returns add up: contacted lies between 0 and
    all, and notContacted is the number of leads outside the contacted
    group.  That number counts the leads with status "lost" too, so it
    can exceed the number of leads the "not_contacted" filter lets
    through, and never falls below it. *)
Theorem getStats_counts_add_up :
  forall (w w' : World) (s : LeadsStats),
    getStats w = (Ok s, w') ->
    0 <= contacted s <= all s
    /\ all s = contacted s + notContacted s
    /\ notContacted s =
       Z.of_nat (List.length
                   (filter (fun d => negb (stored_contacted d))
                           (Firestore.leads w)))
    /\ Z.of_nat (List.length
                   (filter not_contacted_pred
                           (map docToLead (Firestore.leads w))))
       <= notContacted s
    /\ Firestore.leads w' = Firestore.leads w.
Proof.
  intros w w' s H. apply getStats_ok in H. destruct H as (-> & L & _).
  unfold collection_stats. cbn [contacted all notContacted].
  pose proof (filter_length_le_ stored_contacted (Firestore.leads w)) as H1.
  pose proof (filter_length_split stored_contacted (Firestore.leads w)) as H2.
  split; [lia|]. split; [lia|]. split; [lia|]. split; [|exact L].
  rewrite JsFacts.filter_of_map, length_map.
  pose proof (filter_length_mono
                (fun d => not_contacted_pred (docToLead d))
                (fun d => negb (stored_contacted d))
                (Firestore.leads w)) as H3.
  assert (Himp : forall d, not_contacted_pred (docToLead d) = true ->
                           negb (stored_contacted d) = true).
  { intros d Hd. rewrite stored_contacted_docToLead.
    apply Bool.negb_true_iff.
    destruct (Dashboard.isContacted (Api.toAPILead (docToLead d))) eqn:E;
      [|reflexivity].
    pose proof (contacted_excludes_not_contacted _ E) as Hx.
    cbn [Api.fields Api.toAPILead] in Hx. rewrite Hx in Hd.
    discriminate. }
  specialize (H3 Himp). lia.
Qed.

Definition with_lost : World :=
  Samples.world_of
    [Samples.acme; Samples.bolt;
     Samples.lead_doc "L4" "Dune Hotel" None (JStr "lost") 50].

Lemma getStats_counts_add_up_witness :
  exists s w',
    getStats with_lost = (Ok s, w')
    /\ s = mkStats 3 2 1
    /\ Z.of_nat (List.length
                   (filter not_contacted_pred
                           (map docToLead (Firestore.leads with_lost))))
       <= notContacted s.
Proof.
  eexists. eexists. split; [apply getStats_quiet; reflexivity|].
  split; [reflexivity|].
  apply (getStats_counts_add_up with_lost _ _
           (getStats_quiet with_lost eq_refl)).
Defined.

(* ================================================================== *)
(** * Search and category matching *)
(* ================================================================== *)

Lemma lower_ascii_idem (c : ascii) : lower_ascii (lower_ascii c) = lower_ascii c.
Proof.
  destruct c as [[] [] [] [] [] [] [] []]; vm_compute; reflexivity.
Qed.

Lemma toLowerCase_idem (s : string) : toLowerCase (toLowerCase s) = toLowerCase s.
Proof.
  induction s as [|c s IH]; simpl; [reflexivity|].
  rewrite lower_ascii_idem, IH. reflexivity.
Qed.

Lemma toLowerCase_empty (s : string) : toLowerCase s = "" <-> s = "".
Proof.
  destruct s; simpl; split; intros H; try reflexivity; discriminate.
Qed.

Lemma str_truthy_lower (s : string) : str_truthy (toLowerCase s) = str_truthy s.
Proof. destruct s; reflexivity. Qed.

Lemma client_side_search_case (st : StatusFilter) (s : string) (lim : Z)
    (docs : list LeadDoc) :
  client_side st (Some (toLowerCase s)) lim docs
  = client_side st (Some s) lim docs.
Proof.
  unfold client_side, filtered, search_step.
  rewrite str_truthy_lower, toLowerCase_idem. reflexivity.
Qed.

Lemma client_side_search_empty (st : StatusFilter) (lim : Z)
    (docs : list LeadDoc) :
  client_side st (Some "") lim docs = client_side st None lim docs.
Proof. reflexivity. Qed.

(** The search of [getAll] ignores the case of the query: a query and
    its lower-case form give the same outcome, records and calls alike;
    and an empty query is no query. *)
Theorem getAll_search_ignores_case :
  forall (st : option StatusFilter) (cat : option string) (s : string)
         (pg lim : option Z) (w : World),
    getAll (mkParams st cat (Some (toLowerCase s)) pg lim) w
    = getAll (mkParams st cat (Some s) pg lim) w
    /\ getAll (mkParams st cat (Some "") pg lim) w
       = getAll (mkParams st cat None pg lim) w.
Proof.
  intros st cat s pg lim w. split.
  - unfold getAll, bind. cbn [q_status q_search q_page q_limit].
    destruct (firestoreLimit _ w) as [[c|e] w0]; [|reflexivity].
    destruct (getDocs_leads _ w0) as [[snap|e] w1]; [|reflexivity].
    destruct (getStats w1) as [[stt|e] w2]; [|reflexivity].
    rewrite client_side_search_case. reflexivity.
  - reflexivity.
Qed.

(** A name matches whatever its own case. *)
Lemma search_pred_name_case (q : string) (l : Lead) (upper : string) :
  toLowerCase upper = toLowerCase (business_name l) ->
  search_pred q l =
  search_pred q (mkLead (id l) upper (category l) (status l)
                        (created_at l) (updated_at l)).
Proof. intros H. unfold search_pred. cbn. rewrite H. reflexivity. Qed.

Fixpoint has_comma (s : string) : bool :=
  match s with
  | EmptyString => false
  | String c rest => (Ascii.eqb c ","%char || has_comma rest)%bool
  end.

Lemma split_comma_first_append (a b : string) :
  has_comma a = false ->
  split_comma_first (a ++ String ","%char b) = a.
Proof.
  induction a as [|c a IH]; simpl; [reflexivity|].
  destruct (Ascii.eqb c ","%char); simpl; [discriminate|].
  intros H. rewrite IH by exact H. reflexivity.
Qed.

Lemma split_comma_first_none (a : string) :
  has_comma a = false -> split_comma_first a = a.
Proof.
  induction a as [|c a IH]; simpl; [reflexivity|].
  destruct (Ascii.eqb c ","%char); simpl; [discriminate|].
  intros H. rewrite IH by exact H. reflexivity.
Qed.

Definition with_category (l : Api.Lead) (c : option string) : Api.Lead :=
  Api.mkLead (Api._id l)
    (mkLead (id (Api.fields l)) (business_name (Api.fields l)) c
            (status (Api.fields l)) (created_at (Api.fields l))
            (updated_at (Api.fields l))).

(** The category filter of the in-memory path looks at the first
    comma-separated token only, trimmed, and ignores case on both sides;
    a lead without category, or with an empty one, never passes. *)
Theorem category_filter_uses_first_token :
  forall (c a b : string) (l : Api.Lead),
    has_comma a = false ->
    Dashboard.category_pred c (with_category l (Some (a ++ String ","%char b)))
    = String.eqb (toLowerCase (trim a)) (toLowerCase c)
    /\ (a <> "" ->
        Dashboard.category_pred c (with_category l (Some a))
        = String.eqb (toLowerCase (trim a)) (toLowerCase c))
    /\ Dashboard.category_pred (toLowerCase c) l = Dashboard.category_pred c l
    /\ Dashboard.category_pred c (with_category l None) = false
    /\ Dashboard.category_pred c (with_category l (Some "")) = false.
Proof.
  intros c a b l Ha. split; [|split; [|split; [|split]]].
  - unfold Dashboard.category_pred, with_category. cbn [Api.fields category].
    assert (Ht : str_truthy (a ++ String ","%char b) = true)
      by (destruct a; reflexivity).
    rewrite Ht, split_comma_first_append by exact Ha. reflexivity.
  - intros Hne. unfold Dashboard.category_pred, with_category.
    cbn [Api.fields category].
    assert (Ht : str_truthy a = true)
      by (destruct a; [congruence | reflexivity]).
    rewrite Ht, split_comma_first_none by exact Ha. reflexivity.
  - unfold Dashboard.category_pred. rewrite toLowerCase_idem. reflexivity.
  - reflexivity.
  - reflexivity.
Qed.

Lemma category_filter_uses_first_token_witness :
  Dashboard.category_pred "retail"
    (with_category (shown Samples.bolt) (Some "Retail, Food")) = true
  /\ Dashboard.category_pred "FOOD"
    (with_category (shown Samples.bolt) (Some "Retail, Food")) = false.
Proof.
  split.
  - destruct (category_filter_uses_first_token "retail" "Retail" " Food"
                (shown Samples.bolt) eq_refl) as (H & _).
    exact (eq_trans H eq_refl).
  - destruct (category_filter_uses_first_token "FOOD" "Retail" " Food"
                (shown Samples.bolt) eq_refl) as (H & _).
    exact (eq_trans H eq_refl).
Defined.

(* ================================================================== *)
(** * The category options of the dashboard *)
(* ================================================================== *)

Module Facets.

(** [lead.category.split(',')[0].trim()] *)
Definition mainCategory (c : string) : string := trim (split_comma_first c).

(** [Set.prototype.add]: a set keeps its elements in insertion order. *)
Definition set_add (x : string) (l : list string) : list string :=
  if existsb (String.eqb x) l then l else (l ++ [x])%list.

(** The body of the [forEach] that fills [categorySet]. *)
Definition add_category (acc : list string) (lead : Api.Lead) : list string :=
  match category (Api.fields lead) with
  | Some c => if str_truthy c then set_add (mainCategory c) acc else acc
  | None => acc
  end.

Definition categorySet (snapshot : list Api.Lead) : list string :=
  fold_left add_category snapshot [].

(** [Array.prototype.sort()] without comparator: strings in the order
    of their code units. *)
Fixpoint insert_str (x : string) (l : list string) : list string :=
  match l with
  | [] => [x]
  | y :: rest =>
      if String.leb x y then x :: y :: rest else y :: insert_str x rest
  end.

Definition sort_default (l : list string) : list string :=
  fold_right insert_str [] l.

(** [categories] *)
Definition categories (snapshot : list Api.Lead) : list string :=
  sort_default (categorySet snapshot).

(** A lead contributes the option [c]. *)
Definition contributes (lead : Api.Lead) (c : string) : Prop :=
  exists cat, category (Api.fields lead) = Some cat
              /\ cat <> "" /\ mainCategory cat = c.

Lemma set_add_In (x y : string) (l : list string) :
  In y (set_add x l) <-> y = x \/ In y l.
Proof.
  unfold set_add. destruct (existsb (String.eqb x) l) eqn:E.
  - split; [auto|]. intros [-> | H]; [|exact H].
    apply existsb_exists in E. destruct E as (z & Hz & Ez).
    apply String.eqb_eq in Ez. subst. exact Hz.
  - rewrite in_app_iff. simpl. intuition.
Qed.

Lemma set_add_NoDup (x : string) (l : list string) :
  NoDup l -> NoDup (set_add x l).
Proof.
  intros H. unfold set_add. destruct (existsb (String.eqb x) l) eqn:E;
    [exact H|].
  assert (Hx : ~ In x l).
  { intros Hin.
    assert (existsb (String.eqb x) l = true)
      by (apply existsb_exists; exists x; split;
          [exact Hin | apply String.eqb_refl]).
    congruence. }
  clear E. induction H as [|y l Hy Hl IH]; simpl.
  - constructor; [tauto | constructor].
  - constructor.
    + rewrite in_app_iff. simpl. intros [H | [H | []]]; [tauto|].
      subst. apply Hx. left. reflexivity.
    + apply IH. intros H. apply Hx. right. exact H.
Qed.

Lemma add_category_In (acc : list string) (lead : Api.Lead) (c : string) :
  In c (add_category acc lead) <-> In c acc \/ contributes lead c.
Proof.
  unfold add_category, contributes.
  destruct (category (Api.fields lead)) as [cat|].
  - destruct (str_truthy cat) eqn:T.
    + rewrite set_add_In. split.
      * intros [-> | H]; [right | left; exact H].
        exists cat. repeat split. intros ->. discriminate.
      * intros [H | (cat' & E & _ & <-)]; [right; exact H | left].
        inversion E. reflexivity.
    + split; [auto|]. intros [H | (cat' & E & Hne & _)]; [exact H|].
      inversion E; subst. unfold str_truthy in T.
      apply Bool.negb_false_iff, String.eqb_eq in T. contradiction.
  - split; [auto|]. intros [H | (cat' & E & _)]; [exact H | discriminate].
Qed.

Lemma add_category_NoDup (acc : list string) (lead : Api.Lead) :
  NoDup acc -> NoDup (add_category acc lead).
Proof.
  intros H. unfold add_category.
  destruct (category (Api.fields lead)) as [cat|]; [|exact H].
  destruct (str_truthy cat); [apply set_add_NoDup|]; exact H.
Qed.

Lemma fold_categories (snapshot : list Api.Lead) (acc : list string) :
  NoDup acc ->
  NoDup (fold_left add_category snapshot acc)
  /\ (forall c, In c (fold_left add_category snapshot acc) <->
                In c acc \/ exists lead, In lead snapshot /\ contributes lead c).
Proof.
  revert acc. induction snapshot as [|lead rest IH]; intros acc Hacc; simpl.
  - split; [exact Hacc|]. intros c. split; [auto|].
    intros [H | (l & [] & _)]. exact H.
  - destruct (IH (add_category acc lead) (add_category_NoDup _ _ Hacc))
      as (Hnd & Hin).
    split; [exact Hnd|]. intros c. rewrite Hin, add_category_In. split.
    + intros [[H | H] | (l & Hl & Hc)]; eauto 6.
    + intros [H | (l & [<- | Hl] & Hc)]; eauto 6.
Qed.

Lemma insert_str_In (x y : string) (l : list string) :
  In y (insert_str x l) <-> y = x \/ In y l.
Proof.
  induction l as [|z l IH]; simpl.
  - intuition.
  - destruct (String.leb x z); simpl; rewrite ?IH; intuition.
Qed.

Lemma insert_str_NoDup (x : string) (l : list string) :
  ~ In x l -> NoDup l -> NoDup (insert_str x l).
Proof.
  intros Hx H. induction H as [|y l Hy Hl IH]; simpl.
  - constructor; [tauto | constructor].
  - destruct (String.leb x y).
    + constructor; [exact Hx | constructor; assumption].
    + constructor.
      * rewrite insert_str_In. intros [-> | H]; [|tauto].
        apply Hx. left. reflexivity.
      * apply IH. intros H. apply Hx. right. exact H.
Qed.

Definition str_le (a b : string) : Prop := String.leb a b = true.

Lemma insert_str_Sorted (x : string) (l : list string) :
  Sorted str_le l -> Sorted str_le (insert_str x l).
Proof.
  induction 1 as [|y l Hl IH Hy]; simpl.
  - repeat constructor.
  - destruct (String.leb x y) eqn:E.
    + constructor; [constructor; assumption | constructor; exact E].
    + constructor; [exact IH|].
      assert (Hyx : str_le y x).
      { destruct (String.leb_total x y) as [H | H]; [congruence | exact H]. }
      destruct l as [|z l]; simpl.
      * constructor. exact Hyx.
      * destruct (String.leb x z); constructor; [exact Hyx|].
        inversion Hy; assumption.
Qed.

Lemma sort_default_In (y : string) (l : list string) :
  In y (sort_default l) <-> In y l.
Proof.
  induction l as [|x l IH]; simpl; [reflexivity|].
  rewrite insert_str_In, IH. intuition.
Qed.

Lemma sort_default_NoDup (l : list string) :
  NoDup l -> NoDup (sort_default l).
Proof.
  induction 1 as [|x l Hx Hl IH]; simpl; [constructor|].
  apply insert_str_NoDup; [|exact IH].
  rewrite sort_default_In. exact Hx.
Qed.

Lemma sort_default_Sorted (l : list string) : Sorted str_le (sort_default l).
Proof.
  induction l as [|x l IH]; simpl; [constructor|].
  apply insert_str_Sorted, IH.
Qed.

End Facets.

(** The category options are the trimmed first tokens of the
    non-empty categories of the snapshot, each once, in code-unit
    order; and each option, chosen as category filter, lets at least the
    lead that contributed it through. *)
Theorem categories_are_distinct_sorted_first_tokens :
  forall (snapshot : list Api.Lead),
    NoDup (Facets.categories snapshot)
    /\ Sorted Facets.str_le (Facets.categories snapshot)
    /\ (forall c, In c (Facets.categories snapshot) <->
                  exists lead, In lead snapshot /\ Facets.contributes lead c)
    /\ (forall c, In c (Facets.categories snapshot) ->
                  exists lead, In lead snapshot
                               /\ Dashboard.category_pred c lead = true).
Proof.
  intros snapshot.
  destruct (Facets.fold_categories snapshot [] (NoDup_nil _)) as (Hnd & Hin).
  assert (Hiff : forall c, In c (Facets.categories snapshot) <->
                   exists lead, In lead snapshot /\ Facets.contributes lead c).
  { intros c. unfold Facets.categories. rewrite Facets.sort_default_In.
    unfold Facets.categorySet. rewrite Hin. simpl. tauto. }
  split; [apply Facets.sort_default_NoDup, Hnd|].
  split; [apply Facets.sort_default_Sorted|].
  split; [exact Hiff|].
  intros c Hc. apply Hiff in Hc. destruct Hc as (lead & Hl & cat & E & Hne & <-).
  exists lead. split; [exact Hl|].
  unfold Dashboard.category_pred. rewrite E.
  assert (T : str_truthy cat = true)
    by (unfold str_truthy; apply Bool.negb_true_iff, String.eqb_neq, Hne).
  rewrite T. apply String.eqb_refl.
Qed.

(* ================================================================== *)
(** * The pages of the in-memory path *)
(* ================================================================== *)

Definition setCurrentPage (s : Dashboard.State) (p : Z) : Dashboard.State :=
  Dashboard.mkState (Dashboard.leads s) (Dashboard.allLeadsForCategories s)
    (Dashboard.loading s) (Dashboard.searchQuery s) (Dashboard.statusFilter s)
    (Dashboard.categoryFilter s) (Dashboard.itemsPerPage s) p
    (Dashboard.totalPages s) (Dashboard.total s) (Dashboard.stats s).

(** The leads the in-memory path shows on page [p]. *)
Definition thick_page (s : Dashboard.State) (p : nat) : list Api.Lead :=
  Dashboard.leads (Dashboard.thick_path (setCurrentPage s (Z.of_nat p))).

Lemma firstn_add {A : Type} (a b : nat) (l : list A) :
  firstn (a + b) l = (firstn a l ++ firstn b (skipn a l))%list.
Proof.
  revert l. induction a as [|a IH]; intros l; simpl; [reflexivity|].
  destruct l as [|x l]; simpl.
  - rewrite firstn_nil. reflexivity.
  - rewrite IH. reflexivity.
Qed.

Lemma windows_concat {A : Type} (L : Z) (l : list A) (n : nat) :
  0 < L ->
  List.concat (map (fun p => slice ((Z.of_nat p - 1) * L)
                              ((Z.of_nat p - 1) * L + L) l)
              (seq 1 n))
  = firstn (n * Z.to_nat L) l.
Proof.
  intros HL. induction n as [|n IH]; [reflexivity|].
  rewrite seq_S, map_app, concat_app, IH. cbn [map List.concat Nat.add].
  rewrite app_nil_r.
  rewrite MoreFacts.slice_window by lia.
  replace (Z.to_nat ((Z.of_nat (S n) - 1) * L)) with (n * Z.to_nat L)%nat
    by nia.
  replace (S n * Z.to_nat L)%nat with (n * Z.to_nat L + Z.to_nat L)%nat
    by lia.
  symmetry. apply firstn_add.
Qed.

(** The pages of the in-memory path are consecutive windows of the
    filtered leads: the first [n] pages, one after the other, are the
    first [n] x page-size filtered leads, and the pages 1 to
    [totalPages] together are all of them, each lead once. *)
Theorem thick_path_pages_partition :
  forall (s : Dashboard.State) (n : nat),
    0 < Dashboard.itemsPerPage s ->
    List.concat (map (thick_page s) (seq 1 n))
    = firstn (n * Z.to_nat (Dashboard.itemsPerPage s))
             (Dashboard.filteredLeads s)
    /\ (forall tp,
          Dashboard.totalPages (Dashboard.thick_path s) = Finite tp ->
          List.concat (map (thick_page s) (seq 1 (Z.to_nat tp)))
          = Dashboard.filteredLeads s).
Proof.
  intros s n HL.
  assert (Hgen : forall k,
            List.concat (map (thick_page s) (seq 1 k))
            = firstn (k * Z.to_nat (Dashboard.itemsPerPage s))
                     (Dashboard.filteredLeads s)).
  { intros k.
    rewrite <- (windows_concat (Dashboard.itemsPerPage s)
                  (Dashboard.filteredLeads s) k HL).
    f_equal. }
  split; [apply Hgen|].
  intros tp Htp. rewrite Hgen. apply firstn_all2.
  cbn [Dashboard.totalPages Dashboard.thick_path Dashboard.setResults] in Htp.
  set (len := Z.of_nat (List.length (Dashboard.filteredLeads s))) in *.
  rewrite JsFacts.Math_ceil_div_pos in Htp by exact HL.
  assert (Hlen : 0 <= len) by (unfold len; lia).
  assert (Hq : len <= ((len + Dashboard.itemsPerPage s - 1)
                       / Dashboard.itemsPerPage s)
                      * Dashboard.itemsPerPage s).
  { pose proof (Z.div_mod (len + Dashboard.itemsPerPage s - 1)
                  (Dashboard.itemsPerPage s) ltac:(lia)) as H1.
    pose proof (Z.mod_pos_bound (len + Dashboard.itemsPerPage s - 1)
                  (Dashboard.itemsPerPage s) HL) as H2.
    nia. }
  assert (Hq0 : 0 <= (len + Dashboard.itemsPerPage s - 1)
                     / Dashboard.itemsPerPage s)
    by (apply Z.div_pos; lia).
  cbn [or_one] in Htp.
  assert (Hbound : len <= tp * Dashboard.itemsPerPage s /\ 0 <= tp).
  { destruct ((len + Dashboard.itemsPerPage s - 1)
              / Dashboard.itemsPerPage s =? 0) eqn:E0;
      inversion Htp; subst; clear Htp.
    - apply Z.eqb_eq in E0. rewrite E0 in Hq. lia.
    - split; [exact Hq | exact Hq0]. }
  unfold len in Hbound. nia.
Qed.

Lemma thick_path_pages_partition_witness :
  List.concat (map (thick_page
                 (Dashboard.setAllLeadsForCategories
                    (Dashboard.initial "" status_all "retail" 10 1)
                    (snapshot_of (Firestore.leads search_beyond_first_page))))
              (seq 1 2))
  = Dashboard.filteredLeads
      (Dashboard.setAllLeadsForCategories
         (Dashboard.initial "" status_all "retail" 10 1)
         (snapshot_of (Firestore.leads search_beyond_first_page))).
Proof.
  destruct (thick_path_pages_partition
              (Dashboard.setAllLeadsForCategories
                 (Dashboard.initial "" status_all "retail" 10 1)
                 (snapshot_of (Firestore.leads search_beyond_first_page)))
              0 eq_refl) as (_ & H).
  apply (H 2). vm_compute. reflexivity.
Defined.

(* ================================================================== *)
(** * The pagination bar of the dashboard *)
(* ================================================================== *)

Module Pager.

(** The page number of the [i]-th button. *)
Definition pageNum (currentPage totalPages i : Z) : Z :=
  if totalPages <=? 5 then i + 1
  else if currentPage <=? 3 then i + 1
  else if currentPage >=? totalPages - 2 then totalPages - 4 + i
  else currentPage - 2 + i.

(** [Array.from({ length: Math.min(5, totalPages) }, (_, i) => pageNum)] *)
Definition pageButtons (currentPage totalPages : Z) : list Z :=
  map (fun i => pageNum currentPage totalPages (Z.of_nat i))
      (seq 0 (Z.to_nat (Z.min 5 totalPages))).

(** [setCurrentPage(p => Math.max(1, p - 1))] *)
Definition prevPage (p : Z) : Z := Z.max 1 (p - 1).

(** [setCurrentPage(p => Math.min(totalPages, p + 1))] *)
Definition nextPage (totalPages p : Z) : Z := Z.min totalPages (p + 1).

(** The number on the first button. *)
Definition firstButton (currentPage totalPages : Z) : Z :=
  pageNum currentPage totalPages 0.

Lemma pageNum_offset (cur tp i : Z) :
  pageNum cur tp i = firstButton cur tp + i.
Proof.
  unfold firstButton, pageNum.
  destruct (tp <=? 5); [lia|].
  destruct (cur <=? 3); [lia|].
  destruct (cur >=? tp - 2); lia.
Qed.

Lemma firstButton_bounds (cur tp : Z) :
  1 < tp -> 1 <= cur <= tp ->
  1 <= firstButton cur tp
  /\ firstButton cur tp + Z.min 5 tp - 1 <= tp
  /\ firstButton cur tp <= cur < firstButton cur tp + Z.min 5 tp.
Proof.
  intros Htp Hcur. unfold firstButton, pageNum.
  destruct (tp <=? 5) eqn:E1.
  - apply Z.leb_le in E1. lia.
  - apply Z.leb_gt in E1.
    destruct (cur <=? 3) eqn:E2.
    + apply Z.leb_le in E2. lia.
    + apply Z.leb_gt in E2.
      destruct (cur >=? tp - 2) eqn:E3.
      * apply Z.geb_le in E3. lia.
      * rewrite Z.geb_leb in E3. apply Z.leb_gt in E3. lia.
Qed.

End Pager.

(** When the pagination bar is shown (more than one page) and the
    current page is one of the pages, the buttons carry at most five
    consecutive page numbers, all between 1 and [totalPages], the
    current page among them; and the previous and next arrows never
    leave that range. *)
Theorem page_buttons_cover_current_page :
  forall (cur tp : Z),
    1 < tp -> 1 <= cur <= tp ->
    Pager.pageButtons cur tp
    = map (fun i => Pager.firstButton cur tp + Z.of_nat i)
          (seq 0 (Z.to_nat (Z.min 5 tp)))
    /\ Forall (fun p => 1 <= p <= tp) (Pager.pageButtons cur tp)
    /\ In cur (Pager.pageButtons cur tp)
    /\ 1 <= Pager.prevPage cur <= tp
    /\ 1 <= Pager.nextPage tp cur <= tp.
Proof.
  intros cur tp Htp Hcur.
  destruct (Pager.firstButton_bounds cur tp Htp Hcur) as (H1 & H2 & H3).
  assert (E : Pager.pageButtons cur tp
              = map (fun i => Pager.firstButton cur tp + Z.of_nat i)
                    (seq 0 (Z.to_nat (Z.min 5 tp)))).
  { unfold Pager.pageButtons. apply map_ext. intros i.
    apply Pager.pageNum_offset. }
  split; [exact E|]. rewrite E. split; [|split; [|split]].
  - apply Forall_forall. intros p Hp. apply in_map_iff in Hp.
    destruct Hp as (i & <- & Hi). apply in_seq in Hi. lia.
  - apply in_map_iff. exists (Z.to_nat (cur - Pager.firstButton cur tp)).
    split; [lia|]. apply in_seq. lia.
  - unfold Pager.prevPage. lia.
  - unfold Pager.nextPage. lia.
Qed.

Lemma page_buttons_cover_current_page_witness :
  Pager.pageButtons 8 9 = [5; 6; 7; 8; 9]
  /\ In 8 (Pager.pageButtons 8 9)
  /\ 1 <= Pager.nextPage 9 9 <= 9.
Proof.
  destruct (page_buttons_cover_current_page 8 9 ltac:(lia) ltac:(lia))
    as (E & _ & Hin & _ & Hn).
  split; [exact (eq_trans E eq_refl)|].
  split; [exact Hin|].
  apply (page_buttons_cover_current_page 9 9); lia.
Defined.

(* ================================================================== *)
(** * The filter state and the URL *)
(* ================================================================== *)

Module Url.

(** [URLSearchParams]: the name-value pairs, in order. *)
Definition URLSearchParams : Type := list (string * string).

(** [params.get(name)]: the first value under that name, or null. *)
Fixpoint get (name : string) (p : URLSearchParams) : option string :=
  match p with
  | [] => None
  | (k, v) :: rest => if (k =? name)%string then Some v else get name rest
  end.

(** [params.set(name, value)]: the first pair under that name takes the
    value and the others go; without such a pair one is appended. *)
Fixpoint set (name value : string) (p : URLSearchParams) : URLSearchParams :=
  match p with
  | [] => [(name, value)]
  | (k, v) :: rest =>
      if (k =? name)%string
      then (name, value)
           :: filter (fun kv => negb (fst kv =? name)%string) rest
      else (k, v) :: set name value rest
  end.

(** The digit a character stands for. *)
Definition digit_of (c : ascii) : option Z :=
  let n := nat_of_ascii c in
  if (Nat.leb 48 n && Nat.leb n 57)%bool then Some (Z.of_nat n - 48)
  else None.

(** The longest run of digits at the start of a string, as a number;
    [None] when there is no digit at all. *)
Fixpoint parse_digits (s : string) (acc : Z) (seen : bool) : option Z :=
  match s with
  | EmptyString => if seen then Some acc else None
  | String c rest =>
      match digit_of c with
      | Some d => parse_digits rest (10 * acc + d) true
      | None => if seen then Some acc else None
      end
  end.

(** [parseInt(s, 10)]: leading white space is skipped, a sign is
    read, then the digits; [None] is NaN.  The value is the one the
    digits spell, which is what JavaScript returns up to 2^53 (beyond,
    it rounds to the nearest double). *)
Definition parseInt (s : string) : option Z :=
  match trimStart s with
  | String "-"%char rest => option_map Z.opp (parse_digits rest 0 false)
  | String "+"%char rest => parse_digits rest 0 false
  | t => parse_digits t 0 false
  end.

(** [String(n)] for an integer below 10^21 (from there on JavaScript
    prints an exponent). *)
Definition String_of_number (z : Z) : string :=
  NilZero.string_of_int (Z.to_int z).

Definition status_name (st : StatusFilter) : string :=
  match st with
  | status_all => "all"
  | status_not_contacted => "not_contacted"
  | status_contacted => "contacted"
  end.

(** [isValidStatusFilter(param) ? param : 'all'] *)
Definition status_of_param (param : option string) : StatusFilter :=
  match param with
  | Some v =>
      if (v =? "all")%string then status_all
      else if (v =? "not_contacted")%string then status_not_contacted
      else if (v =? "contacted")%string then status_contacted
      else status_all
  | None => status_all
  end.

(** [searchParams.get(name) || fallback] *)
Definition get_or (name fallback : string) (p : URLSearchParams) : string :=
  match get name p with
  | Some v => if str_truthy v then v else fallback
  | None => fallback
  end.

(** The initial [itemsPerPage]. *)
Definition limit_of_params (p : URLSearchParams) : Z :=
  let parsed :=
    match get "limit" p with
    | Some v => if str_truthy v then parseInt v else Some 15
    | None => Some 15
    end in
  match parsed with
  | Some n => if existsb (Z.eqb n) [10; 15; 25; 50] then n else 15
  | None => 15
  end.

(** The initial [currentPage]. *)
Definition page_of_params (p : URLSearchParams) : Z :=
  let parsed :=
    match get "page" p with
    | Some v => if str_truthy v then parseInt v else Some 1
    | None => Some 1
    end in
  match parsed with
  | Some n => if 0 <? n then n else 1
  | None => 1
  end.

(** The state the dashboard starts from, read from the URL. *)
Definition fromUrl (p : URLSearchParams) : Dashboard.State :=
  Dashboard.initial (get_or "search" "" p)
                    (status_of_param (get "status" p))
                    (get_or "category" "all" p)
                    (limit_of_params p)
                    (page_of_params p).

(** The effect that mirrors the state to the URL. *)
Definition toUrl (s : Dashboard.State) : URLSearchParams :=
  let p0 : URLSearchParams := [] in
  let p1 := if StatusFilter_eqb (Dashboard.statusFilter s) status_all
            then p0
            else set "status" (status_name (Dashboard.statusFilter s)) p0 in
  let p2 := if (Dashboard.categoryFilter s =? "all")%string then p1
            else set "category" (Dashboard.categoryFilter s) p1 in
  let p3 := if str_truthy (Dashboard.searchQuery s)
            then set "search" (Dashboard.searchQuery s) p2 else p2 in
  let p4 := if Dashboard.itemsPerPage s =? 15 then p3
            else set "limit" (String_of_number (Dashboard.itemsPerPage s)) p3 in
  if Dashboard.currentPage s =? 1 then p4
  else set "page" (String_of_number (Dashboard.currentPage s)) p4.

End Url.

Lemma url_gets (s : Dashboard.State) :
  Url.get "status" (Url.toUrl s)
  = (if StatusFilter_eqb (Dashboard.statusFilter s) status_all then None
     else Some (Url.status_name (Dashboard.statusFilter s)))
  /\ Url.get "category" (Url.toUrl s)
     = (if (Dashboard.categoryFilter s =? "all")%string then None
        else Some (Dashboard.categoryFilter s))
  /\ Url.get "search" (Url.toUrl s)
     = (if str_truthy (Dashboard.searchQuery s)
        then Some (Dashboard.searchQuery s) else None)
  /\ Url.get "limit" (Url.toUrl s)
     = (if Dashboard.itemsPerPage s =? 15 then None
        else Some (Url.String_of_number (Dashboard.itemsPerPage s)))
  /\ Url.get "page" (Url.toUrl s)
     = (if Dashboard.currentPage s =? 1 then None
        else Some (Url.String_of_number (Dashboard.currentPage s))).
Proof.
  unfold Url.toUrl.
  destruct (StatusFilter_eqb (Dashboard.statusFilter s) status_all);
    destruct (Dashboard.categoryFilter s =? "all")%string;
    destruct (str_truthy (Dashboard.searchQuery s));
    destruct (Dashboard.itemsPerPage s =? 15);
    destruct (Dashboard.currentPage s =? 1);
    cbn [Url.set Url.get String.eqb Ascii.eqb Bool.eqb fst filter negb];
    repeat split; reflexivity.
Qed.

Lemma str_truthy_false (s : string) : str_truthy s = false -> s = "".
Proof. destruct s; [reflexivity | discriminate]. Qed.

(** The effect [useEffect(() => { setCurrentPage(1) }, [statusFilter,
    categoryFilter, searchQuery, itemsPerPage])]: it runs when one of the
    four filters changes, and once when the dashboard mounts. *)
Definition resetPage (s : Dashboard.State) : Dashboard.State :=
  setCurrentPage s 1.

(** The filter state of the dashboard once loaded from the URL [p]: the
    state initialisers, then the effects of the mount, of which
    [resetPage] is the one that sets a filter. *)
Definition reload (p : Url.URLSearchParams) : Dashboard.State :=
  resetPage (Url.fromUrl p).

(** A reload restores search, status filter, category filter and page
    size from the URL the dashboard wrote, for a page size of 10, 15, 25
    or 50 and a category filter that is not the empty string; the page
    number is not restored: whatever page the URL carried, the reloaded
    dashboard is on page 1 and the URL it then writes has no page. *)
Theorem reload_restores_filters_not_page :
  forall (s : Dashboard.State),
    In (Dashboard.itemsPerPage s) [10; 15; 25; 50] ->
    Dashboard.categoryFilter s <> "" ->
    reload (Url.toUrl s)
    = Dashboard.initial (Dashboard.searchQuery s) (Dashboard.statusFilter s)
                        (Dashboard.categoryFilter s)
                        (Dashboard.itemsPerPage s) 1
    /\ Url.get "page" (Url.toUrl (reload (Url.toUrl s))) = None.
Proof.
  intros s HL Hc.
  assert (Hre :
    reload (Url.toUrl s)
    = Dashboard.initial (Dashboard.searchQuery s) (Dashboard.statusFilter s)
                        (Dashboard.categoryFilter s)
                        (Dashboard.itemsPerPage s) 1).
  { destruct (url_gets s) as (Gst & Gcat & Gse & Gl & _).
    unfold reload, resetPage, setCurrentPage, Url.fromUrl, Dashboard.initial.
    cbn [Dashboard.leads Dashboard.allLeadsForCategories Dashboard.loading
         Dashboard.searchQuery Dashboard.statusFilter
         Dashboard.categoryFilter Dashboard.itemsPerPage
         Dashboard.totalPages Dashboard.total Dashboard.stats].
    unfold Url.get_or, Url.limit_of_params.
    rewrite Gst, Gcat, Gse, Gl.
    assert (Esearch :
      match (if str_truthy (Dashboard.searchQuery s)
             then Some (Dashboard.searchQuery s) else None) with
      | Some v => if str_truthy v then v else ""
      | None => ""
      end = Dashboard.searchQuery s).
    { destruct (str_truthy (Dashboard.searchQuery s)) eqn:T.
      - rewrite T. reflexivity.
      - symmetry. apply str_truthy_false, T. }
    assert (Estatus :
      Url.status_of_param
        (if StatusFilter_eqb (Dashboard.statusFilter s) status_all then None
         else Some (Url.status_name (Dashboard.statusFilter s)))
      = Dashboard.statusFilter s)
      by (destruct (Dashboard.statusFilter s); reflexivity).
    assert (Ecat :
      match (if (Dashboard.categoryFilter s =? "all")%string then None
             else Some (Dashboard.categoryFilter s)) with
      | Some v => if str_truthy v then v else "all"
      | None => "all"
      end = Dashboard.categoryFilter s).
    { destruct (Dashboard.categoryFilter s =? "all")%string eqn:E.
      - apply String.eqb_eq in E. symmetry. exact E.
      - assert (T : str_truthy (Dashboard.categoryFilter s) = true)
          by (unfold str_truthy; apply Bool.negb_true_iff, String.eqb_neq, Hc).
        rewrite T. reflexivity. }
    assert (Elimit :
      match
        match (if Dashboard.itemsPerPage s =? 15 then None
               else Some (Url.String_of_number (Dashboard.itemsPerPage s))) with
        | Some v => if str_truthy v then Url.parseInt v else Some 15
        | None => Some 15
        end
      with
      | Some n => if existsb (Z.eqb n) [10; 15; 25; 50] then n else 15
      | None => 15
      end = Dashboard.itemsPerPage s).
    { simpl in HL. destruct HL as [<- | [<- | [<- | [<- | []]]]]; reflexivity. }
    rewrite Esearch, Estatus, Ecat, Elimit. reflexivity. }
  split; [exact Hre|].
  rewrite Hre.
  destruct (url_gets
              (Dashboard.initial (Dashboard.searchQuery s)
                 (Dashboard.statusFilter s) (Dashboard.categoryFilter s)
                 (Dashboard.itemsPerPage s) 1)) as (_ & _ & _ & _ & Gp).
  rewrite Gp. reflexivity.
Qed.

Lemma reload_restores_filters_not_page_witness :
  Url.toUrl (Dashboard.initial "" status_contacted "retail" 25 3)
  = [("status", "contacted"); ("category", "retail"); ("limit", "25");
     ("page", "3")]
  /\ Dashboard.currentPage
       (Url.fromUrl
          (Url.toUrl (Dashboard.initial "" status_contacted "retail" 25 3)))
     = 3
  /\ reload (Url.toUrl (Dashboard.initial "" status_contacted "retail" 25 3))
     = Dashboard.initial "" status_contacted "retail" 25 1
  /\ Url.get "page"
       (Url.toUrl
          (reload
             (Url.toUrl (Dashboard.initial "" status_contacted "retail" 25 3))))
     = None.
Proof.
  split; [reflexivity|]. split; [reflexivity|].
  apply (reload_restores_filters_not_page
           (Dashboard.initial "" status_contacted "retail" 25 3)).
  - right. right. left. reflexivity.
  - discriminate.
Defined.

(** The URL holds a parameter exactly for the filters that are not at
    their default: no status for "all", no category for "all", no search
    for the empty query, no limit for 15, no page for 1; so the default
    filters give the empty URL. *)
Theorem url_omits_defaults :
  forall (s : Dashboard.State),
    (Url.get "status" (Url.toUrl s) = None
     <-> Dashboard.statusFilter s = status_all)
    /\ (Url.get "category" (Url.toUrl s) = None
        <-> Dashboard.categoryFilter s = "all")
    /\ (Url.get "search" (Url.toUrl s) = None
        <-> Dashboard.searchQuery s = "")
    /\ (Url.get "limit" (Url.toUrl s) = None
        <-> Dashboard.itemsPerPage s = 15)
    /\ (Url.get "page" (Url.toUrl s) = None
        <-> Dashboard.currentPage s = 1)
    /\ (Dashboard.statusFilter s = status_all ->
        Dashboard.categoryFilter s = "all" ->
        Dashboard.searchQuery s = "" ->
        Dashboard.itemsPerPage s = 15 ->
        Dashboard.currentPage s = 1 ->
        Url.toUrl s = []).
Proof.
  intros s. destruct (url_gets s) as (Gst & Gcat & Gse & Gl & Gp).
  rewrite Gst, Gcat, Gse, Gl, Gp.
  split; [|split; [|split; [|split; [|split]]]].
  - destruct (Dashboard.statusFilter s); simpl; split; intros H;
      try reflexivity; discriminate.
  - destruct (Dashboard.categoryFilter s =? "all")%string eqn:E.
    + apply String.eqb_eq in E. tauto.
    + apply String.eqb_neq in E. split; [discriminate | contradiction].
  - destruct (str_truthy (Dashboard.searchQuery s)) eqn:T.
    + split; [discriminate|]. intros H. rewrite H in T. discriminate.
    + apply str_truthy_false in T. tauto.
  - destruct (Dashboard.itemsPerPage s =? 15) eqn:E.
    + apply Z.eqb_eq in E. tauto.
    + apply Z.eqb_neq in E. split; [discriminate | contradiction].
  - destruct (Dashboard.currentPage s =? 1) eqn:E.
    + apply Z.eqb_eq in E. tauto.
    + apply Z.eqb_neq in E. split; [discriminate | contradiction].
  - intros H1 H2 H3 H4 H5. unfold Url.toUrl.
    rewrite H1, H2, H3, H4, H5. reflexivity.
Qed.

(** Whatever the URL holds, the dashboard starts with a page size of
    10, 15, 25 or 50, a page number of at least 1, a category filter
    that is not empty, and a status filter that is "all" unless the URL
    names one of the three filters. *)
Theorem url_parameters_are_sanitised :
  forall (p : Url.URLSearchParams),
    In (Dashboard.itemsPerPage (Url.fromUrl p)) [10; 15; 25; 50]
    /\ 1 <= Dashboard.currentPage (Url.fromUrl p)
    /\ Dashboard.categoryFilter (Url.fromUrl p) <> ""
    /\ (Dashboard.statusFilter (Url.fromUrl p) = status_all
        \/ Url.get "status" p
           = Some (Url.status_name (Dashboard.statusFilter (Url.fromUrl p)))).
Proof.
  intros p. cbn [Url.fromUrl Dashboard.initial Dashboard.itemsPerPage
                 Dashboard.currentPage Dashboard.categoryFilter
                 Dashboard.statusFilter].
  split; [|split; [|split]].
  - unfold Url.limit_of_params.
    destruct (match Url.get "limit" p with
              | Some v => if str_truthy v then Url.parseInt v else Some 15
              | None => Some 15
              end) as [n|]; [|simpl; tauto].
    destruct (existsb (Z.eqb n) [10; 15; 25; 50]) eqn:E; [|simpl; tauto].
    apply existsb_exists in E. destruct E as (x & Hx & Ex).
    apply Z.eqb_eq in Ex. subst. exact Hx.
  - unfold Url.page_of_params.
    destruct (match Url.get "page" p with
              | Some v => if str_truthy v then Url.parseInt v else Some 1
              | None => Some 1
              end) as [n|]; [|lia].
    destruct (0 <? n) eqn:E; [apply Z.ltb_lt in E|]; lia.
  - unfold Url.get_or. destruct (Url.get "category" p) as [v|];
      [|discriminate].
    destruct (str_truthy v) eqn:T; [|discriminate].
    intros ->. discriminate.
  - unfold Url.status_of_param. destruct (Url.get "status" p) as [v|];
      [|left; reflexivity].
    destruct (v =? "all")%string eqn:E1; [left; reflexivity|].
    destruct (v =? "not_contacted")%string eqn:E2.
    { apply String.eqb_eq in E2. subst. right. reflexivity. }
    destruct (v =? "contacted")%string eqn:E3.
    { apply String.eqb_eq in E3. subst. right. reflexivity. }
    left. reflexivity.
Qed.

(* ================================================================== *)
(** * Single-lead operations of the adapter *)
(* ================================================================== *)

Module LeadOps.

Lemma find_lead_id (i : string) (l : list LeadDoc) (d : LeadDoc) :
  find_lead i l = Some d -> doc_id d = i /\ In d l.
Proof.
  unfold find_lead. intros H. apply find_some in H. destruct H as [Hin E].
  apply String.eqb_eq in E. auto.
Qed.

Lemma round_trip_store (c : Call) (w w' : World) (r : Result unit) :
  round_trip c w = (r, w') ->
  Firestore.leads w' = Firestore.leads w
  /\ contacts w' = contacts w
  /\ social_profiles w' = social_profiles w
  /\ enrichment_log w' = enrichment_log w
  /\ Firestore.notes w' = Firestore.notes w
  /\ console w' = console w
  /\ now w' = now w
  /\ next_id w' = next_id w.
Proof.
  unfold round_trip. cbn.
  destruct (transport w) as [|[code|] rest]; intros H; inversion H; subst;
    cbn; repeat split.
Qed.

Lemma getDoc_lead_ok (i : string) (w w' : World) (o : option LeadDoc) :
  getDoc_lead i w = (Ok o, w') ->
  o = find_lead i (Firestore.leads w)
  /\ Firestore.leads w' = Firestore.leads w
  /\ Firestore.notes w' = Firestore.notes w
  /\ console w' = console w
  /\ contacts w' = contacts w
  /\ social_profiles w' = social_profiles w
  /\ enrichment_log w' = enrichment_log w.
Proof.
  unfold getDoc_lead. intros H.
  apply bind_inv in H. destruct H as (u & w1 & R & E).
  inversion E; subst; clear E.
  apply round_trip_store in R.
  destruct R as (L & C1 & S1 & E1 & N & C & _).
  rewrite L. repeat split; assumption.
Qed.

Lemma updateDoc_lead_ok (i : string) (u : LeadUpdate) (w w' : World) (x : unit) :
  updateDoc_lead i u w = (Ok x, w') ->
  (exists d, find_lead i (Firestore.leads w) = Some d)
  /\ Firestore.leads w' = update_in i u (Firestore.leads w)
  /\ Firestore.notes w' = Firestore.notes w
  /\ console w' = console w.
Proof.
  unfold updateDoc_lead. destruct (update_well_formed u); [|discriminate].
  intros H. apply bind_inv in H. destruct H as (t & w1 & R & E).
  apply round_trip_ok in R. destruct R as (L & N & C & _).
  rewrite <- L.
  destruct (find_lead i (Firestore.leads w1)) as [d|] eqn:F; [|discriminate].
  inversion E; subst; clear E. cbn. rewrite <- N, <- C. eauto.
Qed.



(** What a successful [update] did. *)
Lemma update_ok (i : string) (patch : PartialLead) (w w' : World) (r : Lead) :
  update i patch w = (Ok r, w') ->
  exists d,
    find_lead i (Firestore.leads w) = Some d
    /\ r = docToLead (mkLeadDoc (doc_id d)
                        (apply_update (update_fields patch w) (doc_data d)))
    /\ Firestore.leads w' = update_in i (update_fields patch w) (Firestore.leads w)
    /\ Firestore.notes w' = Firestore.notes w.
Proof.
  unfold update. intros H.
  apply bind_inv in H. destruct H as (t & w0 & Ht & H).
  inversion Ht; subst; clear Ht.
  fold (update_fields patch w0) in H.
  apply bind_inv in H. destruct H as (x & w1 & Hu & H).
  apply updateDoc_lead_ok in Hu. destruct Hu as ((d & Hd) & L1 & N1 & _).
  apply bind_inv in H. destruct H as (o & w2 & Hg & H).
  apply getDoc_lead_ok in Hg. destruct Hg as (-> & L2 & N2 & _).
  rewrite L1, (find_lead_update_in _ _ _ _ Hd) in H.
  inversion H; subst; clear H.
  exists d. rewrite L2, L1, N2, N1. auto.
Qed.

Lemma runQuery_child_In (cs : list Constraint) (docs : list ChildDoc)
    (c : ChildDoc) :
  In c (runQuery child_field cs docs) ->
  In c docs /\ matches child_field cs c = true.
Proof.
  unfold runQuery. intros H.
  assert (H1 : In c (order_by child_field cs
                       (filter (matches child_field cs) docs))).
  { revert H. generalize (order_by child_field cs
                            (filter (matches child_field cs) docs)).
    induction cs as [|c0 cs IH]; intros l Hl; simpl in Hl; [exact Hl|].
    destruct c0; try (apply IH; exact Hl).
    apply MoreFacts.In_firstn in Hl. exact Hl. }
  assert (H2 : In c (filter (matches child_field cs) docs)).
  { revert H1. clear H. generalize (filter (matches child_field cs) docs).
    induction cs as [|c0 cs IH]; intros l Hl; simpl in Hl; [exact Hl|].
    destruct c0; try (apply IH; exact Hl).
    apply MoreFacts.In_sort_desc in Hl. exact Hl. }
  apply filter_In in H2. exact H2.
Qed.

Lemma where_lead_id (i : string) (rest : list Constraint) (c : ChildDoc) :
  matches child_field (where_eq "lead_id" i :: rest) c = true ->
  child_lead_id c = i.
Proof.
  unfold matches. simpl. intros H. apply Bool.andb_true_iff in H.
  destruct H as [H _]. unfold is_str in H. simpl in H.
  apply String.eqb_eq in H. exact H.
Qed.

Lemma getDocs_child_ok (c : CollectionName) (cs : list Constraint)
    (w w' : World) (l : list ChildDoc) :
  getDocs_child c cs w = (Ok l, w') ->
  l = runQuery child_field cs (child_docs c w)
  /\ Firestore.leads w' = Firestore.leads w
  /\ contacts w' = contacts w
  /\ social_profiles w' = social_profiles w
  /\ enrichment_log w' = enrichment_log w.
Proof.
  unfold getDocs_child. intros H.
  apply bind_inv in H. destruct H as (u & w1 & R & E).
  inversion E; subst; clear E.
  unfold round_trip in R. cbn in R.
  destruct (transport w) as [|[code|] rest]; inversion R; subst;
    destruct c; cbn; auto.
Qed.

End LeadOps.

Import LeadOps.



Lemma getById_inv :
  forall (i : string) (w w' : World) (det : LeadDetails),
    getById i w = (Ok det, w') ->
    (exists d, find_lead i (Firestore.leads w) = Some d
               /\ lead det = docToLead d)
    /\ id (lead det) = i
    /\ Forall (fun c => child_lead_id c = i /\ In c (contacts w))
              (det_contacts det)
    /\ Forall (fun c => child_lead_id c = i /\ In c (social_profiles w))
              (det_socialProfiles det)
    /\ Forall (fun c => child_lead_id c = i /\ In c (enrichment_log w))
              (det_enrichmentLog det)
    /\ Firestore.leads w' = Firestore.leads w.
Proof.
  intros i w w' det H. unfold getById in H.
  apply bind_inv in H. destruct H as (o & w0 & Hg & H).
  apply getDoc_lead_ok in Hg.
  destruct Hg as (-> & L0 & _ & _ & Wc0 & Ws0 & We0).
  destruct (find_lead i (Firestore.leads w)) as [d|] eqn:Hd; [|discriminate].
  apply bind_inv in H. destruct H as (cs & w1 & H1 & H).
  apply bind_inv in H. destruct H as (ss & w2 & H2 & H).
  apply bind_inv in H. destruct H as (es & w3 & H3 & H).
  inversion H; subst; clear H. cbn [lead det_contacts det_socialProfiles
                                    det_enrichmentLog].
  apply getDocs_child_ok in H1. destruct H1 as (-> & L1 & C1 & S1 & E1).
  apply getDocs_child_ok in H2. destruct H2 as (-> & L2 & C2 & S2 & E2).
  apply getDocs_child_ok in H3. destruct H3 as (-> & L3 & C3 & S3 & E3).
  split; [eauto|]. split.
  { apply find_lead_id in Hd. destruct Hd as [Hid _]. exact Hid. }
  cbn [child_docs].
  split; [|split; [|split]].
  - apply Forall_forall. intros c Hc. apply runQuery_child_In in Hc.
    destruct Hc as [Hin Hm]. apply where_lead_id in Hm.
    rewrite <- Wc0. auto.
  - apply Forall_forall. intros c Hc. apply runQuery_child_In in Hc.
    destruct Hc as [Hin Hm]. apply where_lead_id in Hm.
    rewrite <- Ws0, <- S1. auto.
  - apply Forall_forall. intros c Hc. apply runQuery_child_In in Hc.
    destruct Hc as [Hin Hm]. apply where_lead_id in Hm.
    rewrite <- We0, <- E1, <- E2. auto.
  - rewrite L3, L2, L1, L0. reflexivity.
Qed.


Definition with_children : World :=
  mkWorld [Samples.bolt; Samples.acme; Samples.cafe]
          [mkChildDoc "C1" "L1" 10; mkChildDoc "C2" "L2" 20]
          [mkChildDoc "S1" "L2" 5]
          [mkChildDoc "E1" "L1" 1; mkChildDoc "E2" "L1" 2]
          [] 1700000000000 0 [] [] [].


(** After a successful [update], a [getById] of the same id that
    returns gives back exactly the lead the update returned. *)
Theorem getById_after_update_returns_updated_lead :
  forall (i : string) (patch : PartialLead) (w w1 w2 : World) (r : Lead)
         (det : LeadDetails),
    update i patch w = (Ok r, w1) ->
    getById i w1 = (Ok det, w2) ->
    lead det = r.
Proof.
  intros i patch w w1 w2 r det Hu Hg.
  apply update_ok in Hu. destruct Hu as (d & Hd & -> & L & _).
  apply getById_inv in Hg.
  destruct Hg as ((d' & Hd' & ->) & _).
  rewrite L, (find_lead_update_in _ _ _ _ Hd) in Hd'.
  inversion Hd'. reflexivity.
Qed.

Lemma getById_after_update_returns_updated_lead_witness :
  exists r w1 det w2,
    update "L1" mark_contacted with_children = (Ok r, w1)
    /\ getById "L1" w1 = (Ok det, w2)
    /\ lead det = r
    /\ status r = JStr "contacted".
Proof.
  assert (E : exists r w1 det w2,
             update "L1" mark_contacted with_children = (Ok r, w1)
             /\ getById "L1" w1 = (Ok det, w2)
             /\ status r = JStr "contacted").
  { do 4 eexists. split; [vm_compute; reflexivity|].
    split; [vm_compute; reflexivity | reflexivity]. }
  destruct E as (r & w1 & det & w2 & Eu & Eg & Es).
  exists r, w1, det, w2. repeat split; try assumption.
  exact (getById_after_update_returns_updated_lead _ _ _ _ _ _ _ Eu Eg).
Defined.


Lemma find_lead_filtered (i : string) (l : list LeadDoc) :
  find_lead i (filter (fun d => negb (doc_id d =? i)%string) l) = None.
Proof.
  unfold find_lead. induction l as [|d l IH]; simpl; [reflexivity|].
  destruct (doc_id d =? i)%string eqn:E; simpl; [exact IH|].
  rewrite E. exact IH.
Qed.



(* ================================================================== *)
(** * The notes of a lead *)
(* ================================================================== *)

Module NotesOps.

(** Field access by name on a note document. *)
Definition note_field (d : NoteDoc) (f : string) : JsVal :=
  if (f =? "lead_id")%string then JStr (n_lead_id (note_data d))
  else if (f =? "content")%string then JStr (n_content (note_data d))
  else if (f =? "created_by")%string then JStr (n_created_by (note_data d))
  else if (f =? "contact_method")%string
       then JStr (n_contact_method (note_data d))
  else if (f =? "contact_date")%string then JStr (n_contact_date (note_data d))
  else if (f =? "created_at")%string then JNum (n_created_at (note_data d))
  else JUndefined.

Definition getDocs_notes (cs : list Constraint) : M (list NoteDoc) :=
  _ <- round_trip (call_getDocs notesCollection cs) ;;
  fun w => (Ok (runQuery note_field cs (Firestore.notes w)), w).

(** [{ id: doc.id, ...doc.data(), created_at }] *)
Definition noteOfDoc (d : NoteDoc) : Note :=
  mkNote (note_id d)
         (mkNoteFields (n_lead_id (note_data d)) (n_content (note_data d))
                       (n_created_by (note_data d))
                       (Some (n_contact_method (note_data d)))
                       (Some (n_contact_date (note_data d)))
                       (n_created_at (note_data d))).

(** [notesService.getForLead] *)
Definition getForLead (leadId : string) : M (list Note) :=
  snapshot <- getDocs_notes [where_eq "lead_id" leadId;
                             orderBy_desc "created_at"] ;;
  ret (map noteOfDoc snapshot).



Definition note_key (d : NoteDoc) : Z := sort_key note_field "created_at" d.

Definition of_lead (leadId : string) (d : NoteDoc) : bool :=
  (n_lead_id (note_data d) =? leadId)%string.

Lemma runQuery_notes (leadId : string) (docs : list NoteDoc) :
  runQuery note_field [where_eq "lead_id" leadId; orderBy_desc "created_at"]
           docs
  = sort_desc note_key (filter (of_lead leadId) docs).
Proof.
  unfold runQuery. cbn [take_limit order_by]. f_equal.
  apply filter_ext. intros d. unfold matches, of_lead. simpl.
  rewrite !Bool.andb_true_r. reflexivity.
Qed.

Lemma getForLead_ok (leadId : string) (w w' : World) (l : list Note) :
  getForLead leadId w = (Ok l, w') ->
  l = map noteOfDoc
        (sort_desc note_key (filter (of_lead leadId) (Firestore.notes w)))
  /\ Firestore.notes w' = Firestore.notes w.
Proof.
  unfold getForLead, getDocs_notes. intros H.
  apply bind_inv in H. destruct H as (snap & w1 & H1 & H).
  inversion H; subst; clear H.
  apply bind_inv in H1. destruct H1 as (u & w0 & R & E).
  inversion E; subst; clear E.
  apply round_trip_store in R. destruct R as (_ & _ & _ & _ & N & _).
  rewrite N, runQuery_notes. auto.
Qed.

(** What a successful [create] stored. *)
Lemma create_ok (leadId content createdBy : string)
    (contactMethod contactDate : option string) (w w' : World) (n : Note) :
  create leadId content createdBy contactMethod contactDate w = (Ok n, w') ->
  exists method date,
    contactMethod = Some method /\ contactDate = Some date
    /\ n = mkNote (auto_id (next_id w))
                  (mkNoteFields leadId content createdBy (Some method)
                                (Some date) (now w))
    /\ Firestore.notes w'
       = (Firestore.notes w
          ++ [mkNoteDoc (auto_id (next_id w))
                (mkNoteData leadId content createdBy method date (now w))])%list
    /\ Firestore.leads w' = Firestore.leads w.
Proof.
  unfold create. intros H.
  apply bind_inv in H. destruct H as (t & w0 & Ht & H).
  inversion Ht; subst; clear Ht.
  apply bind_inv in H. destruct H as (nid & w1 & Ha & H).
  inversion H; subst; clear H.
  unfold addDoc_note in Ha. cbn [nf_contact_method nf_contact_date] in Ha.
  destruct contactMethod as [method|]; [|discriminate].
  destruct contactDate as [date|]; [|discriminate].
  apply bind_inv in Ha. destruct Ha as (u & w2 & R & E).
  apply round_trip_store in R.
  destruct R as (L & _ & _ & _ & N & _ & T & I).
  inversion E; subst; clear E. cbn.
  exists method, date. rewrite I, N, L. repeat split.
Qed.

End NotesOps.

Import NotesOps.

Definition newer_note_first (a b : Note) : Prop :=
  nf_created_at (Adapter.note_fields b) <= nf_created_at (Adapter.note_fields a).

(** The notes [getForLead] returns are the stored notes of that lead
    and no others, the most recent first; and a note that [create] has
    just written for the lead is among them, exactly as [create]
    returned it. *)
Theorem created_note_is_listed_for_its_lead :
  forall (leadId content createdBy : string)
         (contactMethod contactDate : option string)
         (w w1 w2 : World) (n : Note) (l : list Note),
    create leadId content createdBy contactMethod contactDate w = (Ok n, w1) ->
    getForLead leadId w1 = (Ok l, w2) ->
    In n l
    /\ Forall (fun x => nf_lead_id (Adapter.note_fields x) = leadId) l
    /\ StronglySorted newer_note_first l
    /\ List.length l
       = S (List.length (filter (of_lead leadId) (Firestore.notes w)))
    /\ (forall other l' w3,
          other <> leadId ->
          getForLead other w1 = (Ok l', w3) ->
          ~ In n l').
Proof.
  intros leadId content createdBy contactMethod contactDate w w1 w2 n l Hc Hg.
  apply create_ok in Hc.
  destruct Hc as (method & date & -> & -> & -> & N1 & _).
  apply getForLead_ok in Hg. destruct Hg as (-> & _).
  rewrite N1.
  set (doc := mkNoteDoc (auto_id (next_id w))
                (mkNoteData leadId content createdBy method date (now w))).
  assert (Hof : of_lead leadId doc = true)
    by (unfold of_lead; cbn; apply String.eqb_refl).
  split; [|split; [|split; [|split]]].
  - apply in_map_iff. exists doc. split; [reflexivity|].
    apply MoreFacts.In_sort_desc, filter_In. split; [|exact Hof].
    apply in_or_app. right. left. reflexivity.
  - apply Forall_forall. intros x Hx. apply in_map_iff in Hx.
    destruct Hx as (d & <- & Hd).
    apply MoreFacts.In_sort_desc, filter_In in Hd. destruct Hd as [_ Hd].
    unfold of_lead in Hd. apply String.eqb_eq in Hd. exact Hd.
  - apply MoreFacts.sorted_map.
    exact (QueryFacts.sort_desc_sorted note_key _).
  - rewrite length_map, QueryFacts.length_sort_desc, filter_app, length_app.
    cbn [filter]. rewrite Hof. cbn. lia.
  - intros other l' w3 Hne Hg'. apply getForLead_ok in Hg'.
    destruct Hg' as (-> & _). intros Hin. apply in_map_iff in Hin.
    destruct Hin as (d & Ed & Hd).
    apply MoreFacts.In_sort_desc, filter_In in Hd. destruct Hd as [_ Hd].
    unfold of_lead in Hd. apply String.eqb_eq in Hd.
    unfold noteOfDoc in Ed. inversion Ed. congruence.
Qed.

Lemma created_note_is_listed_for_its_lead_witness :
  exists n w1 l w2,
    create "L1" "Called Bob" "Walter" (Some "phone") (Some "2024-05-01T10:00")
           Samples.three_leads = (Ok n, w1)
    /\ getForLead "L1" w1 = (Ok l, w2)
    /\ In n l
    /\ List.length l = 1%nat.
Proof.
  assert (E : exists n w1 l w2,
             create "L1" "Called Bob" "Walter" (Some "phone")
                    (Some "2024-05-01T10:00") Samples.three_leads = (Ok n, w1)
             /\ getForLead "L1" w1 = (Ok l, w2)).
  { do 4 eexists. split; vm_compute; reflexivity. }
  destruct E as (n & w1 & l & w2 & Ec & Eg). exists n, w1, l, w2.
  destruct (created_note_is_listed_for_its_lead _ _ _ _ _ _ _ _ _ _ Ec Eg)
    as (Hin & _ & _ & Hlen & _).
  repeat split; assumption.
Defined.

(* ================================================================== *)
(** * More of the modal's submit *)
(* ================================================================== *)

Module SubmitFacts.

Import Modal.

(** The length check lets the submit through. *)
Definition passes_check (s : State) : bool :=
  negb (requiresNotes s && (str_length (trim (notes s)) <? 10))%bool.

(** The state the modal ends in when the status update failed. *)
Definition failed (s : State) : State :=
  setLoading (setError (submitting s) (Some update_failed_message)) false.

Lemma submit_after_update (s : State) (w : World) (d : LeadDoc) :
  passes_check s = true ->
  find_lead (Api._id (lead s)) (Firestore.leads w) = Some d ->
  next_fault w = None ->
  next_fault (set_transport w (tl (transport w))) = None ->
  handleSubmit s w =
  (Ok (submitted s (Api.toAPILead (docToLead (updated_doc s w d)))),
   snd (save_notes (submitting s)
          (after_update (Api._id (lead s)) (status_patch s) w))).
Proof.
  intros Hval Hfind H1 H2. unfold handleSubmit.
  unfold passes_check in Hval. apply Bool.negb_true_iff in Hval.
  rewrite Hval. fold (submitting s).
  erewrite bind_ok; [reflexivity|].
  unfold try_catch.
  erewrite bind_ok.
  2:{ unfold Api.update.
      erewrite bind_ok; [reflexivity|].
      apply (update_through _ (status_patch s) w d Hfind);
        [reflexivity | exact H1 | exact H2]. }
  cbn [Api.upd_success negb].
  pose proof (save_notes_never_throws (submitting s)
                (after_update (Api._id (lead s)) (status_patch s) w)) as Hs.
  unfold bind at 1.
  destruct (save_notes (submitting s)
              (after_update (Api._id (lead s)) (status_patch s) w))
    as [[[]|e] w3]; [reflexivity | discriminate].
Qed.

Lemma submit_when_update_throws (s : State) (w w1 : World) (e : Exn) :
  passes_check s = true ->
  update (Api._id (lead s)) (status_patch s) w = (Throw e, w1) ->
  handleSubmit s w =
  (Ok (failed s), add_console w1 log_error update_failed_message).
Proof.
  intros Hval Hthrow. unfold handleSubmit.
  unfold passes_check in Hval. apply Bool.negb_true_iff in Hval.
  rewrite Hval. fold (submitting s).
  erewrite bind_ok; [reflexivity|].
  unfold try_catch.
  erewrite bind_throw.
  2:{ unfold Api.update. erewrite bind_throw; [reflexivity|].
      exact Hthrow. }
  reflexivity.
Qed.

Lemma update_throws_on_fault (i : string) (patch : PartialLead) (w : World)
    (code : FirestoreCode) :
  update_well_formed (update_fields patch w) = true ->
  next_fault w = Some code ->
  update i patch w =
  (Throw (FirebaseError code),
   after_round_trip (call_updateDoc leadsCollection i (update_fields patch w)) w).
Proof.
  intros Hwf Hfail. unfold update.
  erewrite bind_ok by reflexivity. fold (update_fields patch w).
  erewrite bind_throw; [reflexivity|].
  unfold updateDoc_lead. rewrite Hwf.
  erewrite bind_throw; [reflexivity|].
  apply round_trip_fails, Hfail.
Qed.

Lemma update_throws_on_absent (i : string) (patch : PartialLead) (w : World) :
  update_well_formed (update_fields patch w) = true ->
  next_fault w = None ->
  find_lead i (Firestore.leads w) = None ->
  update i patch w =
  (Throw (FirebaseError not_found),
   after_round_trip (call_updateDoc leadsCollection i (update_fields patch w)) w).
Proof.
  intros Hwf Hgo Habs. unfold update.
  erewrite bind_ok by reflexivity. fold (update_fields patch w).
  erewrite bind_throw; [reflexivity|].
  unfold updateDoc_lead. rewrite Hwf.
  erewrite bind_ok by (apply round_trip_through; exact Hgo).
  cbn [Firestore.leads after_round_trip set_transport add_trace].
  rewrite Habs. reflexivity.
Qed.

(** The update went to the store, its read-back failed. *)
Lemma update_throws_on_read_back (i : string) (patch : PartialLead)
    (w : World) (d : LeadDoc) (code : FirestoreCode) :
  update_well_formed (update_fields patch w) = true ->
  find_lead i (Firestore.leads w) = Some d ->
  next_fault w = None ->
  next_fault (set_transport w (tl (transport w))) = Some code ->
  exists w1,
    update i patch w = (Throw (FirebaseError code), w1)
    /\ Firestore.leads w1
       = update_in i (update_fields patch w) (Firestore.leads w)
    /\ Firestore.notes w1 = Firestore.notes w
    /\ console w1 = console w.
Proof.
  intros Hwf Hfind H1 H2. unfold update. eexists. split.
  - erewrite bind_ok by reflexivity. fold (update_fields patch w).
    erewrite bind_ok.
    2:{ unfold updateDoc_lead. rewrite Hwf.
        erewrite bind_ok by (apply round_trip_through; exact H1).
        cbn [Firestore.leads after_round_trip set_transport add_trace].
        rewrite Hfind. reflexivity. }
    erewrite bind_throw; [reflexivity|].
    unfold getDoc_lead.
    erewrite bind_throw; [reflexivity|].
    apply round_trip_fails. exact H2.
  - cbn. repeat split.
Qed.

End SubmitFacts.

Import SubmitFacts.

(** Taking the contacted mark off a lead asks for no notes: whatever
    the note text, even none, the submit sets the stored status to
    "new", writes no note, and ends in success after the two round-trips
    of the update. *)
Theorem unmarking_needs_no_notes :
  forall (s : Modal.State) (w : World) (d : LeadDoc),
    Modal.isContacted s = true ->
    find_lead (Api._id (Modal.lead s)) (Firestore.leads w) = Some d ->
    transport w = [] ->
    exists s' w' d',
      Modal.handleSubmit s w = (Ok s', w')
      /\ Modal.error s' = None
      /\ Modal.onClose_called s' = true
      /\ Modal.onSuccess_called s' = Some (shown d')
      /\ find_lead (Api._id (Modal.lead s)) (Firestore.leads w') = Some d'
      /\ d_status (doc_data d') = JStr "new"
      /\ Firestore.notes w' = Firestore.notes w
      /\ List.length (trace w') = (List.length (trace w) + 2)%nat.
Proof.
  intros s w d Hc Hfind Hq.
  assert (Hval : passes_check s = true).
  { unfold passes_check, Modal.requiresNotes. rewrite Hc. reflexivity. }
  assert (H1 : next_fault w = None)
    by (unfold next_fault; rewrite Hq; reflexivity).
  assert (H2 : next_fault (set_transport w (tl (transport w))) = None)
    by (unfold next_fault; cbn [transport set_transport]; rewrite Hq;
        reflexivity).
  pose proof (submit_after_update s w d Hval Hfind H1 H2) as E.
  assert (Hsave : forall w0, Modal.save_notes (submitting s) w0 = (Ok tt, w0)).
  { intros w0. unfold Modal.save_notes, Modal.requiresNotes.
    change (Modal.isContacted (submitting s)) with (Modal.isContacted s).
    rewrite Hc. cbn [negb andb]. destruct (Modal.user (submitting s));
      reflexivity. }
  rewrite Hsave in E. cbn [snd] in E.
  assert (Hnew : Modal.newStatus s = "new")
    by (unfold Modal.newStatus; rewrite Hc; reflexivity).
  exists (submitted s (Api.toAPILead (docToLead (updated_doc s w d)))),
         (after_update (Api._id (Modal.lead s)) (status_patch s) w),
         (updated_doc s w d).
  split; [exact E|]. repeat split.
  - cbn [Firestore.leads after_update after_round_trip set_transport
         add_trace set_leads].
    apply (find_lead_update_in _ _ _ _ Hfind).
  - unfold updated_doc, status_patch, update_fields, apply_update.
    cbn. rewrite Hnew. reflexivity.
  - cbn [trace after_update after_round_trip set_transport add_trace
         set_leads].
    rewrite !length_app. cbn. lia.
Qed.

Definition modal_on_contacted : Modal.State :=
  Modal.opened (shown Samples.bolt) (Some walter) "2024-05-01T10:00" "".

Lemma unmarking_needs_no_notes_witness :
  exists s' w' d',
    Modal.handleSubmit modal_on_contacted Samples.three_leads = (Ok s', w')
    /\ Modal.error s' = None
    /\ Modal.onClose_called s' = true
    /\ Modal.onSuccess_called s' = Some (shown d')
    /\ find_lead "L2" (Firestore.leads w') = Some d'
    /\ d_status (doc_data d') = JStr "new"
    /\ Firestore.notes w' = []
    /\ List.length (trace w') = 2%nat.
Proof.
  apply (unmarking_needs_no_notes modal_on_contacted Samples.three_leads
           Samples.bolt); reflexivity.
Defined.

(** When the status update cannot be made (the lead is not in the
    store, or the first round-trip fails), the submit ends with the
    message "Failed to update status. Please try again.", the modal stays
    open, [onSuccess] is not called, nothing is written to the store and
    one error goes to the console. *)
Theorem failed_update_changes_nothing :
  forall (s : Modal.State) (w : World),
    passes_check s = true ->
    (find_lead (Api._id (Modal.lead s)) (Firestore.leads w) = None
     \/ exists code, next_fault w = Some code) ->
    exists s' w',
      Modal.handleSubmit s w = (Ok s', w')
      /\ Modal.error s' = Some Modal.update_failed_message
      /\ Modal.loading s' = false
      /\ Modal.onClose_called s' = Modal.onClose_called s
      /\ Modal.onSuccess_called s' = Modal.onSuccess_called s
      /\ Firestore.leads w' = Firestore.leads w
      /\ Firestore.notes w' = Firestore.notes w
      /\ console w'
         = (console w ++ [(log_error, Modal.update_failed_message)])%list.
Proof.
  intros s w Hval Hcause.
  assert (Hwf : update_well_formed
                  (update_fields (status_patch s) w) = true) by reflexivity.
  destruct (next_fault w) as [code|] eqn:Hf.
  - pose proof (update_throws_on_fault (Api._id (Modal.lead s))
                  (status_patch s) w code Hwf Hf) as Hu.
    exists (failed s). eexists.
    split; [apply (submit_when_update_throws s w _ _ Hval Hu)|].
    cbn. repeat split.
  - destruct Hcause as [Habs | (code & Hc)]; [|discriminate].
    pose proof (update_throws_on_absent (Api._id (Modal.lead s))
                  (status_patch s) w Hwf Hf Habs) as Hu.
    exists (failed s). eexists.
    split; [apply (submit_when_update_throws s w _ _ Hval Hu)|].
    cbn. repeat split.
Qed.

Definition offline : World :=
  set_transport Samples.three_leads [Some unavailable].

Lemma failed_update_changes_nothing_witness :
  exists s' w',
    Modal.handleSubmit (modal_with ten_chars) offline = (Ok s', w')
    /\ Modal.error s' = Some Modal.update_failed_message
    /\ Modal.loading s' = false
    /\ Modal.onClose_called s' = false
    /\ Modal.onSuccess_called s' = None
    /\ Firestore.leads w' = Firestore.leads offline
    /\ Firestore.notes w' = []
    /\ console w' = [(log_error, Modal.update_failed_message)].
Proof.
  apply (failed_update_changes_nothing (modal_with ten_chars) offline).
  - reflexivity.
  - right. exists unavailable. reflexivity.
Defined.

(** The update and its read-back are two round-trips: when the first
    goes through and the second fails, the submit reports "Failed to
    update status", leaves the modal open and writes no note, although
    the new status is already in the store. *)
Theorem failure_reported_after_status_was_stored :
  forall (s : Modal.State) (w : World) (d : LeadDoc) (code : FirestoreCode)
         (rest : list (option FirestoreCode)),
    passes_check s = true ->
    find_lead (Api._id (Modal.lead s)) (Firestore.leads w) = Some d ->
    transport w = None :: Some code :: rest ->
    exists s' w' d',
      Modal.handleSubmit s w = (Ok s', w')
      /\ Modal.error s' = Some Modal.update_failed_message
      /\ Modal.onClose_called s' = Modal.onClose_called s
      /\ Modal.onSuccess_called s' = Modal.onSuccess_called s
      /\ find_lead (Api._id (Modal.lead s)) (Firestore.leads w') = Some d'
      /\ d_status (doc_data d') = JStr (Modal.newStatus s)
      /\ Firestore.notes w' = Firestore.notes w.
Proof.
  intros s w d code rest Hval Hfind Ht.
  assert (Hwf : update_well_formed
                  (update_fields (status_patch s) w) = true) by reflexivity.
  assert (H1 : next_fault w = None)
    by (unfold next_fault; rewrite Ht; reflexivity).
  assert (H2 : next_fault (set_transport w (tl (transport w))) = Some code)
    by (unfold next_fault; cbn [transport set_transport]; rewrite Ht;
        reflexivity).
  destruct (update_throws_on_read_back (Api._id (Modal.lead s))
              (status_patch s) w d code Hwf Hfind H1 H2)
    as (w1 & Hu & L & N & C).
  exists (failed s), (add_console w1 log_error Modal.update_failed_message),
         (updated_doc s w d).
  split; [apply (submit_when_update_throws s w _ _ Hval Hu)|].
  cbn [Firestore.leads Firestore.notes add_console].
  rewrite L, N. repeat split.
  apply (find_lead_update_in _ _ _ _ Hfind).
Qed.

Definition read_back_fails : World :=
  set_transport Samples.three_leads [None; Some unavailable].

Lemma failure_reported_after_status_was_stored_witness :
  exists s' w' d',
    Modal.handleSubmit (modal_with ten_chars) read_back_fails = (Ok s', w')
    /\ Modal.error s' = Some Modal.update_failed_message
    /\ Modal.onClose_called s' = false
    /\ Modal.onSuccess_called s' = None
    /\ find_lead "L1" (Firestore.leads w') = Some d'
    /\ d_status (doc_data d') = JStr "contacted"
    /\ Firestore.notes w' = [].
Proof.
  apply (failure_reported_after_status_was_stored (modal_with ten_chars)
           read_back_fails Samples.acme unavailable []); reflexivity.
Defined.

(** [update] writes to the leads only: however it ends, the notes are
    as they were. *)
Lemma update_keeps_notes (i : string) (patch : PartialLead) (w : World) :
  Firestore.notes (snd (update i patch w)) = Firestore.notes w.
Proof.
  unfold update. unfold bind at 1. unfold Date_now.
  unfold bind at 1. unfold updateDoc_lead.
  destruct (update_well_formed _); [|reflexivity].
  unfold bind at 1.
  destruct (round_trip _ w) as [[[]|e] w1] eqn:R1;
    apply round_trip_store in R1;
    destruct R1 as (_ & _ & _ & _ & N1 & _); [|exact N1].
  destruct (find_lead i (Firestore.leads w1)); [|exact N1].
  unfold getDoc_lead. unfold bind at 1. unfold bind at 1.
  destruct (round_trip _ (set_leads w1 _)) as [[[]|e] w2] eqn:R2;
    apply round_trip_store in R2;
    destruct R2 as (_ & _ & _ & _ & N2 & _);
    [destruct (find_lead i (Firestore.leads w2))|];
    cbn [snd ret throw]; rewrite N2; exact N1.
Qed.

(** Without a signed-in user the modal writes no note, whatever the note
    text and whatever the transport does; and a submit that passes the
    length check still updates the status and ends in success. *)
Theorem no_note_without_user :
  forall (s : Modal.State) (w : World),
    Modal.user s = None ->
    Firestore.notes (snd (Modal.handleSubmit s w)) = Firestore.notes w
    /\ (forall d,
          passes_check s = true ->
          find_lead (Api._id (Modal.lead s)) (Firestore.leads w) = Some d ->
          transport w = [] ->
          exists s' w',
            Modal.handleSubmit s w = (Ok s', w')
            /\ Modal.error s' = None
            /\ Modal.onClose_called s' = true
            /\ find_lead (Api._id (Modal.lead s)) (Firestore.leads w')
               = Some (updated_doc s w d)
            /\ console w' = console w).
Proof.
  intros s w Hu.
  assert (Hsave : forall w0, Modal.save_notes (submitting s) w0 = (Ok tt, w0)).
  { intros w0. unfold Modal.save_notes.
    change (Modal.user (submitting s)) with (Modal.user s).
    rewrite Hu. reflexivity. }
  split.
  - unfold Modal.handleSubmit.
    destruct (Modal.requiresNotes s
              && (str_length (trim (Modal.notes s)) <? 10))%bool;
      [reflexivity|].
    fold (submitting s).
    unfold bind at 1. unfold try_catch. unfold bind at 1.
    unfold Api.update. unfold bind at 1.
    match goal with
    | |- context [update ?i ?patch w] =>
        pose proof (update_keeps_notes i patch w) as N;
        destruct (update i patch w) as [[r|e] w1]; cbn [snd] in N
    end.
    + cbn [ret Api.upd_success negb]. unfold bind at 1.
      rewrite Hsave. cbn [ret snd]. exact N.
    + cbn [snd bind console_log ret]. exact N.
  - intros d Hval Hfind Hq.
    assert (H1 : next_fault w = None)
      by (unfold next_fault; rewrite Hq; reflexivity).
    assert (H2 : next_fault (set_transport w (tl (transport w))) = None)
      by (unfold next_fault; cbn [transport set_transport]; rewrite Hq;
          reflexivity).
    pose proof (submit_after_update s w d Hval Hfind H1 H2) as E.
    rewrite Hsave in E. cbn [snd] in E.
    eexists. eexists. split; [exact E|]. repeat split.
    cbn [Firestore.leads after_update after_round_trip set_transport
         add_trace set_leads].
    apply (find_lead_update_in _ _ _ _ Hfind).
Qed.

Lemma no_note_without_user_witness :
  Firestore.notes
    (snd (Modal.handleSubmit
            (Modal.opened (shown Samples.acme) None "2024-05-01T10:00" "short")
            Samples.three_leads)) = []
  /\ exists s' w',
       Modal.handleSubmit
         (Modal.opened (shown Samples.acme) None "2024-05-01T10:00" ten_chars)
         Samples.three_leads = (Ok s', w')
       /\ Modal.error s' = None
       /\ Modal.onClose_called s' = true
       /\ Firestore.notes w' = [].
Proof.
  split.
  - apply (no_note_without_user
             (Modal.opened (shown Samples.acme) None "2024-05-01T10:00" "short")
             Samples.three_leads eq_refl).
  - destruct (no_note_without_user
                (Modal.opened (shown Samples.acme) None "2024-05-01T10:00"
                   ten_chars)
                Samples.three_leads eq_refl) as (Hn & H).
    destruct (H Samples.acme eq_refl eq_refl eq_refl)
      as (s' & w' & E & He & Hc & _).
    exists s', w'. rewrite E in Hn. repeat split; assumption.
Defined.

(* ================================================================== *)
(** * The list after a failed fetch, a delete, a status toggle *)
(* ================================================================== *)

Module Actions.

(** The dashboard with the state of its row menu and confirmation
    dialogs. *)
Record State : Type := mkState {
  dash : Dashboard.State;
  selectedLead : option Api.Lead;
  actionLoading : bool;
  showDeleteModal : bool;
  showContactModal : bool
}.

Definition setLeads (s : Dashboard.State) (l : list Api.Lead)
  : Dashboard.State :=
  Dashboard.mkState l (Dashboard.allLeadsForCategories s)
    (Dashboard.loading s) (Dashboard.searchQuery s) (Dashboard.statusFilter s)
    (Dashboard.categoryFilter s) (Dashboard.itemsPerPage s)
    (Dashboard.currentPage s) (Dashboard.totalPages s) (Dashboard.total s)
    (Dashboard.stats s).

(** [handleDeleteConfirm] *)
Definition handleDeleteConfirm (a : State) : M State :=
  match selectedLead a with
  | None => ret a
  | Some sel =>
      d <- try_catch
             (_ <- Api.delete (Api._id sel) ;;
              Dashboard.fetchLeads
                (setLeads (dash a)
                   (filter (fun l => negb (Api._id l =? Api._id sel)%string)
                           (Dashboard.leads (dash a)))))
             (fun _ => _ <- console_log log_error "Error deleting lead:" ;;
                       ret (dash a)) ;;
      ret (mkState d None false false (showContactModal a))
  end.

Definition toggled_status (sel : Api.Lead) : string :=
  if Dashboard.isContacted sel then "new" else "contacted".

(** [handleContactConfirm] *)
Definition handleContactConfirm (a : State) : M State :=
  match selectedLead a with
  | None => ret a
  | Some sel =>
      d <- try_catch
             (response <-
                Api.update (Api._id sel)
                  (Api.mkPartial None None None
                                 (Some (JStr (toggled_status sel)))) ;;
              if Api.upd_success response then
                Dashboard.fetchLeads
                  (setLeads (dash a)
                     (map (fun l => if (Api._id l =? Api._id sel)%string
                                    then Api.upd_data response else l)
                          (Dashboard.leads (dash a))))
              else ret (dash a))
             (fun _ =>
                _ <- console_log log_error "Error updating lead status:" ;;
                ret (dash a)) ;;
      ret (mkState d None false (showDeleteModal a) false)
  end.

(** ** Facts *)

Lemma getStats_store (w w' : World) (r : Result LeadsStats) :
  getStats w = (r, w') ->
  Firestore.leads w' = Firestore.leads w
  /\ Firestore.notes w' = Firestore.notes w.
Proof.
  unfold getStats, getCountFromServer_leads, bind.
  destruct (round_trip _ w) as [[u|e] w1] eqn:R1;
    apply round_trip_store in R1; destruct R1 as (L1 & _ & _ & _ & N1 & _).
  - destruct (round_trip _ w1) as [[u2|e2] w2] eqn:R2;
      apply round_trip_store in R2; destruct R2 as (L2 & _ & _ & _ & N2 & _);
      intros H; inversion H; subst; rewrite <- L1, <- N1; auto.
  - intros H; inversion H; subst. auto.
Qed.

(** [getAll] only reads. *)
Lemma getAll_store (params : LeadsQueryParams) (w w' : World)
    (r : Result LeadsPage) :
  getAll params w = (r, w') ->
  Firestore.leads w' = Firestore.leads w
  /\ Firestore.notes w' = Firestore.notes w.
Proof.
  unfold getAll, bind, firestoreLimit.
  destruct (0 <? fetchLimit _ _).
  - cbn [ret]. unfold getDocs_leads, bind.
    destruct (round_trip _ w) as [[u|e] w1] eqn:R1;
      apply round_trip_store in R1; destruct R1 as (L1 & _ & _ & _ & N1 & _).
    + destruct (getStats w1) as [[s|e] w2] eqn:G;
        apply getStats_store in G; destruct G as (L2 & N2);
        intros H; inversion H; subst; rewrite <- L1, <- N1; auto.
    + intros H; inversion H; subst. auto.
  - cbn [throw]. intros H; inversion H; subst. auto.
Qed.

(** [fetchLeads] always comes back, and only reads. *)
Lemma fetchLeads_total (s : Dashboard.State) (w : World) :
  exists s' w',
    Dashboard.fetchLeads s w = (Ok s', w')
    /\ Firestore.leads w' = Firestore.leads w
    /\ Firestore.notes w' = Firestore.notes w
    /\ Dashboard.allLeadsForCategories s' = Dashboard.allLeadsForCategories s.
Proof.
  unfold Dashboard.fetchLeads.
  destruct (Dashboard.use_thick_path (Dashboard.setLoading s true)).
  - do 2 eexists. split; [reflexivity|]. repeat split.
  - unfold bind at 1, try_catch, Dashboard.thin_path, bind, Api.getAll, bind.
    destruct (getAll _ w) as [[r|e] w1] eqn:G;
      apply getAll_store in G; destruct G as (L & N).
    + cbn [ret Api.success]. destruct (success r);
        do 2 eexists; (split; [reflexivity|]); repeat split; assumption.
    + do 2 eexists. split; [reflexivity|]. cbn. repeat split; assumption.
Qed.

Lemma client_side_from_docs (st : StatusFilter) (search : option string)
    (lim : Z) (docs : list LeadDoc) (l : Lead) :
  In l (client_side st search lim (candidates st lim docs)) ->
  exists d, In d docs /\ l = docToLead d.
Proof.
  intros Hl. unfold client_side in Hl. apply MoreFacts.In_slice in Hl.
  unfold filtered in Hl. apply MoreFacts.search_step_In in Hl.
  assert (Hm : In l (map docToLead (candidates st lim docs))).
  { destruct (StatusFilter_eqb st status_not_contacted);
      [apply filter_In in Hl; tauto | exact Hl]. }
  apply in_map_iff in Hm. destruct Hm as (d & <- & Hd).
  apply candidates_In in Hd. exists d. tauto.
Qed.

Lemma Api_delete_through (i : string) (w : World) :
  next_fault w = None ->
  exists w1,
    Api.delete i w = (Ok true, w1)
    /\ Firestore.leads w1
       = filter (fun d => negb (doc_id d =? i)%string) (Firestore.leads w)
    /\ Firestore.notes w1 = Firestore.notes w
    /\ transport w1 = tl (transport w).
Proof.
  intros Hgo. unfold Api.delete, delete, deleteDoc_lead. eexists. split.
  - erewrite bind_ok; [reflexivity|].
    erewrite bind_ok by (apply round_trip_through; exact Hgo).
    reflexivity.
  - cbn. repeat split.
Qed.

End Actions.

Import Actions.

(** When the list request of the delegating branch fails, [fetchLeads]
    keeps what the dashboard showed: leads, totals, page count and stats
    stay as they were, the loading flag is cleared and one error goes to
    the console. *)
Theorem failed_fetch_keeps_the_list :
  forall (s : Dashboard.State) (w w1 : World) (e : Exn),
    Dashboard.use_thick_path s = false ->
    Api.getAll (thin_params s) w = (Throw e, w1) ->
    Dashboard.fetchLeads s w
    = (Ok (Dashboard.setLoading s false),
       add_console w1 log_error "Error fetching leads:")
    /\ Firestore.leads w1 = Firestore.leads w.
Proof.
  intros s w w1 e Hthin Hthrow. split.
  - unfold Dashboard.fetchLeads.
    change (Dashboard.use_thick_path (Dashboard.setLoading s true))
      with (Dashboard.use_thick_path s).
    rewrite Hthin.
    erewrite bind_ok.
    2:{ unfold try_catch, Dashboard.thin_path.
        change (mkParams _ _ _ _ _) with (thin_params s).
        erewrite bind_throw by exact Hthrow. reflexivity. }
    reflexivity.
  - unfold Api.getAll, bind in Hthrow.
    destruct (getAll (thin_params s) w) as [[r|e'] w2] eqn:G;
      [discriminate|].
    inversion Hthrow; subst. apply getAll_store in G. tauto.
Qed.

Lemma failed_fetch_keeps_the_list_witness :
  exists w1,
    Dashboard.fetchLeads (Dashboard.initial "" status_all "all" 15 1) offline
    = (Ok (Dashboard.setLoading (Dashboard.initial "" status_all "all" 15 1)
             false),
       add_console w1 log_error "Error fetching leads:")
    /\ Firestore.leads w1 = Firestore.leads offline.
Proof.
  eexists.
  apply (failed_fetch_keeps_the_list
           (Dashboard.initial "" status_all "all" 15 1) offline _
           (FirebaseError unavailable)).
  - reflexivity.
  - vm_compute. reflexivity.
Defined.

(** Confirming a delete from the list, with no category filter active:
    the lead is removed from the store, the dialog closes, and the list
    that is fetched again shows no lead with that id; the total is the
    size of what is left. *)
Theorem deleted_lead_leaves_the_list :
  forall (a : Actions.State) (sel : Api.Lead) (w : World),
    selectedLead a = Some sel ->
    Dashboard.use_thick_path (dash a) = false ->
    transport w = [] ->
    0 < Dashboard.itemsPerPage (dash a) ->
    exists a' w',
      handleDeleteConfirm a w = (Ok a', w')
      /\ selectedLead a' = None
      /\ showDeleteModal a' = false
      /\ actionLoading a' = false
      /\ find_lead (Api._id sel) (Firestore.leads w') = None
      /\ Forall (fun l => Api._id l <> Api._id sel)
                (Dashboard.leads (dash a'))
      /\ Dashboard.total (dash a')
         = Z.of_nat (List.length (Firestore.leads w')).
Proof.
  intros a sel w Hsel Hthin Hq HL.
  assert (Hgo : next_fault w = None)
    by (unfold next_fault; rewrite Hq; reflexivity).
  destruct (Api_delete_through (Api._id sel) w Hgo)
    as (w1 & Ed & L1 & _ & T1).
  rewrite Hq in T1. cbn [tl] in T1.
  set (d1 := setLeads (dash a)
               (filter (fun l => negb (Api._id l =? Api._id sel)%string)
                       (Dashboard.leads (dash a)))).
  destruct (fetchLeads_thin_quiet d1 w1 Hthin T1 HL) as (w2 & Ef & _).
  assert (L2 : Firestore.leads w2 = Firestore.leads w1).
  { destruct (fetchLeads_total d1 w1) as (s' & w' & E' & L' & _).
    rewrite Ef in E'. inversion E'; subst. exact L'. }
  exists (Actions.mkState (thin_result d1 (Firestore.leads w1)) None false
                          false (showContactModal a)), w2.
  split.
  { unfold handleDeleteConfirm. rewrite Hsel.
    erewrite bind_ok; [reflexivity|].
    unfold try_catch. fold d1.
    erewrite bind_ok by exact Ed. rewrite Ef. reflexivity. }
  cbn [selectedLead showDeleteModal actionLoading dash].
  split; [reflexivity|]. split; [reflexivity|]. split; [reflexivity|].
  split; [rewrite L2, L1; apply find_lead_filtered|]. split.
  - apply Forall_forall. intros l Hl.
    unfold thin_result, response_of, getAll_page in Hl.
    cbn [Dashboard.leads Dashboard.setLoading Dashboard.setResults Api.data
         Adapter.data] in Hl.
    apply in_map_iff in Hl. destruct Hl as (x & <- & Hx).
    apply client_side_from_docs in Hx. destruct Hx as (d & Hd & ->).
    rewrite L1 in Hd. apply filter_In in Hd. destruct Hd as [_ Hne].
    apply Bool.negb_true_iff, String.eqb_neq in Hne. exact Hne.
  - rewrite L2. reflexivity.
Qed.

(** The list of three leads as fetched, and the delete dialog open on
    one of them. *)
Definition delete_bolt : Actions.State :=
  Actions.mkState
    (thin_result (Dashboard.initial "" status_all "all" 15 1)
                 (Firestore.leads Samples.three_leads))
    (Some (shown Samples.bolt)) false true false.

Lemma deleted_lead_leaves_the_list_witness :
  exists a' w',
    handleDeleteConfirm delete_bolt Samples.three_leads = (Ok a', w')
    /\ selectedLead a' = None
    /\ showDeleteModal a' = false
    /\ actionLoading a' = false
    /\ find_lead "L2" (Firestore.leads w') = None
    /\ Forall (fun l => Api._id l <> "L2") (Dashboard.leads (dash a'))
    /\ Dashboard.total (dash a') = Z.of_nat (List.length (Firestore.leads w')).
Proof.
  apply (deleted_lead_leaves_the_list delete_bolt (shown Samples.bolt)
           Samples.three_leads); reflexivity.
Defined.

(** Confirming a delete while a category filter is active: the lead is
    removed from the store, but the list is rebuilt from the category
    snapshot, which is not fetched again: the dashboard shows exactly what
    the in-memory path computed before the delete, the deleted lead
    included if it was on the page. *)
Theorem deleted_lead_stays_listed_under_category_filter :
  forall (a : Actions.State) (sel : Api.Lead) (w : World),
    selectedLead a = Some sel ->
    Dashboard.use_thick_path (dash a) = true ->
    next_fault w = None ->
    exists a' w',
      handleDeleteConfirm a w = (Ok a', w')
      /\ find_lead (Api._id sel) (Firestore.leads w') = None
      /\ Dashboard.leads (dash a')
         = Dashboard.leads (Dashboard.thick_path (dash a))
      /\ Dashboard.stats (dash a')
         = Dashboard.stats (Dashboard.thick_path (dash a))
      /\ Dashboard.allLeadsForCategories (dash a')
         = Dashboard.allLeadsForCategories (dash a)
      /\ (In sel (Dashboard.leads (Dashboard.thick_path (dash a))) ->
          In sel (Dashboard.leads (dash a'))).
Proof.
  intros a sel w Hsel Hthick Hgo.
  destruct (Api_delete_through (Api._id sel) w Hgo)
    as (w1 & Ed & L1 & _ & _).
  set (d1 := setLeads (dash a)
               (filter (fun l => negb (Api._id l =? Api._id sel)%string)
                       (Dashboard.leads (dash a)))).
  pose proof (fetchLeads_thick d1 w1 Hthick) as Ef.
  exists (Actions.mkState
            (Dashboard.setLoading
               (Dashboard.thick_path (Dashboard.setLoading d1 true)) false)
            None false false (showContactModal a)), w1.
  split.
  { unfold handleDeleteConfirm. rewrite Hsel.
    erewrite bind_ok; [reflexivity|].
    unfold try_catch. fold d1.
    erewrite bind_ok by exact Ed. rewrite Ef. reflexivity. }
  split; [rewrite L1; apply find_lead_filtered|].
  cbn [dash]. split; [reflexivity|]. split; [reflexivity|].
  split; [reflexivity|]. intros H. exact H.
Qed.

(** The snapshot of the three leads, the category filter "garage" and
    the delete dialog open on the one lead of that category. *)
Definition delete_bolt_filtered : Actions.State :=
  Actions.mkState
    (Dashboard.thick_path
       (Dashboard.setAllLeadsForCategories
          (Dashboard.initial "" status_all "garage" 15 1)
          (snapshot_of (Firestore.leads Samples.three_leads))))
    (Some (shown Samples.bolt)) false true false.

Lemma deleted_lead_stays_listed_under_category_filter_witness :
  exists a' w',
    handleDeleteConfirm delete_bolt_filtered Samples.three_leads = (Ok a', w')
    /\ find_lead "L2" (Firestore.leads w') = None
    /\ Dashboard.leads (dash a') = [shown Samples.bolt].
Proof.
  destruct (deleted_lead_stays_listed_under_category_filter
              delete_bolt_filtered (shown Samples.bolt) Samples.three_leads
              eq_refl eq_refl eq_refl)
    as (a' & w' & E & Habs & Hl & _).
  exists a', w'. split; [exact E|]. split; [exact Habs|].
  rewrite Hl. reflexivity.
Defined.

Lemma toggled_flips (sel : Api.Lead) (d : LeadDoc) :
  d_status (doc_data d) = JStr (toggled_status sel) ->
  Dashboard.isContacted (shown d) = negb (Dashboard.isContacted sel).
Proof.
  intros H. unfold shown, Dashboard.isContacted at 1.
  cbn [Api.fields Api.toAPILead status docToLead]. rewrite H.
  unfold toggled_status. destruct (Dashboard.isContacted sel); reflexivity.
Qed.

(** Confirming the status toggle of the row menu writes the status
    computed from the row as displayed: "new" if the row shows as
    contacted (contacted, qualified or converted), "contacted" otherwise.
    The stored lead thus ends with the classification opposite to the
    row's: its own classification flips when the row agrees with the
    store, and stays as it was when the row is stale.  The dialog closes,
    and no note is written either way. *)
Theorem menu_toggle_follows_displayed_row :
  forall (a : Actions.State) (sel : Api.Lead) (w : World) (d : LeadDoc),
    selectedLead a = Some sel ->
    find_lead (Api._id sel) (Firestore.leads w) = Some d ->
    transport w = [] ->
    exists a' w' d',
      handleContactConfirm a w = (Ok a', w')
      /\ selectedLead a' = None
      /\ showContactModal a' = false
      /\ find_lead (Api._id sel) (Firestore.leads w') = Some d'
      /\ d_status (doc_data d') = JStr (toggled_status sel)
      /\ Dashboard.isContacted (shown d') = negb (Dashboard.isContacted sel)
      /\ (Dashboard.isContacted sel = Dashboard.isContacted (shown d) ->
          Dashboard.isContacted (shown d')
          = negb (Dashboard.isContacted (shown d)))
      /\ (Dashboard.isContacted sel <> Dashboard.isContacted (shown d) ->
          Dashboard.isContacted (shown d') = Dashboard.isContacted (shown d))
      /\ Firestore.notes w' = Firestore.notes w.
Proof.
  intros a sel w d Hsel Hfind Hq.
  assert (H1 : next_fault w = None)
    by (unfold next_fault; rewrite Hq; reflexivity).
  assert (H2 : next_fault (set_transport w (tl (transport w))) = None)
    by (unfold next_fault; cbn [transport set_transport]; rewrite Hq;
        reflexivity).
  set (patch := Api.toFirestoreLead
                  (Api.mkPartial None None None
                                 (Some (JStr (toggled_status sel))))).
  pose proof (update_through (Api._id sel) patch w d Hfind eq_refl H1 H2)
    as Eu.
  set (d' := mkLeadDoc (doc_id d)
               (apply_update (update_fields patch w) (doc_data d))) in *.
  set (w1 := after_update (Api._id sel) patch w) in *.
  set (d1 := setLeads (dash a)
               (map (fun l => if (Api._id l =? Api._id sel)%string
                              then Api.toAPILead (docToLead d') else l)
                    (Dashboard.leads (dash a)))).
  destruct (fetchLeads_total d1 w1) as (s' & w' & Ef & L & N & _).
  exists (Actions.mkState s' None false (showDeleteModal a) false), w', d'.
  split.
  { unfold handleContactConfirm. rewrite Hsel.
    erewrite bind_ok; [reflexivity|].
    unfold try_catch.
    erewrite bind_ok.
    2:{ unfold Api.update. erewrite bind_ok by exact Eu. reflexivity. }
    cbn [Api.upd_success Api.upd_data]. fold d1. rewrite Ef. reflexivity. }
  assert (Hst : d_status (doc_data d') = JStr (toggled_status sel))
    by reflexivity.
  pose proof (toggled_flips sel d' Hst) as Hflip.
  split; [reflexivity|]. split; [reflexivity|]. split.
  { rewrite L. unfold w1.
    cbn [Firestore.leads after_update after_round_trip set_transport
         add_trace set_leads].
    apply (find_lead_update_in _ _ _ _ Hfind). }
  split; [exact Hst|]. split; [exact Hflip|].
  split; [intros Hsync; rewrite Hflip, Hsync; reflexivity|].
  split.
  { intros Hstale. rewrite Hflip.
    destruct (Dashboard.isContacted sel),
             (Dashboard.isContacted (shown d)); try reflexivity;
      exfalso; apply Hstale; reflexivity. }
  rewrite N. reflexivity.
Qed.

(** A row of the lead "L2" as it was before it was contacted. *)
Definition stale_bolt : Api.Lead :=
  shown (mkLeadDoc "L2" (doc_data Samples.acme)).

Lemma menu_toggle_follows_displayed_row_witness :
  (exists a' w' d',
     handleContactConfirm
       (Actions.mkState (Dashboard.initial "" status_all "all" 15 1)
                        (Some (shown Samples.cafe)) false false true)
       Samples.three_leads = (Ok a', w')
     /\ find_lead "L3" (Firestore.leads w') = Some d'
     /\ d_status (doc_data d') = JStr "new"
     /\ Dashboard.isContacted (shown Samples.cafe) = true
     /\ Dashboard.isContacted (shown d') = false)
  /\ (exists a' w' d',
        handleContactConfirm
          (Actions.mkState (Dashboard.initial "" status_all "all" 15 1)
                           (Some stale_bolt) false false true)
          Samples.three_leads = (Ok a', w')
        /\ find_lead "L2" (Firestore.leads w') = Some d'
        /\ d_status (doc_data d') = JStr "contacted"
        /\ Dashboard.isContacted (shown Samples.bolt) = true
        /\ Dashboard.isContacted (shown d') = true).
Proof.
  split.
  - destruct (menu_toggle_follows_displayed_row
                (Actions.mkState (Dashboard.initial "" status_all "all" 15 1)
                                 (Some (shown Samples.cafe)) false false true)
                (shown Samples.cafe) Samples.three_leads Samples.cafe
                eq_refl eq_refl eq_refl)
      as (a' & w' & d' & E & _ & _ & Hf & Hs & _ & Hsync & _).
    exists a', w', d'. split; [exact E|]. split; [exact Hf|].
    split; [exact Hs|]. split; [reflexivity|]. exact (Hsync eq_refl).
  - destruct (menu_toggle_follows_displayed_row
                (Actions.mkState (Dashboard.initial "" status_all "all" 15 1)
                                 (Some stale_bolt) false false true)
                stale_bolt Samples.three_leads Samples.bolt
                eq_refl eq_refl eq_refl)
      as (a' & w' & d' & E & _ & _ & Hf & Hs & _ & _ & Hstale & _).
    exists a', w', d'. split; [exact E|]. split; [exact Hf|].
    split; [exact Hs|]. split; [reflexivity|].
    apply Hstale. discriminate.
Defined.

(* ================================================================== *)
(** * pages/LeadDetailsPage.tsx: loading a lead *)
(* ================================================================== *)

Module Details.

Record State : Type := mkState {
  lead : option Api.Lead;
  contacts : list ChildDoc;
  socialProfiles : list ChildDoc;
  loading : bool;
  error : option string
}.

Definition setLoading (s : State) (b : bool) : State :=
  mkState (lead s) (contacts s) (socialProfiles s) b (error s).

Definition setError (s : State) (e : option string) : State :=
  mkState (lead s) (contacts s) (socialProfiles s) (loading s) e.








End Details.



(* ================================================================== *)
(** * Deleting a note *)
(* ================================================================== *)




